(** * gufe.base: content-addressed tokenizable objects

    A shallow embedding of [src/gufe/base.py]: the class registry and its
    remap table, the registry of live instances (weak references), the
    dependency walker [modify_dependencies] and the encode / decode
    pipelines built on it, tokenization and keys, and the comparison
    operators of [GufeTokenizable]. *)

From Stdlib Require Import ZArith String Ascii List Bool Lia DecimalString.
From stdpp Require Import base option gmap strings list fin_maps.
Import ListNotations.
Local Open Scope string_scope.

(** ** Python values *)

(** A class object is identified by the pair [(__module__, __qualname__)]
    under which it was defined. *)
Abbreviation cname := (string * string)%type.

(** The values that travel through [base.py]: scalars, [list], [dict]
    (with string keys, in insertion order) and instances of
    [GufeTokenizable].  An instance carries its object identity [oid], its
    class and its attributes; instances are never mutated after
    construction (the cached [_key] is a function of the attributes). *)
Local Unset Elimination Schemes.
Inductive value : Type :=
| VNone
| VBool (b : bool)
| VInt (z : Z)
| VStr (s : string)
| VList (items : list value)
| VDict (items : list (string * value))
| VEnt (oid : nat) (cls : cname) (attrs : list (string * value)).
Local Set Elimination Schemes.

Definition pydict : Type := list (string * value).

Section value_induction.
Variable P : value -> Prop.
Hypothesis HNone : P VNone.
Hypothesis HBool : forall b, P (VBool b).
Hypothesis HInt : forall z, P (VInt z).
Hypothesis HStr : forall s, P (VStr s).
Hypothesis HList : forall l, Forall P l -> P (VList l).
Hypothesis HDict : forall d, Forall (fun kv => P (snd kv)) d -> P (VDict d).
Hypothesis HEnt : forall o c d, Forall (fun kv => P (snd kv)) d -> P (VEnt o c d).

Fixpoint value_ind' (v : value) : P v :=
  match v with
  | VNone => HNone
  | VBool b => HBool b
  | VInt z => HInt z
  | VStr s => HStr s
  | VList l =>
      HList l ((fix go (l : list value) : Forall P l :=
                  match l with
                  | [] => @Stdlib.Lists.List.Forall_nil _ _
                  | x :: l' => @Stdlib.Lists.List.Forall_cons _ _ x l' (value_ind' x) (go l')
                  end) l)
  | VDict d =>
      HDict d ((fix go (d : pydict) : Forall (fun kv => P (snd kv)) d :=
                  match d with
                  | [] => @Stdlib.Lists.List.Forall_nil _ _
                  | kv :: d' => @Stdlib.Lists.List.Forall_cons _ _ kv d' (value_ind' (snd kv)) (go d')
                  end) d)
  | VEnt o c d =>
      HEnt o c d ((fix go (d : pydict) : Forall (fun kv => P (snd kv)) d :=
                  match d with
                  | [] => @Stdlib.Lists.List.Forall_nil _ _
                  | kv :: d' => @Stdlib.Lists.List.Forall_cons _ _ kv d' (value_ind' (snd kv)) (go d')
                  end) d)
  end.
End value_induction.

(** ** Dictionaries *)

(** [d.get(k)] / [k in d]. *)
Fixpoint dict_get {A} (k : string) (d : list (string * A)) : option A :=
  match d with
  | [] => None
  | (k', v) :: d' => if String.eqb k k' then Some v else dict_get k d'
  end.

Definition dict_mem {A} (k : string) (d : list (string * A)) : bool :=
  match dict_get k d with Some _ => true | None => false end.

(** The dictionary left by [d.pop(k)]. *)
Fixpoint dict_remove {A} (k : string) (d : list (string * A)) : list (string * A) :=
  match d with
  | [] => []
  | (k', v) :: d' => if String.eqb k k' then d' else (k', v) :: dict_remove k d'
  end.

(** [d[k] = v]: an existing key keeps its position, a new key goes last. *)
Fixpoint dict_set {A} (k : string) (v : A) (d : list (string * A)) : list (string * A) :=
  match d with
  | [] => [(k, v)]
  | (k', v') :: d' =>
      if String.eqb k k' then (k', v) :: d' else (k', v') :: dict_set k v d'
  end.

(** [d.update(e)]. *)
Definition dict_update {A} (d e : list (string * A)) : list (string * A) :=
  fold_left (fun acc kv => dict_set (fst kv) (snd kv) acc) e d.

(** ** Python's [==] on encoded values

    Scalars compare by value ([bool] is a subtype of [int]: [True == 1]),
    lists element by element, dictionaries key by key whatever the
    insertion order.  The operands of [==] in [base.py] are dictionary
    forms, in which instances have been encoded, and declared defaults;
    an instance operand is dispatched to [GufeTokenizable.__eq__]
    ([gufe_eq] below) and is not equal to anything here. *)
Fixpoint py_eq (a b : value) {struct a} : bool :=
  match a, b with
  | VNone, VNone => true
  | VBool x, VBool y => Bool.eqb x y
  | VBool x, VInt y => Z.eqb (Z.b2z x) y
  | VInt x, VBool y => Z.eqb x (Z.b2z y)
  | VInt x, VInt y => Z.eqb x y
  | VStr x, VStr y => String.eqb x y
  | VList xs, VList ys =>
      (fix go (xs ys : list value) : bool :=
         match xs, ys with
         | [], [] => true
         | x :: xs', y :: ys' => py_eq x y && go xs' ys'
         | _, _ => false
         end) xs ys
  | VDict d1, VDict d2 =>
      Nat.eqb (length d1) (length d2) &&
      (fix go (d : pydict) : bool :=
         match d with
         | [] => true
         | (k, v) :: d' =>
             match dict_get k d2 with
             | Some v' => py_eq v v'
             | None => false
             end && go d'
         end) d1
  | _, _ => false
  end.

(** ** Exceptions, the interpreter state and the monad of Python code *)

Inductive exn : Type :=
| KeyError (what : string)
| TypeError (what : string)
| ValueError (what : string)
| ImportError (modname qualname : string)
| RecursionError.

Inductive res (A : Type) : Type :=
| Ok (a : A)
| Raise (e : exn).
Arguments Ok {A} a.
Arguments Raise {A} e.

(** The module-level state of [base.py] and of the interpreter:
    - [TOKENIZABLE_CLASS_REGISTRY]: tag to class;
    - [TOKENIZABLE_REGISTRY]: key to a weak reference to an instance;
    - [collected]: the instances that have lost their last strong owner
      (a weak reference to one of them returns [None]);
    - [store]: the dictionaries that callers hold by reference, so that a
      [pop] by a callee is seen by the caller;
    - [next_loc], [next_oid]: allocation counters. *)
Record state : Type := State {
  TOKENIZABLE_CLASS_REGISTRY : gmap cname cname;
  TOKENIZABLE_REGISTRY : gmap string value;
  collected : gset nat;
  store : gmap nat value;
  next_loc : nat;
  next_oid : nat
}.

Definition M (A : Type) : Type := state -> res A * state.

Definition ret {A} (a : A) : M A := fun s => (Ok a, s).
Definition raise {A} (e : exn) : M A := fun s => (Raise e, s).
Definition bind {A B} (m : M A) (k : A -> M B) : M B :=
  fun s => match m s with
           | (Ok a, s') => k a s'
           | (Raise e, s') => (Raise e, s')
           end.

Notation "'let*' x ':=' m 'in' k" := (bind m (fun x => k))
  (at level 10, x name, m at level 100, k at level 200).
Notation "m1 ';;' m2" := (bind m1 (fun _ => m2))
  (at level 100, m2 at level 200, right associativity).

(** [try: m except KeyError: h]. *)
Definition except_KeyError {A} (m : M A) (h : M A) : M A :=
  fun s => match m s with
           | (Raise (KeyError _), s') => h s'
           | r => r
           end.

Fixpoint mapM {A B} (f : A -> M B) (l : list A) : M (list B) :=
  match l with
  | [] => ret []
  | x :: l' => let* y := f x in let* ys := mapM f l' in ret (y :: ys)
  end.

(** *** The store of dictionaries held by reference *)

Definition alloc (v : value) : M nat :=
  fun s => (Ok (next_loc s),
            State (TOKENIZABLE_CLASS_REGISTRY s) (TOKENIZABLE_REGISTRY s)
                  (collected s) (<[next_loc s := v]> (store s))
                  (S (next_loc s)) (next_oid s)).

Definition load (l : nat) : M value :=
  fun s => match store s !! l with
           | Some v => (Ok v, s)
           | None => (Raise (TypeError "dangling reference"), s)
           end.

Definition write (l : nat) (v : value) : M unit :=
  fun s => (Ok tt,
            State (TOKENIZABLE_CLASS_REGISTRY s) (TOKENIZABLE_REGISTRY s)
                  (collected s) (<[l := v]> (store s))
                  (next_loc s) (next_oid s)).

(** [dct.pop(k)] on the dictionary at [l]: [KeyError] when [k] is missing. *)
Definition pop (l : nat) (k : string) : M value :=
  let* d := load l in
  match d with
  | VDict items =>
      match dict_get k items with
      | Some v => write l (VDict (dict_remove k items)) ;; ret v
      | None => raise (KeyError k)
      end
  | _ => raise (TypeError "pop")
  end.

(** *** Object identities and weak references *)

Definition fresh_oid : M nat :=
  fun s => (Ok (next_oid s),
            State (TOKENIZABLE_CLASS_REGISTRY s) (TOKENIZABLE_REGISTRY s)
                  (collected s) (store s) (next_loc s) (S (next_oid s))).

(** The last strong owner of instance [o] disappears (a move of the
    environment, never of [base.py]). *)
Definition collect (o : nat) (s : state) : state :=
  State (TOKENIZABLE_CLASS_REGISTRY s) (TOKENIZABLE_REGISTRY s)
        ({[o]} ∪ collected s) (store s) (next_loc s) (next_oid s).

Definition alive (s : state) (v : value) : bool :=
  match v with
  | VEnt o _ _ => bool_decide (o ∉ collected s)
  | _ => true
  end.

(** Calling the weak reference stored under [k]: [KeyError] when the key
    is absent, [None] when the instance has been collected. *)
Definition registry_deref (k : string) : M value :=
  fun s => match TOKENIZABLE_REGISTRY s !! k with
           | None => (Raise (KeyError k), s)
           | Some v => (Ok (if alive s v then v else VNone), s)
           end.

(** [TOKENIZABLE_REGISTRY.setdefault(k, weakref.ref(v))]. *)
Definition registry_setdefault (k : string) (v : value) : M unit :=
  fun s => (Ok tt,
            match TOKENIZABLE_REGISTRY s !! k with
            | Some _ => s
            | None =>
                State (TOKENIZABLE_CLASS_REGISTRY s)
                      (<[k := v]> (TOKENIZABLE_REGISTRY s))
                      (collected s) (store s) (next_loc s) (next_oid s)
            end).

(** [copy.deepcopy]: a structurally equal tree in which every instance
    is a new object; [n] is the next unused object identity. *)
Fixpoint deepcopy_from (n : nat) (v : value) : value * nat :=
  match v with
  | VList l =>
      let '(l', n') :=
        (fix go (n : nat) (l : list value) : list value * nat :=
           match l with
           | [] => ([], n)
           | x :: r =>
               let '(x', n1) := deepcopy_from n x in
               let '(r', n2) := go n1 r in (x' :: r', n2)
           end) n l in
      (VList l', n')
  | VDict d =>
      let '(d', n') :=
        (fix go (n : nat) (d : pydict) : pydict * nat :=
           match d with
           | [] => ([], n)
           | (k, x) :: r =>
               let '(x', n1) := deepcopy_from n x in
               let '(r', n2) := go n1 r in ((k, x') :: r', n2)
           end) n d in
      (VDict d', n')
  | VEnt _ c d =>
      let '(d', n') :=
        (fix go (n : nat) (d : pydict) : pydict * nat :=
           match d with
           | [] => ([], n)
           | (k, x) :: r =>
               let '(x', n1) := deepcopy_from n x in
               let '(r', n2) := go n1 r in ((k, x') :: r', n2)
           end) (S n) d in
      (VEnt n c d', n')
  | _ => (v, n)
  end.

Definition deepcopy (v : value) : M value :=
  fun s => let '(v', n') := deepcopy_from (next_oid s) v in
           (Ok v',
            State (TOKENIZABLE_CLASS_REGISTRY s) (TOKENIZABLE_REGISTRY s)
                  (collected s) (store s) (next_loc s) n').

(** ** The module [gufe.base] *)

Section Gufe.

(** What lies outside [base.py]: the classes that
    [importlib.import_module] followed by attribute lookup can find,
    each with the parameters of its [__init__] and their defaults (what
    [inspect.signature] returns); the content of [REMAPPED_CLASSES];
    Python's [str] and the MD5 digest. *)
Variable CLASSES : gmap cname (list (string * option value)).
Variable REMAPPED_CLASSES : gmap cname cname.
Variable py_str : value -> string.
Variable py_str_item : string * value -> string.
Variable py_str_items : list (string * value) -> string.
Variable md5_hexdigest : string -> string.

(** *** Class registry *)

Definition class_registry_set (k : cname) (c : cname) : M unit :=
  fun s => (Ok tt,
            State (<[k := c]> (TOKENIZABLE_CLASS_REGISTRY s))
                  (TOKENIZABLE_REGISTRY s) (collected s) (store s)
                  (next_loc s) (next_oid s)).

Definition class_registry_get (k : cname) : M cname :=
  fun s => match TOKENIZABLE_CLASS_REGISTRY s !! k with
           | Some c => (Ok c, s)
           | None => (Raise (KeyError (snd k)), s)
           end.

Definition register_tokenizable_class (cls : cname) : M unit :=
  class_registry_set cls cls.

Definition module_qualname (cls : cname) : pydict :=
  [("__qualname__", VStr (snd cls)); ("__module__", VStr (fst cls))].

Definition is_gufe_obj (obj : value) : bool :=
  match obj with VEnt _ _ _ => true | _ => false end.

Definition is_gufe_dict (dct : value) : bool :=
  match dct with
  | VDict items => dict_mem "__qualname__" items && dict_mem "__module__" items
  | _ => false
  end.

Definition is_gufe_key_dict (dct : value) : bool :=
  match dct with
  | VDict items => dict_mem ":gufe-key:" items
  | _ => false
  end.

Definition import_qualname (modname qualname : string)
    (remappings : gmap cname cname) : M cname :=
  let target :=
    match remappings !! (modname, qualname) with
    | Some new => new
    | None => (modname, qualname)
    end in
  match CLASSES !! target with
  | Some _ => ret target
  | None => raise (ImportError (fst target) (snd target))
  end.

Definition get_class (module qualname : string) : M cname :=
  let key := (module, qualname) in
  except_KeyError
    (class_registry_get key)
    (let* cls := import_qualname module qualname REMAPPED_CLASSES in
     class_registry_set key cls ;;
     ret cls).

(** *** Concrete classes *)

Definition signature (cls : cname) : list (string * option value) :=
  match CLASSES !! cls with Some sg => sg | None => [] end.

(** [GufeTokenizable._defaults]: the parameters of [__init__] that have
    a default. *)
Definition _defaults (cls : cname) : pydict :=
  omap (fun p => match snd p with
                 | Some d => Some (fst p, d)
                 | None => None
                 end) (signature cls).

(** Modelled from the spec: the concrete entity types, whose [__init__],
    [_to_dict] and [_from_dict] are defined outside [src/].  [_to_dict]
    exports the instance's own fields, one per parameter of [__init__]
    (these are the [attrs] of [VEnt]); [_from_dict] is the inverse
    constructor, [cls] called with the items of [dct] as keyword
    arguments: every parameter takes the value given for
    it or else its default, and a missing required parameter or an
    unexpected key is a [TypeError]. *)
Fixpoint bind_params (sg : list (string * option value)) (dct : pydict)
    : option pydict :=
  match sg with
  | [] => Some []
  | (p, dflt) :: sg' =>
      match (match dict_get p dct with Some v => Some v | None => dflt end),
            bind_params sg' dct with
      | Some v, Some rest => Some ((p, v) :: rest)
      | _, _ => None
      end
  end.

Definition cls_from_dict (cls : cname) (dct : value) : M value :=
  match dct with
  | VDict items =>
      if forallb (fun kv => dict_mem (fst kv) (signature cls)) items then
        match bind_params (signature cls) items with
        | Some attrs => let* o := fresh_oid in ret (VEnt o cls attrs)
        | None => raise (TypeError "missing required argument")
        end
      else raise (TypeError "unexpected keyword argument")
  | _ => raise (TypeError "argument after ** must be a mapping")
  end.

(** *** The dependency walker *)

Fixpoint modify_dependencies (fuel : nat) (modifier : nat -> M value)
    (is_mine : value -> bool) (top : bool) (obj : value) : M value :=
  match fuel with
  | O => raise RecursionError
  | S fuel' =>
      let* obj := deepcopy obj in
      let* obj :=
        if is_mine obj && negb top
        then (let* l := alloc obj in modifier l)
        else ret obj in
      match obj with
      | VDict items =>
          let* items' :=
            mapM (fun kv =>
                    let* v := modify_dependencies fuel' modifier is_mine
                                false (snd kv) in
                    ret (fst kv, v)) items in
          ret (VDict items')
      | VList items =>
          let* items' :=
            mapM (modify_dependencies fuel' modifier is_mine false) items in
          ret (VList items')
      | _ => ret obj
      end
  end.

(** *** Encoding *)

Definition to_dict (obj : value) : M value :=
  match obj with
  | VEnt _ cls attrs => ret (VDict (dict_update attrs (module_qualname cls)))
  | _ => raise (TypeError "to_dict")
  end.

Definition to_shallow_dict (self : value) : M value := to_dict self.

Definition dict_encode_dependencies (fuel : nat) (obj : value) : M value :=
  let* shallow := to_shallow_dict obj in
  modify_dependencies fuel (fun l => let* o := load l in to_dict o)
    is_gufe_obj true shallow.

(** The loop of [GufeTokenizable.to_dict] that strips the defaults. *)
Fixpoint strip_defaults (defaults : pydict) (dct : pydict) : res pydict :=
  match defaults with
  | [] => Ok dct
  | (key, value) :: rest =>
      if py_eq (match dict_get key dct with Some v => v | None => VNone end)
               value
      then match dict_get key dct with
           | Some _ => strip_defaults rest (dict_remove key dct)
           | None => Raise (KeyError key)
           end
      else strip_defaults rest dct
  end.

Definition defaults (self : value) : pydict :=
  match self with
  | VEnt _ cls _ => _defaults cls
  | _ => []
  end.

Definition GufeTokenizable_to_dict (fuel : nat) (self : value)
    (include_defaults : bool) : M value :=
  let* dct := dict_encode_dependencies fuel self in
  if include_defaults then ret dct
  else match dct with
       | VDict items =>
           match strip_defaults (defaults self) items with
           | Ok items' => ret (VDict items')
           | Raise e => raise e
           end
       | _ => raise (TypeError "to_dict")
       end.

(** *** Tokenization and keys *)

(** [sorted(items, key=str)]: a stable sort on the text of each item. *)
Fixpoint insert_sorted (x : string * value) (l : pydict) : pydict :=
  match l with
  | [] => [x]
  | y :: l' =>
      if String.ltb (py_str_item y) (py_str_item x)
      then y :: insert_sorted x l'
      else x :: y :: l'
  end.

Definition sorted (l : pydict) : pydict := foldr insert_sorted [] l.

Definition _gufe_tokenize (fuel : nat) (self : value) : M pydict :=
  let* dct := GufeTokenizable_to_dict fuel self false in
  match dct with
  | VDict items => ret (sorted items)
  | _ => raise (TypeError "items")
  end.

Definition normalize_object (fuel : nat) (o : value) : M pydict :=
  match o with
  | VEnt _ _ _ => _gufe_tokenize fuel o
  | _ => raise (ValueError
                  "Cannot normalize object without `_gufe_tokenize` method.")
  end.

Definition tokenize (fuel : nat) (obj : value) : M string :=
  let* normal := normalize_object fuel obj in
  ret (md5_hexdigest (py_str_items normal)).

(** The property [GufeTokenizable.key].  The cached [_key] is the value
    computed here, since instances are immutable; the registration runs
    at every access. *)
Definition key (fuel : nat) (self : value) : M string :=
  match self with
  | VEnt _ cls _ =>
      let* token := tokenize fuel self in
      let _key := snd cls ++ "-" ++ token in
      registry_setdefault _key self ;;
      ret _key
  | _ => raise (TypeError "key")
  end.

(** [GufeKey.to_dict]. *)
Definition GufeKey_to_dict (k : string) : value :=
  VDict [(":gufe-key:", VStr k)].

Definition key_encode_dependencies (fuel : nat) (obj : value) : M value :=
  let* shallow := to_shallow_dict obj in
  modify_dependencies fuel
    (fun l => let* o := load l in
              let* k := key fuel o in
              ret (GufeKey_to_dict k))
    is_gufe_obj true shallow.

(** *** Decoding *)

Definition is_None (v : value) : bool :=
  match v with VNone => true | _ => false end.

Definition _from_dict (dct : nat) : M value :=
  let* module := pop dct "__module__" in
  let* qualname := pop dct "__qualname__" in
  if is_None qualname || is_None module then
    raise (KeyError "`__qualname__` or `__module__` key not found; unable to reconstitute from dict")
  else
    match module, qualname with
    | VStr m, VStr q =>
        let* cls := get_class m q in
        let* d := load dct in
        cls_from_dict cls d
    | _, _ => raise (TypeError "import_module")
    end.

Definition from_dict (fuel : nat) (dct : nat) : M value :=
  let* obj := _from_dict dct in
  except_KeyError
    (let* k := key fuel obj in
     let* thing := registry_deref k in
     if is_None thing then ret obj else ret thing)
    (ret obj).

Definition dict_decode_dependencies (fuel : nat) (dct : nat) : M value :=
  let* d := load dct in
  let* d' := modify_dependencies fuel (from_dict fuel) is_gufe_dict true d in
  let* l := alloc d' in
  from_dict fuel l.

Definition key_decode_dependencies (fuel : nat) (dct : nat) : M value :=
  let* d := load dct in
  let* d' :=
    modify_dependencies fuel
      (fun l =>
         let* d := load l in
         match d with
         | VDict items =>
             match dict_get ":gufe-key:" items with
             | Some (VStr k) => registry_deref k
             | Some v => registry_deref (py_str v)
             | None => raise (KeyError ":gufe-key:")
             end
         | _ => raise (TypeError "subscript")
         end)
      is_gufe_key_dict true d in
  let* l := alloc d' in
  from_dict fuel l.

(** *** The methods of [GufeTokenizable] *)

Definition GufeTokenizable_from_dict (fuel : nat) (dct : nat) : M value :=
  dict_decode_dependencies fuel dct.

Definition to_keyed_dict (fuel : nat) (self : value) : M value :=
  key_encode_dependencies fuel self.

Definition from_keyed_dict (fuel : nat) (dct : nat) : M value :=
  key_decode_dependencies fuel dct.

Definition from_shallow_dict (fuel : nat) (dct : nat) : M value :=
  from_dict fuel dct.

(** [isinstance(other, cls)]; no concrete class of the model derives
    from another. *)
Definition isinstance (other : value) (cls : cname) : bool :=
  match other with
  | VEnt _ c _ => bool_decide (c = cls)
  | _ => false
  end.

(** [GufeTokenizable.__eq__].  [NotImplemented] is not callable: calling
    it raises [TypeError]. *)
Definition __eq__ (fuel : nat) (self other : value) : M bool :=
  match self with
  | VEnt _ cls _ =>
      if negb (isinstance other cls) then
        raise (TypeError "'NotImplementedType' object is not callable")
      else
        let* a := GufeTokenizable_to_dict fuel self true in
        let* b := GufeTokenizable_to_dict fuel other true in
        ret (py_eq a b)
  | _ => raise (TypeError "__eq__")
  end.

End Gufe.

(** ** Hashing and ordering of instances

    [GufeTokenizable.__hash__] and [__lt__].  Python's [hash] is outside
    [base.py]: [py_hash_str] is its value on a string, [py_hash] its
    value on what is not an instance ([None] for an unhashable value). *)

Section GufeOrder.

Variable CLASSES : gmap cname (list (string * option value)).
Variable py_str_item : string * value -> string.
Variable py_str_items : list (string * value) -> string.
Variable md5_hexdigest : string -> string.
Variable py_hash_str : string -> Z.
Variable py_hash : value -> option Z.

Definition __hash__ (fuel : nat) (self : value) : M Z :=
  let* k := key CLASSES py_str_item py_str_items md5_hexdigest fuel self in
  ret (py_hash_str k).

(** The builtin [hash(v)]. *)
Definition hash (fuel : nat) (v : value) : M Z :=
  match v with
  | VEnt _ _ _ => __hash__ fuel v
  | _ =>
      match py_hash v with
      | Some h => ret h
      | None => raise (TypeError "unhashable type")
      end
  end.

Definition __lt__ (fuel : nat) (self other : value) : M bool :=
  let* a := hash fuel self in
  let* b := hash fuel other in
  ret (a <? b)%Z.

End GufeOrder.

(** ** What a computation leaves untouched in the store

    [frame n s s']: nothing was deallocated between [s] and [s'] and
    every cell below [n] holds what it held.  [keeps n m]: running [m]
    from any state that has allocated [n] cells keeps the first [n]. *)

Definition frame (n : nat) (s s' : state) : Prop :=
  next_loc s <= next_loc s' /\
  forall l, l < n -> store s' !! l = store s !! l.

Definition keeps {A} (n : nat) (m : M A) : Prop :=
  forall s, n <= next_loc s -> frame n s (snd (m s)).

(** ** The encoders, as functions

    What the walker computes when it runs to completion: [encode] for
    [dict_encode_dependencies] (every instance replaced by its tagged
    dictionary, recursively), and [depth], the recursion depth the walk
    needs. *)

Fixpoint encode (v : value) : value :=
  match v with
  | VList l => VList (map encode l)
  | VDict d => VDict (map (fun kv => (fst kv, encode (snd kv))) d)
  | VEnt _ cls attrs =>
      VDict (dict_update (map (fun kv => (fst kv, encode (snd kv))) attrs)
                         [("__qualname__", VStr (snd cls));
                          ("__module__", VStr (fst cls))])
  | _ => v
  end.

Fixpoint depth (v : value) : nat :=
  match v with
  | VList l => S (foldr (fun x acc => Nat.max (depth x) acc) 0 l)
  | VDict d => S (foldr (fun kv acc => Nat.max (depth (snd kv)) acc) 0 d)
  | VEnt _ _ d => S (foldr (fun kv acc => Nat.max (depth (snd kv)) acc) 1 d)
  | _ => 1
  end.

(** [quiet s s']: between [s] and [s'] no registry changed and no
    instance was collected; only allocation went on. *)
Definition quiet (s s' : state) : Prop :=
  TOKENIZABLE_CLASS_REGISTRY s' = TOKENIZABLE_CLASS_REGISTRY s /\
  TOKENIZABLE_REGISTRY s' = TOKENIZABLE_REGISTRY s /\
  collected s' = collected s /\
  next_loc s <= next_loc s' /\
  next_oid s <= next_oid s'.

(** The two loops inside [deepcopy_from], by name. *)
Fixpoint deepcopy_list (n : nat) (l : list value) : list value * nat :=
  match l with
  | [] => ([], n)
  | x :: r =>
      let '(x', n1) := deepcopy_from n x in
      let '(r', n2) := deepcopy_list n1 r in (x' :: r', n2)
  end.

Fixpoint deepcopy_items (n : nat) (d : pydict) : pydict * nat :=
  match d with
  | [] => ([], n)
  | (k, x) :: r =>
      let '(x', n1) := deepcopy_from n x in
      let '(r', n2) := deepcopy_items n1 r in ((k, x') :: r', n2)
  end.

(** A value with every object identity forgotten. *)
Fixpoint erase (v : value) : value :=
  match v with
  | VList l => VList (map erase l)
  | VDict d => VDict (map (fun kv => (fst kv, erase (snd kv))) d)
  | VEnt _ cls attrs => VEnt 0 cls (map (fun kv => (fst kv, erase (snd kv))) attrs)
  | _ => v
  end.

(** ** Default values

    [is_default defs kv]: the item [kv] of a dictionary form holds the
    declared default of its field.  [plain v]: [v] is a literal, built
    from scalars, lists and dictionaries with distinct keys. *)
Definition is_default (defs : pydict) (kv : string * value) : bool :=
  match dict_get (fst kv) defs with
  | Some dv => py_eq (snd kv) dv
  | None => false
  end.

Fixpoint distinct (l : list string) : bool :=
  match l with
  | [] => true
  | x :: r => negb (existsb (String.eqb x) r) && distinct r
  end.

Definition distinct_keys {A} (d : list (string * A)) : bool :=
  distinct (map fst d).

Fixpoint plain (v : value) : bool :=
  match v with
  | VList l => forallb plain l
  | VDict d => distinct_keys d && forallb (fun kv => plain (snd kv)) d
  | VEnt _ _ _ => false
  | _ => true
  end.

(** [wf_keys v]: the keys of every dictionary in [v], and the field
    names of every instance, are distinct (as they are in Python). *)
Fixpoint wf_keys (v : value) : bool :=
  match v with
  | VList l => forallb wf_keys l
  | VDict d => distinct_keys d && forallb (fun kv => wf_keys (snd kv)) d
  | VEnt _ _ d => distinct_keys d && forallb (fun kv => wf_keys (snd kv)) d
  | _ => true
  end.

Fixpoint entity_free (v : value) : bool :=
  match v with
  | VList l => forallb entity_free l
  | VDict d => forallb (fun kv => entity_free (snd kv)) d
  | VEnt _ _ _ => false
  | _ => true
  end.

(** ** Direct dependencies

    [deps v]: the instances met when walking [v] through lists and
    dictionaries, without entering any instance.  [untagged v]: no
    dictionary on the way carries both type tags (it would be taken for
    an encoded instance when decoding). *)
Fixpoint deps (v : value) : list value :=
  match v with
  | VList l => flat_map deps l
  | VDict d => flat_map (fun kv => deps (snd kv)) d
  | VEnt _ _ _ => [v]
  | _ => []
  end.

Fixpoint untagged (v : value) : bool :=
  match v with
  | VList l => forallb untagged l
  | VDict d =>
      negb (dict_mem "__qualname__" d && dict_mem "__module__" d) &&
      forallb (fun kv => untagged (snd kv)) d
  | _ => true
  end.

(** ** Keys, as functions *)

Section Pure.

Variable CLASSES : gmap cname (list (string * option value)).
Variable py_str_item : string * value -> string.
Variable py_str_items : list (string * value) -> string.
Variable md5_hexdigest : string -> string.

(** The items of [self.to_dict(include_defaults=False)]. *)
Definition stripped_items (self : value) : res pydict :=
  match encode self with
  | VDict items => strip_defaults (defaults CLASSES self) items
  | _ => Raise (TypeError "to_dict")
  end.

(** The value of [tokenize(self)]. *)
Definition token_of (self : value) : res string :=
  match stripped_items self with
  | Ok items => Ok (md5_hexdigest (py_str_items (sorted py_str_item items)))
  | Raise e => Raise e
  end.

(** The value of [self.key]. *)
Definition key_of (self : value) : res string :=
  match self with
  | VEnt _ cls _ =>
      match token_of self with
      | Ok token => Ok (snd cls ++ "-" ++ token)
      | Raise e => Raise e
      end
  | _ => Raise (TypeError "key")
  end.

(** [shaped v]: [v] is an instance of a known class and has exactly the
    fields of its class, none of them named like a type tag. *)
Definition shaped (v : value) : Prop :=
  match v with
  | VEnt _ cls attrs =>
      exists sg,
        CLASSES !! cls = Some sg /\
        map fst attrs = map fst sg /\
        List.NoDup (map fst sg) /\
        ~ In "__module__" (map fst sg) /\
        ~ In "__qualname__" (map fst sg)
  | _ => False
  end.

(** [exact_registry S s]: a live instance that the registry of [s]
    holds under the key of a member of [S] is an instance with the same
    dictionary form as that member.  [exact_among S]: members of [S]
    with the same key have the same dictionary form. *)
Definition exact_registry (S : list value) (s : state) : Prop :=
  forall b k v,
    In b S -> key_of b = Ok k ->
    TOKENIZABLE_REGISTRY s !! k = Some v -> alive s v = true ->
    is_gufe_obj v = true /\ encode v = encode b.

Definition exact_among (S : list value) : Prop :=
  forall b1 b2, In b1 S -> In b2 S -> key_of b1 = key_of b2 ->
                encode b1 = encode b2.

(** What decoding keeps true of the state: the class registry and the
    set of collected instances stay as they were in [s0], and the
    registry stays exact for [S]. *)
Definition decode_inv (S : list value) (s0 s : state) : Prop :=
  TOKENIZABLE_CLASS_REGISTRY s = TOKENIZABLE_CLASS_REGISTRY s0 /\
  collected s = collected s0 /\
  exact_registry S s.

(** What the registry hands back for key [k] when [obj] has just
    registered itself: the live instance registered before, else [obj]. *)
Definition lookup_live (s : state) (k : string) (obj : value) : value :=
  match TOKENIZABLE_REGISTRY s !! k with
  | Some v => if alive s v then (if is_None v then obj else v) else obj
  | None => obj
  end.

(** What the walk of [key_encode_dependencies] computes below the root:
    every instance met is replaced by the reference record of its key.
    [keyable v]: the key of each of these instances can be computed. *)
Fixpoint key_encode (v : value) : value :=
  match v with
  | VList l => VList (map key_encode l)
  | VDict d => VDict (map (fun kv => (fst kv, key_encode (snd kv))) d)
  | VEnt _ _ _ =>
      match key_of v with
      | Ok k => GufeKey_to_dict k
      | Raise _ => VNone
      end
  | _ => v
  end.

Fixpoint keyable (v : value) : bool :=
  match v with
  | VList l => forallb keyable l
  | VDict d => forallb (fun kv => keyable (snd kv)) d
  | VEnt _ _ _ => match key_of v with Ok _ => true | Raise _ => false end
  | _ => true
  end.

End Pure.

(** The state after [TOKENIZABLE_REGISTRY.setdefault(k, weakref.ref(v))]. *)
Definition registered (k : string) (v : value) (s : state) : state :=
  snd (registry_setdefault k v s).

(** [calm s s']: as [quiet], but instances may have registered
    themselves in [TOKENIZABLE_REGISTRY]. *)
Definition calm (s s' : state) : Prop :=
  TOKENIZABLE_CLASS_REGISTRY s' = TOKENIZABLE_CLASS_REGISTRY s /\
  collected s' = collected s /\
  next_loc s <= next_loc s' /\
  next_oid s <= next_oid s'.

(** ** Malformed records

    [tags_missing items]: one of the two type tags is absent from the
    dictionary, or is [None]. *)
Definition tags_missing (items : pydict) : bool :=
  match dict_get "__module__" items, dict_get "__qualname__" items with
  | Some m, Some q => is_None q || is_None m
  | _, _ => true
  end.

Definition is_KeyError {A} (r : res A) : bool :=
  match r with
  | Raise (KeyError _) => true
  | _ => false
  end.

(** ** Reference records

    [unkeyed v]: no dictionary met when walking [v] through lists and
    dictionaries has the key [":gufe-key:"] (it would be taken for a
    reference record when decoding). *)
Fixpoint unkeyed (v : value) : bool :=
  match v with
  | VList l => forallb unkeyed l
  | VDict d =>
      negb (dict_mem ":gufe-key:" d) &&
      forallb (fun kv => unkeyed (snd kv)) d
  | _ => true
  end.

(** [held s b]: the registry of [s] holds, under the key of [b], an
    instance that is alive and has the dictionary form of [b]. *)
Definition held (CLASSES : gmap cname (list (string * option value)))
    (py_str_item : string * value -> string)
    (py_str_items : list (string * value) -> string)
    (md5_hexdigest : string -> string) (s : state) (b : value) : Prop :=
  exists k v,
    key_of CLASSES py_str_item py_str_items md5_hexdigest b = Ok k /\
    TOKENIZABLE_REGISTRY s !! k = Some v /\
    alive s v = true /\ is_gufe_obj v = true /\ encode v = encode b.

(** ** What a computation leaves in the registries

    [extends s s']: every entry of the class registry and of the
    instance registry of [s] is still there in [s'], with the same
    value, and no instance was collected in between.  [lasting m]:
    running [m], to its result or to an exception, only extends. *)
Definition extends (s s' : state) : Prop :=
  (forall k c, TOKENIZABLE_CLASS_REGISTRY s !! k = Some c ->
               TOKENIZABLE_CLASS_REGISTRY s' !! k = Some c) /\
  (forall k v, TOKENIZABLE_REGISTRY s !! k = Some v ->
               TOKENIZABLE_REGISTRY s' !! k = Some v) /\
  collected s' = collected s.

Definition lasting {A} (m : M A) : Prop :=
  forall s, extends s (snd (m s)).

(** [adds_copies s s']: as [calm], and every entry that the instance
    registry of [s'] has and that of [s] has not is an instance created
    since [s]. *)
Definition adds_copies (s s' : state) : Prop :=
  calm s s' /\
  forall k v, TOKENIZABLE_REGISTRY s' !! k = Some v ->
    TOKENIZABLE_REGISTRY s !! k = Some v \/
    exists o c d, v = VEnt o c d /\ next_oid s <= o.

(** ** A small program to run the model on

    Three classes in module [m]: [Inner(x=0)], [Outer(child)] and
    [Point(x=0, y)]; a class [modA.OldName(y)] renamed to
    [modB.NewName(y)].  [repr] prints values as Python does; the digest
    is the identity, an MD5 without collisions. *)

Module Demo.

Fixpoint repr (v : value) : string :=
  match v with
  | VNone => "None"
  | VBool true => "True"
  | VBool false => "False"
  | VInt z => NilZero.string_of_int (Z.to_int z)
  | VStr s => "'" ++ s ++ "'"
  | VList l =>
      "[" ++ (fix go (l : list value) : string :=
                match l with
                | [] => ""
                | [x] => repr x
                | x :: r => repr x ++ ", " ++ go r
                end) l ++ "]"
  | VDict d =>
      "{" ++ (fix go (d : pydict) : string :=
                match d with
                | [] => ""
                | [(k, x)] => "'" ++ k ++ "': " ++ repr x
                | (k, x) :: r => "'" ++ k ++ "': " ++ repr x ++ ", " ++ go r
                end) d ++ "}"
  | VEnt _ c _ => "<" ++ fst c ++ "." ++ snd c ++ " object>"
  end.

Definition repr_item (kv : string * value) : string :=
  "('" ++ fst kv ++ "', " ++ repr (snd kv) ++ ")".

Definition repr_items (l : pydict) : string :=
  "[" ++ String.concat ", " (map repr_item l) ++ "]".

Definition digest (s : string) : string := s.

Definition Inner : cname := ("m", "Inner").
Definition Outer : cname := ("m", "Outer").
Definition Point : cname := ("m", "Point").
Definition OldName : cname := ("modA", "OldName").
Definition NewName : cname := ("modB", "NewName").

Definition classes : gmap cname (list (string * option value)) :=
  list_to_map
    [ (Inner, [("x", Some (VInt 0))]);
      (Outer, [("child", None)]);
      (Point, [("x", Some (VInt 0)); ("y", None)]);
      (NewName, [("y", None)]) ].

(** The same program before the rename: [modA.OldName] still exists. *)
Definition classes_both : gmap cname (list (string * option value)) :=
  <[OldName := [("y", None)]]> classes.

Definition no_remap : gmap cname cname := ∅.
Definition remap : gmap cname cname := {[ OldName := NewName ]}.

(** Every class of [m] has been defined (and so registered by the
    metaclass); nothing else has happened yet. *)
Definition start : state :=
  State (list_to_map [(Inner, Inner); (Outer, Outer); (Point, Point)])
        ∅ ∅ ∅ 0 10.

(** [modA.OldName] and [modB.NewName] are both defined. *)
Definition start_both : state :=
  State (list_to_map [(OldName, OldName); (NewName, NewName)]) ∅ ∅ ∅ 0 10.

(** A caller's dictionary [d], held at cell [0]. *)
Definition with_dict (d : value) (s : state) : state :=
  State (TOKENIZABLE_CLASS_REGISTRY s) (TOKENIZABLE_REGISTRY s) (collected s)
        (<[0 := d]> (store s)) 1 (next_oid s).

Definition tags (c : cname) : pydict :=
  [("__qualname__", VStr (snd c)); ("__module__", VStr (fst c))].

Definition inner_dict (x : value) : value := VDict (("x", x) :: tags Inner).
Definition outer_dict (child : value) : value :=
  VDict (("child", child) :: tags Outer).
Definition point_dict (x y : value) : value :=
  VDict (("x", x) :: ("y", y) :: tags Point).

Definition inner_key : string :=
  "Inner-[('__module__', 'm'), ('__qualname__', 'Inner')]".

Definition outer_key (child : string) : string :=
  "Outer-[('__module__', 'm'), ('__qualname__', 'Outer'), ('child', " ++
  child ++ ")]".

(** Instances made before the run: [Inner(x=0)] as object 0, and
    [Outer(child=Inner(x=0))], [Outer(child=[Inner(x=0), Inner(x=False)])]
    as objects 1, 2 and 3. *)
Definition inner_zero : value := VEnt 0 Inner [("x", VInt 0)].

Definition outer_zero : value :=
  VEnt 1 Outer [("child", VEnt 2 Inner [("x", VInt 0)])].

Definition outer_mixed : value :=
  VEnt 1 Outer
    [("child", VList [VEnt 2 Inner [("x", VInt 0)];
                      VEnt 3 Inner [("x", VBool false)]])].

(** [inner_zero] has computed its key, and so is registered; in
    [dead_inner] it has since lost its last owner. *)
Definition live_inner : state :=
  State (TOKENIZABLE_CLASS_REGISTRY start) {[ inner_key := inner_zero ]}
        ∅ ∅ 0 10.

Definition dead_inner : state :=
  State (TOKENIZABLE_CLASS_REGISTRY start) {[ inner_key := inner_zero ]}
        {[ 0 ]} ∅ 0 10.

Definition key_of_instance :=
  key classes repr_item repr_items digest.
Definition decode :=
  GufeTokenizable_from_dict classes no_remap repr_item repr_items digest.
Definition decode_keyed :=
  from_keyed_dict classes no_remap repr repr_item repr_items digest.

(** [from_dict(to_dict(e))]. *)
Definition decode_of_encode (fuel : nat) (e : value) : M value :=
  let* d := GufeTokenizable_to_dict classes fuel e true in
  let* l := alloc d in
  decode fuel l.

End Demo.

(** ** More of the small program

    A class [m.Opt(tag=None)] whose [_to_dict] exports nothing; a hash
    for strings and for integers. *)

Module Demo2.

Definition Opt : cname := ("m", "Opt").

Definition classes : gmap cname (list (string * option value)) :=
  <[Opt := [("tag", Some VNone)]]> Demo.classes.

Definition opt_bare : value := VEnt 4 Opt [].

Definition hash_str (s : string) : Z := Z.of_nat (String.length s).

Definition hash_value (v : value) : option Z :=
  match v with
  | VInt z => Some z
  | VBool b => Some (Z.b2z b)
  | VStr s => Some (hash_str s)
  | VNone => Some 0%Z
  | _ => None
  end.

Definition point (o : nat) (x y : Z) : value :=
  VEnt o Demo.Point [("x", VInt x); ("y", VInt y)].

(** The shallow round trip, [from_shallow_dict(e.to_shallow_dict())],
    and the keyed one, [from_keyed_dict(e.to_keyed_dict())]. *)
Definition shallow_there_and_back (fuel : nat) (e : value) : M value :=
  let* dct := to_shallow_dict e in
  let* l := alloc dct in
  from_shallow_dict Demo.classes Demo.no_remap Demo.repr_item Demo.repr_items
    Demo.digest fuel l.

Definition keyed_there_and_back (fuel : nat) (e : value) : M value :=
  let* dct := to_keyed_dict Demo.classes Demo.repr_item Demo.repr_items
                Demo.digest fuel e in
  let* l := alloc dct in
  Demo.decode_keyed fuel l.

End Demo2.

(** * Properties *)

Lemma frame_refl n s : frame n s s.
Proof. split; [lia | done]. Qed.

Lemma frame_trans n s1 s2 s3 : frame n s1 s2 -> frame n s2 s3 -> frame n s1 s3.
Proof.
  intros [H1 H2] [H3 H4]. split; [lia |].
  intros l Hl. rewrite H4, H2; done.
Qed.

Lemma keeps_ret {A} n (a : A) : keeps n (ret a).
Proof. intros s _. apply frame_refl. Qed.

Lemma keeps_raise {A} n e : keeps n (@raise A e).
Proof. intros s _. apply frame_refl. Qed.

Lemma keeps_bind {A B} n (m : M A) (k : A -> M B) :
  keeps n m -> (forall a, keeps n (k a)) -> keeps n (bind m k).
Proof.
  intros Hm Hk s Hs. unfold bind.
  specialize (Hm s Hs). destruct (m s) as [[a | e] s1]; simpl in *; [| done].
  eapply frame_trans; [exact Hm |]. apply Hk. destruct Hm. lia.
Qed.

Lemma keeps_except {A} n (m h : M A) :
  keeps n m -> keeps n h -> keeps n (except_KeyError m h).
Proof.
  intros Hm Hh s Hs. unfold except_KeyError.
  specialize (Hm s Hs). destruct (m s) as [[a | []] s1]; simpl in *; try done.
  eapply frame_trans; [exact Hm |]. apply Hh. destruct Hm. lia.
Qed.

Lemma keeps_mapM {A B} n (f : A -> M B) (l : list A) :
  (forall x, keeps n (f x)) -> keeps n (mapM f l).
Proof.
  intros Hf. induction l as [| x l IH]; simpl.
  - apply keeps_ret.
  - apply keeps_bind; [apply Hf |]. intros y.
    apply keeps_bind; [apply IH |]. intros ys. apply keeps_ret.
Qed.

Lemma keeps_load n l : keeps n (load l).
Proof.
  intros s _. unfold load. destruct (store s !! l); apply frame_refl.
Qed.

Lemma keeps_write n l v : n <= l -> keeps n (write l v).
Proof.
  intros Hl s _. split; simpl; [lia |].
  intros l' Hl'. apply lookup_insert_ne. lia.
Qed.

(** Allocation hands out a cell that is not among the first [n]. *)
Lemma keeps_alloc_bind {A} n v (k : nat -> M A) :
  (forall l, n <= l -> keeps n (k l)) -> keeps n (bind (alloc v) k).
Proof.
  intros Hk s Hs. unfold bind, alloc.
  eapply frame_trans; [| apply (Hk (next_loc s)); simpl; lia].
  split; simpl; [lia |]. intros l Hl. apply lookup_insert_ne. lia.
Qed.

Lemma keeps_pop n l k : n <= l -> keeps n (pop l k).
Proof.
  intros Hl. unfold pop. apply keeps_bind; [apply keeps_load |].
  intros [| | | | | items |]; try apply keeps_raise.
  destruct (dict_get k items); [| apply keeps_raise].
  apply keeps_bind; [by apply keeps_write |]. intros _. apply keeps_ret.
Qed.

Lemma keeps_fresh_oid n : keeps n fresh_oid.
Proof. intros s _. split; simpl; [lia | done]. Qed.

Lemma keeps_deepcopy n v : keeps n (deepcopy v).
Proof.
  intros s _. unfold deepcopy. destruct (deepcopy_from (next_oid s) v).
  split; simpl; [lia | done].
Qed.

Lemma keeps_registry_deref n k : keeps n (registry_deref k).
Proof.
  intros s _. unfold registry_deref.
  destruct (TOKENIZABLE_REGISTRY s !! k); apply frame_refl.
Qed.

Lemma keeps_registry_setdefault n k v : keeps n (registry_setdefault k v).
Proof.
  intros s _. unfold registry_setdefault. simpl.
  destruct (TOKENIZABLE_REGISTRY s !! k); split; simpl; (lia || done).
Qed.

Create HintDb keeps.
#[local] Hint Resolve keeps_ret keeps_raise keeps_load keeps_fresh_oid
  keeps_deepcopy keeps_registry_deref keeps_registry_setdefault : keeps.

(** ** Running a computation step by step *)

Lemma bind_ok {A B} (m : M A) (k : A -> M B) s a s1 :
  m s = (Ok a, s1) -> bind m k s = k a s1.
Proof. intros H. unfold bind. by rewrite H. Qed.

Lemma bind_raise {A B} (m : M A) (k : A -> M B) s e s1 :
  m s = (Raise e, s1) -> bind m k s = (Raise e, s1).
Proof. intros H. unfold bind. by rewrite H. Qed.

Lemma load_ok s l v : store s !! l = Some v -> load l s = (Ok v, s).
Proof. intros H. unfold load. by rewrite H. Qed.

Lemma pop_ok s l k items v :
  store s !! l = Some (VDict items) ->
  dict_get k items = Some v ->
  pop l k s =
    (Ok v, State (TOKENIZABLE_CLASS_REGISTRY s) (TOKENIZABLE_REGISTRY s)
                 (collected s) (<[l := VDict (dict_remove k items)]> (store s))
                 (next_loc s) (next_oid s)).
Proof.
  intros Hs Hk. unfold pop. rewrite (bind_ok _ _ _ _ _ (load_ok _ _ _ Hs)).
  by rewrite Hk.
Qed.

Lemma pop_missing s l k items :
  store s !! l = Some (VDict items) ->
  dict_get k items = None ->
  pop l k s = (Raise (KeyError k), s).
Proof.
  intros Hs Hk. unfold pop. rewrite (bind_ok _ _ _ _ _ (load_ok _ _ _ Hs)).
  by rewrite Hk.
Qed.

Section FrameProperties.

Variable CLASSES : gmap cname (list (string * option value)).
Variable REMAPPED_CLASSES : gmap cname cname.
Variable py_str : value -> string.
Variable py_str_item : string * value -> string.
Variable py_str_items : list (string * value) -> string.
Variable md5_hexdigest : string -> string.

Local Abbreviation key := (key CLASSES py_str_item py_str_items md5_hexdigest).
Local Abbreviation from_dict :=
  (from_dict CLASSES REMAPPED_CLASSES py_str_item py_str_items md5_hexdigest).
Local Abbreviation _from_dict := (_from_dict CLASSES REMAPPED_CLASSES).
Local Abbreviation dict_decode_dependencies :=
  (dict_decode_dependencies CLASSES REMAPPED_CLASSES py_str_item
     py_str_items md5_hexdigest).
Local Abbreviation key_decode_dependencies :=
  (key_decode_dependencies CLASSES REMAPPED_CLASSES py_str py_str_item
     py_str_items md5_hexdigest).
Local Abbreviation key_encode_dependencies :=
  (key_encode_dependencies CLASSES py_str_item py_str_items md5_hexdigest).

Lemma keeps_get_class n m q : keeps n (get_class CLASSES REMAPPED_CLASSES m q).
Proof.
  unfold get_class. apply keeps_except.
  - intros s _. unfold class_registry_get.
    destruct (_ !! _); apply frame_refl.
  - apply keeps_bind.
    + unfold import_qualname. destruct (CLASSES !! _); auto with keeps.
    + intros c. apply keeps_bind; [| auto with keeps].
      intros s _. split; simpl; [lia | done].
Qed.

Lemma keeps_cls_from_dict n c d : keeps n (cls_from_dict CLASSES c d).
Proof.
  unfold cls_from_dict. destruct d; auto with keeps.
  destruct (forallb _ _); auto with keeps.
  destruct (bind_params _ _); auto with keeps.
  apply keeps_bind; auto with keeps.
Qed.

Lemma keeps_to_dict n o : keeps n (to_dict o).
Proof. unfold to_dict. destruct o; auto with keeps. Qed.

(** The walker writes to no cell that existed before the call, whatever
    the modifier does to the copy it is handed (and to cells it
    allocates itself). *)
Lemma keeps_modify_dependencies n fuel modifier is_mine :
  (forall l, n <= l -> keeps n (modifier l)) ->
  forall top obj, keeps n (modify_dependencies fuel modifier is_mine top obj).
Proof.
  intros Hmod. induction fuel as [| fuel IH]; intros top obj; simpl.
  - apply keeps_raise.
  - apply keeps_bind; [apply keeps_deepcopy |]. intros obj1.
    apply keeps_bind.
    + destruct (is_mine obj1 && negb top); [| apply keeps_ret].
      apply keeps_alloc_bind. exact Hmod.
    + intros obj2. destruct obj2; auto with keeps.
      * apply keeps_bind; [| auto with keeps]. apply keeps_mapM. apply IH.
      * apply keeps_bind; [| auto with keeps]. apply keeps_mapM.
        intros kv. apply keeps_bind; [apply IH | auto with keeps].
Qed.

Lemma keeps_dict_encode_dependencies n fuel obj :
  keeps n (dict_encode_dependencies fuel obj).
Proof.
  unfold dict_encode_dependencies, to_shallow_dict.
  apply keeps_bind; [apply keeps_to_dict |]. intros sh.
  apply keeps_modify_dependencies. intros l _.
  apply keeps_bind; [apply keeps_load | apply keeps_to_dict].
Qed.

Lemma keeps_GufeTokenizable_to_dict n fuel self b :
  keeps n (GufeTokenizable_to_dict CLASSES fuel self b).
Proof.
  unfold GufeTokenizable_to_dict.
  apply keeps_bind; [apply keeps_dict_encode_dependencies |]. intros d.
  destruct b; auto with keeps. destruct d; auto with keeps.
  destruct (strip_defaults _ _); auto with keeps.
Qed.

Lemma keeps_key n fuel self : keeps n (key fuel self).
Proof.
  unfold key. destruct self; auto with keeps.
  apply keeps_bind.
  - unfold tokenize. apply keeps_bind; [| auto with keeps].
    unfold normalize_object, _gufe_tokenize.
    apply keeps_bind; [apply keeps_GufeTokenizable_to_dict |].
    intros d. destruct d; auto with keeps.
  - intros tok. apply keeps_bind; auto with keeps.
Qed.

Lemma keeps_resolve n dct (m q : value) :
  keeps n
    (if is_None q || is_None m then
       raise (KeyError "`__qualname__` or `__module__` key not found; unable to reconstitute from dict")
     else
       match m, q with
       | VStr m, VStr q =>
           let* cls := get_class CLASSES REMAPPED_CLASSES m q in
           let* d := load dct in
           cls_from_dict CLASSES cls d
       | _, _ => raise (TypeError "import_module")
       end).
Proof.
  destruct (is_None q || is_None m); [apply keeps_raise |].
  destruct m; auto with keeps. destruct q; auto with keeps.
  apply keeps_bind; [apply keeps_get_class |]. intros c.
  apply keeps_bind; [apply keeps_load | intros d; apply keeps_cls_from_dict].
Qed.

Lemma keeps__from_dict n dct : n <= dct -> keeps n (_from_dict dct).
Proof.
  intros Hd. unfold _from_dict.
  apply keeps_bind; [by apply keeps_pop |]. intros m.
  apply keeps_bind; [by apply keeps_pop |]. intros q.
  apply keeps_resolve.
Qed.

Lemma keeps_key_then_deref n fuel obj :
  keeps n (except_KeyError
             (let* k := key fuel obj in
              let* thing := registry_deref k in
              if is_None thing then ret obj else ret thing)
             (ret obj)).
Proof.
  apply keeps_except; [| apply keeps_ret].
  apply keeps_bind; [apply keeps_key |]. intros k.
  apply keeps_bind; [apply keeps_registry_deref |]. intros t.
  destruct (is_None t); apply keeps_ret.
Qed.

Lemma keeps_from_dict n fuel dct : n <= dct -> keeps n (from_dict fuel dct).
Proof.
  intros Hd. unfold from_dict.
  apply keeps_bind; [by apply keeps__from_dict |]. intros obj.
  apply keeps_key_then_deref.
Qed.

Lemma keeps_dict_decode_dependencies n fuel dct :
  keeps n (dict_decode_dependencies fuel dct).
Proof.
  unfold dict_decode_dependencies.
  apply keeps_bind; [apply keeps_load |]. intros d.
  apply keeps_bind.
  - apply keeps_modify_dependencies. intros l Hl. by apply keeps_from_dict.
  - intros d'. apply keeps_alloc_bind. intros l Hl. by apply keeps_from_dict.
Qed.

Lemma keeps_key_decode_dependencies n fuel dct :
  keeps n (key_decode_dependencies fuel dct).
Proof.
  unfold key_decode_dependencies.
  apply keeps_bind; [apply keeps_load |]. intros d.
  apply keeps_bind.
  - apply keeps_modify_dependencies. intros l Hl.
    apply keeps_bind; [apply keeps_load |]. intros d0.
    destruct d0; auto with keeps.
    destruct (dict_get _ _) as [[]|]; auto with keeps.
  - intros d'. apply keeps_alloc_bind. intros l Hl. by apply keeps_from_dict.
Qed.

Lemma keeps_key_encode_dependencies n fuel obj :
  keeps n (key_encode_dependencies fuel obj).
Proof.
  unfold key_encode_dependencies, to_shallow_dict.
  apply keeps_bind; [apply keeps_to_dict |]. intros sh.
  apply keeps_modify_dependencies. intros l _.
  apply keeps_bind; [apply keeps_load |]. intros o.
  apply keeps_bind; [apply keeps_key | auto with keeps].
Qed.

End FrameProperties.

(** ** Dictionary lemmas *)

Lemma dict_get_remove_ne {A} (k k' : string) (d : list (string * A)) :
  k <> k' -> dict_get k (dict_remove k' d) = dict_get k d.
Proof.
  intros Hne. induction d as [| [k0 v] d IH]; simpl; [done |].
  destruct (String.eqb_spec k' k0) as [-> | Hk'].
  - destruct (String.eqb_spec k k0); [congruence | done].
  - simpl. destruct (String.eqb_spec k k0); [done | exact IH].
Qed.

Lemma dict_get_None_notin {A} (k : string) (d : list (string * A)) :
  dict_get k d = None <-> ~ In k (map fst d).
Proof.
  induction d as [| [k0 v] d IH]; simpl; [tauto |].
  destruct (String.eqb_spec k k0) as [-> | Hk].
  - split; [done | intros H; exfalso; apply H; by left].
  - rewrite IH. split; [intros H [E | E]; [congruence | tauto] | tauto].
Qed.

Lemma dict_get_remove_eq {A} (k : string) (d : list (string * A)) :
  List.NoDup (map fst d) -> dict_get k (dict_remove k d) = None.
Proof.
  induction d as [| [k0 v] d IH]; simpl; [done |].
  intros Hnd. apply List.NoDup_cons_iff in Hnd as [Hnotin Hnd].
  destruct (String.eqb_spec k k0) as [-> | Hk].
  - by apply dict_get_None_notin.
  - simpl. destruct (String.eqb_spec k k0); [congruence | by apply IH].
Qed.

Lemma dict_remove_absent {A} (k : string) (d : list (string * A)) :
  dict_get k d = None -> dict_remove k d = d.
Proof.
  induction d as [| [k0 v] d IH]; simpl; [done |].
  destruct (String.eqb_spec k k0); [done |].
  intros H. by rewrite IH.
Qed.

Lemma dict_mem_false {A} (k : string) (d : list (string * A)) :
  dict_mem k d = false <-> dict_get k d = None.
Proof. unfold dict_mem. destruct (dict_get k d); split; congruence. Qed.

Lemma dict_mem_true {A} (k : string) (d : list (string * A)) :
  dict_mem k d = true <-> exists v, dict_get k d = Some v.
Proof.
  unfold dict_mem. destruct (dict_get k d) as [v |]; split;
    try congruence; eauto. intros [v' H]. congruence.
Qed.

Lemma in_dict_remove {A} (k k' : string) (d : list (string * A)) :
  In k (map fst (dict_remove k' d)) -> In k (map fst d).
Proof.
  induction d as [| [k0 v] d IH]; simpl; [done |].
  destruct (String.eqb k' k0); simpl; [by right |].
  intros [? | ?]; [by left | right; by apply IH].
Qed.

Lemma NoDup_dict_remove {A} (k : string) (d : list (string * A)) :
  List.NoDup (map fst d) -> List.NoDup (map fst (dict_remove k d)).
Proof.
  induction d as [| [k0 v] d IH]; simpl; [done |].
  intros Hnd. apply List.NoDup_cons_iff in Hnd as [Hn Hnd].
  destruct (String.eqb k k0); simpl; [done |].
  constructor; [| by apply IH].
  intros Hin. apply Hn. by eapply in_dict_remove.
Qed.

Lemma dict_get_set_eq {A} (k : string) (v : A) (d : list (string * A)) :
  dict_get k (dict_set k v d) = Some v.
Proof.
  induction d as [| [k0 v0] d IH]; simpl.
  - by rewrite String.eqb_refl.
  - destruct (String.eqb_spec k k0) as [-> | Hk]; simpl.
    + by rewrite String.eqb_refl.
    + destruct (String.eqb_spec k k0); [done | exact IH].
Qed.

Lemma dict_get_set_ne {A} (k k' : string) (v : A) (d : list (string * A)) :
  k <> k' -> dict_get k (dict_set k' v d) = dict_get k d.
Proof.
  intros Hne. induction d as [| [k0 v0] d IH]; simpl.
  - destruct (String.eqb_spec k k'); [done | done].
  - destruct (String.eqb_spec k' k0) as [-> | Hk]; simpl.
    + destruct (String.eqb_spec k k0); [done | done].
    + destruct (String.eqb_spec k k0); [done | exact IH].
Qed.

Lemma dict_get_map (f : value -> value) (k : string) (d : pydict) :
  dict_get k (map (fun kv => (fst kv, f (snd kv))) d) =
    option_map f (dict_get k d).
Proof.
  induction d as [| [k0 v0] d IH]; simpl; [done |].
  destruct (String.eqb k k0); [done | exact IH].
Qed.

Lemma dict_get_update_tags (d : pydict) (q m : value) :
  dict_get "__qualname__"
    (dict_update d [("__qualname__", q); ("__module__", m)]) = Some q /\
  dict_get "__module__"
    (dict_update d [("__qualname__", q); ("__module__", m)]) = Some m.
Proof.
  unfold dict_update. simpl. split.
  - rewrite dict_get_set_ne by done. apply dict_get_set_eq.
  - apply dict_get_set_eq.
Qed.

(** ** Deep copies *)

Lemma deepcopy_from_list n l :
  deepcopy_from n (VList l) =
    (VList (fst (deepcopy_list n l)), snd (deepcopy_list n l)).
Proof.
  change (deepcopy_from n (VList l))
    with (let '(l', n') := deepcopy_list n l in (VList l', n')).
  by destruct (deepcopy_list n l).
Qed.

Lemma deepcopy_from_dict n d :
  deepcopy_from n (VDict d) =
    (VDict (fst (deepcopy_items n d)), snd (deepcopy_items n d)).
Proof.
  change (deepcopy_from n (VDict d))
    with (let '(d', n') := deepcopy_items n d in (VDict d', n')).
  by destruct (deepcopy_items n d).
Qed.

Lemma deepcopy_from_ent n o c d :
  deepcopy_from n (VEnt o c d) =
    (VEnt n c (fst (deepcopy_items (S n) d)), snd (deepcopy_items (S n) d)).
Proof.
  change (deepcopy_from n (VEnt o c d))
    with (let '(d', n') := deepcopy_items (S n) d in (VEnt n c d', n')).
  by destruct (deepcopy_items (S n) d).
Qed.

Lemma deepcopy_items_spec d :
  Forall (fun kv => forall n,
            erase (fst (deepcopy_from n (snd kv))) = erase (snd kv) /\
            n <= snd (deepcopy_from n (snd kv))) d ->
  forall n,
    map (fun kv => (fst kv, erase (snd kv))) (fst (deepcopy_items n d)) =
      map (fun kv => (fst kv, erase (snd kv))) d /\
    n <= snd (deepcopy_items n d).
Proof.
  induction 1 as [| [k x] d Hx Hd IH]; intros n; simpl; [done |].
  destruct (Hx n) as [E1 L1]. simpl in *.
  destruct (deepcopy_from n x) as [x' n1]. simpl in *.
  destruct (IH n1) as [E2 L2].
  destruct (deepcopy_items n1 d) as [d' n2]. simpl in *.
  split; [by rewrite E1, E2 | lia].
Qed.

Lemma deepcopy_from_spec v n :
  erase (fst (deepcopy_from n v)) = erase v /\ n <= snd (deepcopy_from n v).
Proof.
  revert n. induction v as [| | | | l IH | d IH | o c d IH] using value_ind';
    intros n; try done.
  - rewrite deepcopy_from_list. simpl.
    revert n. induction IH as [| x l Hx Hl IHl]; intros n; simpl; [done |].
    destruct (Hx n) as [E1 L1].
    destruct (deepcopy_from n x) as [x' n1]. simpl in *.
    destruct (IHl n1) as [E2 L2].
    destruct (deepcopy_list n1 l) as [l' n2]. simpl in *.
    split; [| lia]. injection E2 as E2. by rewrite E1, E2.
  - rewrite deepcopy_from_dict. simpl.
    destruct (deepcopy_items_spec d IH n) as [E L]. by rewrite E.
  - rewrite deepcopy_from_ent. simpl.
    destruct (deepcopy_items_spec d IH (S n)) as [E L].
    split; [by rewrite E | lia].
Qed.

Lemma encode_erase v : encode (erase v) = encode v.
Proof.
  induction v as [| | | | l IH | d IH | o c d IH] using value_ind'; try done;
    cbn [erase encode]; rewrite map_map.
  - f_equal. apply map_ext_in. intros x Hx.
    rewrite List.Forall_forall in IH. by apply IH.
  - f_equal. apply map_ext_in. intros x Hx. simpl.
    rewrite List.Forall_forall in IH. by rewrite IH.
  - do 2 f_equal. apply map_ext_in. intros x Hx. simpl.
    rewrite List.Forall_forall in IH. by rewrite IH.
Qed.

Lemma depth_erase v : depth (erase v) = depth v.
Proof.
  induction v as [| | | | l IH | d IH | o c d IH] using value_ind'; try done;
    simpl; f_equal.
  - induction IH as [| x l Hx Hl IHl]; simpl; [done |]. by rewrite Hx, IHl.
  - induction IH as [| x l Hx Hl IHl]; simpl; [done |]. by rewrite Hx, IHl.
  - induction IH as [| x l Hx Hl IHl]; simpl; [done |]. by rewrite Hx, IHl.
Qed.

Lemma erase_encode v v' : erase v' = erase v -> encode v' = encode v.
Proof. intros H. by rewrite <- (encode_erase v'), H, encode_erase. Qed.

Lemma erase_depth v v' : erase v' = erase v -> depth v' = depth v.
Proof. intros H. by rewrite <- (depth_erase v'), H, depth_erase. Qed.

Lemma depth_list_in x l : In x l -> depth x < depth (VList l).
Proof.
  simpl. induction l as [| y l IH]; simpl; [done |].
  intros [-> | H]; [lia |]. specialize (IH H). lia.
Qed.

Lemma depth_dict_in kv d : In kv d -> depth (snd kv) < depth (VDict d).
Proof.
  simpl. induction d as [| y d IH]; simpl; [done |].
  intros [-> | H]; [lia |]. specialize (IH H). lia.
Qed.

Lemma depth_ent_in o c kv d : In kv d -> depth (snd kv) < depth (VEnt o c d).
Proof.
  simpl. induction d as [| y d IH]; simpl; [done |].
  intros [-> | H]; [lia |]. specialize (IH H). lia.
Qed.

Lemma depth_ent_ge o c d : 2 <= depth (VEnt o c d).
Proof. simpl. induction d as [| y d IH]; simpl; lia. Qed.

(** ** Dictionaries under a map on the values *)

Lemma dict_set_map (f : value -> value) k v (d : pydict) :
  map (fun kv => (fst kv, f (snd kv))) (dict_set k v d) =
  dict_set k (f v) (map (fun kv => (fst kv, f (snd kv))) d).
Proof.
  induction d as [| [k0 v0] d IH]; simpl; [done |].
  destruct (String.eqb k k0); simpl; [done | by rewrite IH].
Qed.

Lemma dict_update_map (f : value -> value) (d e : pydict) :
  map (fun kv => (fst kv, f (snd kv))) (dict_update d e) =
  dict_update (map (fun kv => (fst kv, f (snd kv))) d)
              (map (fun kv => (fst kv, f (snd kv))) e).
Proof.
  unfold dict_update. revert d.
  induction e as [| [k v] e IH]; intros d; simpl; [done |].
  by rewrite IH, dict_set_map.
Qed.

Lemma in_dict_set {A} k (v : A) d kv :
  In kv (dict_set k v d) -> In kv d \/ kv = (k, v).
Proof.
  induction d as [| [k0 v0] d IH]; simpl.
  - intros [<- | []]. by right.
  - destruct (String.eqb_spec k k0) as [-> | Hk]; simpl.
    + intros [<- | H]; [by right | left; by right].
    + intros [<- | H]; [left; by left |].
      destruct (IH H); [left; by right | by right].
Qed.

Lemma in_dict_update {A} (d e : list (string * A)) kv :
  In kv (dict_update d e) -> In kv d \/ In kv e.
Proof.
  unfold dict_update. revert d.
  induction e as [| [k v] e IH]; intros d; simpl; [by left |].
  intros H. destruct (IH _ H) as [H1 | H1]; [| right; by right].
  destruct (in_dict_set _ _ _ _ H1) as [? | ->]; [by left | right; by left].
Qed.

Lemma erase_ent_inv v o c d :
  erase v = erase (VEnt o c d) -> exists o1 d1, v = VEnt o1 c d1.
Proof. destruct v; simpl; try discriminate. intros [= -> _]. eauto. Qed.

Lemma erase_scalar_inv v v0 :
  erase v = erase v0 ->
  match v0 with
  | VList _ | VDict _ | VEnt _ _ _ => True
  | _ => v = v0
  end.
Proof. destruct v0; try done; destruct v; simpl; congruence. Qed.


(** ** Quiet computations *)

Lemma quiet_refl s : quiet s s.
Proof. unfold quiet. repeat split; lia. Qed.

Lemma quiet_trans s1 s2 s3 : quiet s1 s2 -> quiet s2 s3 -> quiet s1 s3.
Proof.
  unfold quiet. intros (A1 & A2 & A3 & A4 & A5) (B1 & B2 & B3 & B4 & B5).
  repeat split; try congruence; lia.
Qed.

Lemma deepcopy_run v s :
  exists v1 s1, deepcopy v s = (Ok v1, s1) /\ erase v1 = erase v /\ quiet s s1.
Proof.
  unfold deepcopy. destruct (deepcopy_from_spec v (next_oid s)) as [E L].
  destruct (deepcopy_from (next_oid s) v) as [v1 n1]. simpl in *.
  eexists _, _. split; [reflexivity |]. split; [done |].
  unfold quiet. simpl. repeat split; lia.
Qed.

Lemma alloc_load_run {A} v (k : value -> M A) s :
  bind (alloc v) (fun l => bind (load l) k) s =
    k v (State (TOKENIZABLE_CLASS_REGISTRY s) (TOKENIZABLE_REGISTRY s)
               (collected s) (<[next_loc s := v]> (store s))
               (S (next_loc s)) (next_oid s)).
Proof.
  unfold bind at 1, alloc. unfold bind, load. simpl.
  by rewrite lookup_insert_eq.
Qed.

Lemma alloc_load_run_bind {A B} v (k : value -> M A) (k' : A -> M B) s :
  bind (bind (alloc v) (fun l => bind (load l) k)) k' s =
    bind (k v) k'
      (State (TOKENIZABLE_CLASS_REGISTRY s) (TOKENIZABLE_REGISTRY s)
             (collected s) (<[next_loc s := v]> (store s))
             (S (next_loc s)) (next_oid s)).
Proof.
  unfold bind at 1. rewrite alloc_load_run. reflexivity.
Qed.

Lemma quiet_alloc v s :
  quiet s (State (TOKENIZABLE_CLASS_REGISTRY s) (TOKENIZABLE_REGISTRY s)
                 (collected s) (<[next_loc s := v]> (store s))
                 (S (next_loc s)) (next_oid s)).
Proof. unfold quiet. simpl. repeat split; lia. Qed.

Lemma mapM_inv {A B} (f : A -> M B) (I : state -> Prop) (Q : A -> B -> Prop)
    (l : list A) :
  (forall x, In x l -> forall s, I s ->
     exists y s', f x s = (Ok y, s') /\ Q x y /\ I s') ->
  forall s, I s ->
    exists ys s', mapM f l s = (Ok ys, s') /\ Forall2 Q l ys /\ I s'.
Proof.
  induction l as [| x l IH]; intros Hf s Hs; simpl.
  - exists [], s. repeat split; [constructor | done].
  - destruct (Hf x (or_introl eq_refl) s Hs) as (y & s1 & E1 & Q1 & I1).
    destruct (IH (fun x' Hx' => Hf x' (or_intror Hx')) s1 I1)
      as (ys & s2 & E2 & Q2 & I2).
    exists (y :: ys), s2. rewrite (bind_ok _ _ _ _ _ E1).
    rewrite (bind_ok _ _ _ _ _ E2). repeat split; [by constructor | done].
Qed.

Lemma Forall2_eq_map {A B} (g : A -> B) l ys :
  Forall2 (fun x y => y = g x) l ys -> ys = map g l.
Proof. induction 1; simpl; congruence. Qed.

(** A pure walk over a list or over the values of a dictionary. *)
Lemma walk_list_run (quiet : state -> state -> Prop)
    (walk : value -> M value) (g : value -> value) l s :
  quiet s s ->
  (forall x, In x l -> forall s1, quiet s s1 ->
     exists s2, walk x s1 = (Ok (g x), s2) /\ quiet s s2) ->
  exists s', mapM walk l s = (Ok (map g l), s') /\ quiet s s'.
Proof.
  intros Hrefl H.
  destruct (mapM_inv walk (quiet s) (fun x y => y = g x) l) with (s := s)
    as (ys & s' & E & Hys & Hq).
  - intros x Hx s1 Hs1. destruct (H x Hx s1 Hs1) as (s2 & E2 & Q2).
    by exists (g x), s2.
  - exact Hrefl.
  - exists s'. by rewrite <- (Forall2_eq_map _ _ _ Hys).
Qed.

Lemma walk_items_run (quiet : state -> state -> Prop)
    (walk : value -> M value) (g : value -> value) (d : pydict) s :
  quiet s s ->
  (forall kv, In kv d -> forall s1, quiet s s1 ->
     exists s2, walk (snd kv) s1 = (Ok (g (snd kv)), s2) /\ quiet s s2) ->
  exists s',
    mapM (fun kv => let* v := walk (snd kv) in ret (fst kv, v)) d s =
      (Ok (map (fun kv => (fst kv, g (snd kv))) d), s') /\ quiet s s'.
Proof.
  intros Hrefl H.
  destruct (mapM_inv (fun kv => let* v := walk (snd kv) in ret (fst kv, v))
              (quiet s) (fun kv y => y = (fst kv, g (snd kv))) d) with (s := s)
    as (ys & s' & E & Hys & Hq).
  - intros x Hx s1 Hs1. destruct (H x Hx s1 Hs1) as (s2 & E2 & Q2).
    exists (fst x, g (snd x)), s2. by rewrite (bind_ok _ _ _ _ _ E2).
  - exact Hrefl.
  - exists s'. by rewrite <- (Forall2_eq_map _ _ _ Hys).
Qed.

Lemma modify_dependencies_S fuel modifier is_mine top obj :
  modify_dependencies (S fuel) modifier is_mine top obj =
    (let* obj := deepcopy obj in
     let* obj :=
       if is_mine obj && negb top
       then (let* l := alloc obj in modifier l)
       else ret obj in
     match obj with
     | VDict items =>
         let* items' :=
           mapM (fun kv =>
                   let* v := modify_dependencies fuel modifier is_mine
                               false (snd kv) in
                   ret (fst kv, v)) items in
         ret (VDict items')
     | VList items =>
         let* items' :=
           mapM (modify_dependencies fuel modifier is_mine false) items in
         ret (VList items')
     | _ => ret obj
     end).
Proof. reflexivity. Qed.

Lemma bind_ret {A B} (a : A) (k : A -> M B) s : bind (ret a) k s = k a s.
Proof. reflexivity. Qed.

Lemma walk_str fuel modifier k s :
  exists s',
    modify_dependencies (S fuel) modifier is_gufe_obj false (VStr k) s =
      (Ok (VStr k), s') /\ quiet s s'.
Proof.
  rewrite modify_dependencies_S.
  destruct (deepcopy_run (VStr k) s) as (v1 & s1 & E1 & Her & Hq1).
  rewrite (bind_ok _ _ _ _ _ E1). rewrite (erase_scalar_inv _ _ Her).
  by exists s1.
Qed.

Lemma depth_pos v : 1 <= depth v.
Proof. destruct v; simpl; lia. Qed.

(** The walk of [dict_encode_dependencies] below the root: with enough
    recursion depth it returns [encode v] and touches no registry. *)
Lemma encode_walk fuel :
  forall v s, depth (encode v) <= fuel ->
    exists s',
      modify_dependencies fuel (fun l => let* o := load l in to_dict o)
        is_gufe_obj false v s = (Ok (encode v), s') /\ quiet s s'.
Proof.
  induction fuel as [| fuel IH]; intros v s Hd.
  - pose proof (depth_pos (encode v)). lia.
  - rewrite modify_dependencies_S.
    destruct (deepcopy_run v s) as (v1 & s1 & E1 & Her & Hq1).
    rewrite (bind_ok _ _ _ _ _ E1).
    rewrite <- (erase_encode _ _ Her) in *.
    clear E1 Her v.
    destruct v1 as [| b | z | str | l | d | o c d];
      cbn [is_gufe_obj andb negb]; try (by exists s1).
    + rewrite bind_ret.
      destruct (walk_list_run quiet
                  (modify_dependencies fuel
                     (fun l => let* o := load l in to_dict o) is_gufe_obj false)
                  encode l s1) as (s2 & E2 & Hq2); [apply quiet_refl | |].
      { intros x Hx s' Hs'. destruct (IH x s') as (s'' & E & Hq).
        - pose proof (depth_list_in (encode x) (map encode l)
                        (in_map encode l x Hx)).
          cbn [encode] in Hd. lia.
        - exists s''. split; [done |]. eapply quiet_trans; eauto. }
      rewrite (bind_ok _ _ _ _ _ E2). exists s2.
      split; [done |]. eapply quiet_trans; eauto.
    + rewrite bind_ret.
      destruct (walk_items_run quiet
                  (modify_dependencies fuel
                     (fun l => let* o := load l in to_dict o) is_gufe_obj false)
                  encode d s1) as (s2 & E2 & Hq2); [apply quiet_refl | |].
      { intros x Hx s' Hs'. destruct (IH (snd x) s') as (s'' & E & Hq).
        - pose proof (depth_dict_in _ _
                        (in_map (fun kv => (fst kv, encode (snd kv))) d x Hx)).
          cbn [encode] in Hd. simpl in *. lia.
        - exists s''. split; [done |]. eapply quiet_trans; eauto. }
      rewrite (bind_ok _ _ _ _ _ E2). exists s2.
      split; [done |]. eapply quiet_trans; eauto.
    + erewrite bind_ok; [| rewrite alloc_load_run; reflexivity].
      cbn beta iota.
      match goal with
      | |- context [bind (mapM ?f ?items) _ ?s0] =>
          destruct (walk_items_run quiet
                      (modify_dependencies fuel
                         (fun l => let* o := load l in to_dict o)
                         is_gufe_obj false)
                      encode items s0) as (s2 & E2 & Hq2);
            [apply quiet_refl | |]
      end.
      { intros x Hx s' Hs'. destruct (IH (snd x) s') as (s'' & E & Hq).
        - pose proof (depth_dict_in _ _
                        (in_map (fun kv => (fst kv, encode (snd kv))) _ x Hx))
            as Hlt.
          rewrite dict_update_map in Hlt. cbn [encode] in Hd.
          simpl in *. lia.
        - exists s''. split; [done |]. eapply quiet_trans; eauto. }
      rewrite (bind_ok _ _ _ _ _ E2). exists s2. split.
      * unfold ret. cbn [encode]. by rewrite dict_update_map.
      * eapply quiet_trans; [exact Hq1 |].
        eapply quiet_trans; [apply quiet_alloc | exact Hq2].
Qed.

Lemma foldr_max_bound {A} (f : A -> nat) (b m : nat) (l : list A) :
  b <= m -> (forall x, In x l -> f x <= m) ->
  foldr (fun x acc => Nat.max (f x) acc) b l <= m.
Proof.
  intros Hb. induction l as [| x l IH]; simpl; intros H; [done |].
  apply Nat.max_lub; [apply H; by left | apply IH; intros; apply H; by right].
Qed.

Lemma depth_shallow o c d :
  depth (VDict (dict_update d (module_qualname c))) <= depth (VEnt o c d).
Proof.
  cbn [depth]. apply le_n_S. apply foldr_max_bound; [lia |].
  intros kv Hin. apply in_dict_update in Hin as [Hin | Hin].
  - pose proof (depth_ent_in o c kv d Hin) as H. cbn [depth] in H. lia.
  - pose proof (depth_ent_ge o c d) as H. cbn [depth] in H.
    destruct Hin as [<- | [<- | []]]; simpl; lia.
Qed.

Lemma depth_encode_le v : depth (encode v) <= depth v.
Proof.
  induction v as [| | | | l IH | d IH | o c d IH] using value_ind'; try done.
  - cbn [encode depth]. apply le_n_S.
    induction IH as [| x l Hx Hl IHl]; simpl; [done | lia].
  - cbn [encode depth]. apply le_n_S.
    induction IH as [| x l Hx Hl IHl]; simpl in *; [done | lia].
  - cbn [encode]. cbn [depth]. apply le_n_S. apply foldr_max_bound; [lia |].
    intros kv Hin. apply in_dict_update in Hin as [Hin | Hin].
    + apply in_map_iff in Hin as (x & <- & Hx). simpl.
      rewrite List.Forall_forall in IH. specialize (IH x Hx).
      pose proof (depth_ent_in o c x d Hx) as H. cbn [depth] in H. lia.
    + pose proof (depth_ent_ge o c d) as H. cbn [depth] in H.
      destruct Hin as [<- | [<- | []]]; simpl; lia.
Qed.

Lemma erase_dict_inv v d :
  erase v = erase (VDict d) -> exists d1, v = VDict d1.
Proof. destruct v; simpl; try discriminate. eauto. Qed.

(** [dict_encode_dependencies] on an instance returns its [encode]. *)
Lemma dict_encode_run fuel o c d s :
  depth (encode (VEnt o c d)) <= fuel ->
  exists s',
    dict_encode_dependencies fuel (VEnt o c d) s =
      (Ok (encode (VEnt o c d)), s') /\ quiet s s'.
Proof.
  intros Hd. unfold dict_encode_dependencies, to_shallow_dict.
  cbn [to_dict]. rewrite bind_ret.
  destruct fuel as [| fuel];
    [pose proof (depth_pos (encode (VEnt o c d))); lia |].
  rewrite modify_dependencies_S.
  destruct (deepcopy_run (VDict (dict_update d (module_qualname c))) s)
    as (v1 & s1 & E1 & Her & Hq1).
  rewrite (bind_ok _ _ _ _ _ E1).
  destruct (erase_dict_inv _ _ Her) as [d1 ->].
  cbn [is_gufe_obj andb]. rewrite bind_ret.
  assert (Hsh : depth (encode (VDict d1)) <= S fuel).
  { rewrite (erase_encode _ _ Her). cbn [encode] in *.
    by rewrite dict_update_map. }
  destruct (walk_items_run quiet
              (modify_dependencies fuel
                 (fun l => let* o := load l in to_dict o) is_gufe_obj false)
              encode d1 s1) as (s2 & E2 & Hq2); [apply quiet_refl | |].
  { intros x Hx s' Hs'. destruct (encode_walk fuel (snd x) s') as (s'' & E & Hq).
    - pose proof (depth_dict_in _ _
                    (in_map (fun kv => (fst kv, encode (snd kv))) d1 x Hx)).
      cbn [encode] in Hsh. simpl in *. lia.
    - exists s''. split; [done |]. eapply quiet_trans; eauto. }
  rewrite (bind_ok _ _ _ _ _ E2). exists s2. split.
  - unfold ret. do 2 f_equal.
    change (encode (VDict d1) =
            VDict (dict_update (map (fun kv => (fst kv, encode (snd kv))) d)
                     (module_qualname c))).
    rewrite (erase_encode _ _ Her). cbn [encode].
    by rewrite dict_update_map.
  - eapply quiet_trans; eauto.
Qed.

Section KeyRun.

Variable CLASSES : gmap cname (list (string * option value)).
Variable py_str_item : string * value -> string.
Variable py_str_items : list (string * value) -> string.
Variable md5_hexdigest : string -> string.

Local Abbreviation key := (key CLASSES py_str_item py_str_items md5_hexdigest).
Local Abbreviation key_of :=
  (key_of CLASSES py_str_item py_str_items md5_hexdigest).

Lemma to_dict_full_run fuel o c d s :
  depth (encode (VEnt o c d)) <= fuel ->
  exists s',
    GufeTokenizable_to_dict CLASSES fuel (VEnt o c d) true s =
      (Ok (encode (VEnt o c d)), s') /\ quiet s s'.
Proof.
  intros Hd. unfold GufeTokenizable_to_dict.
  destruct (dict_encode_run fuel o c d s Hd) as (s' & E & Hq).
  rewrite (bind_ok _ _ _ _ _ E). by exists s'.
Qed.

Lemma to_dict_stripped_run fuel o c d s :
  depth (encode (VEnt o c d)) <= fuel ->
  exists s',
    GufeTokenizable_to_dict CLASSES fuel (VEnt o c d) false s =
      (match stripped_items CLASSES (VEnt o c d) with
       | Ok items => Ok (VDict items)
       | Raise e => Raise e
       end, s') /\ quiet s s'.
Proof.
  intros Hd. unfold GufeTokenizable_to_dict, stripped_items.
  destruct (dict_encode_run fuel o c d s Hd) as (s' & E & Hq).
  rewrite (bind_ok _ _ _ _ _ E). exists s'. split; [| done].
  cbn [encode]. by destruct (strip_defaults _ _).
Qed.

Lemma tokenize_run fuel o c d s :
  depth (encode (VEnt o c d)) <= fuel ->
  exists s1, quiet s s1 /\
    tokenize CLASSES py_str_item py_str_items md5_hexdigest fuel (VEnt o c d) s
    = (token_of CLASSES py_str_item py_str_items md5_hexdigest (VEnt o c d), s1).
Proof.
  intros Hd.
  destruct (to_dict_stripped_run fuel o c d s Hd) as (s1 & E & Hq).
  exists s1. split; [done |].
  unfold tokenize, normalize_object, _gufe_tokenize, token_of.
  destruct (stripped_items CLASSES (VEnt o c d)) as [items | e].
  - rewrite (bind_ok _ _ _ _ _ (bind_ok _ _ _ _ _ E)). reflexivity.
  - rewrite (bind_raise _ _ _ _ _ (bind_raise _ _ _ _ _ E)). reflexivity.
Qed.

Lemma key_run fuel o c d s :
  depth (encode (VEnt o c d)) <= fuel ->
  exists s1, quiet s s1 /\
    key fuel (VEnt o c d) s =
      match key_of (VEnt o c d) with
      | Ok k => (Ok k, registered k (VEnt o c d) s1)
      | Raise e => (Raise e, s1)
      end.
Proof.
  intros Hd.
  destruct (to_dict_stripped_run fuel o c d s Hd) as (s1 & E & Hq).
  exists s1. split; [done |].
  unfold key, tokenize, normalize_object, _gufe_tokenize, key_of, token_of.
  destruct (stripped_items CLASSES (VEnt o c d)) as [items | e].
  - rewrite (bind_ok _ _ _ _ _
               (bind_ok _ _ _ _ _ (bind_ok _ _ _ _ _ E))).
    reflexivity.
  - rewrite (bind_raise _ _ _ _ _
               (bind_raise _ _ _ _ _ (bind_raise _ _ _ _ _ E))).
    reflexivity.
Qed.

End KeyRun.

(** ** Keyed encoding *)

Lemma calm_refl s : calm s s.
Proof. unfold calm. repeat split; lia. Qed.

Lemma calm_trans s1 s2 s3 : calm s1 s2 -> calm s2 s3 -> calm s1 s3.
Proof.
  unfold calm. intros (A1 & A2 & A3 & A4) (B1 & B2 & B3 & B4).
  repeat split; try congruence; lia.
Qed.

Lemma quiet_calm s s' : quiet s s' -> calm s s'.
Proof. unfold quiet, calm. tauto. Qed.

Lemma calm_registered k v s : calm s (registered k v s).
Proof.
  unfold registered, registry_setdefault, calm. simpl.
  destruct (TOKENIZABLE_REGISTRY s !! k); simpl; repeat split; lia.
Qed.

Lemma erase_idem v : erase (erase v) = erase v.
Proof.
  induction v as [| | | | l IH | d IH | o c d IH] using value_ind'; try done;
    simpl; rewrite map_map; f_equal; apply map_ext_in; intros x Hx;
    rewrite List.Forall_forall in IH; simpl; by rewrite IH.
Qed.

Section Keyed.

Variable CLASSES : gmap cname (list (string * option value)).
Variable py_str_item : string * value -> string.
Variable py_str_items : list (string * value) -> string.
Variable md5_hexdigest : string -> string.

Local Abbreviation key := (key CLASSES py_str_item py_str_items md5_hexdigest).
Local Abbreviation key_of :=
  (key_of CLASSES py_str_item py_str_items md5_hexdigest).
Local Abbreviation key_encode :=
  (key_encode CLASSES py_str_item py_str_items md5_hexdigest).
Local Abbreviation keyable :=
  (keyable CLASSES py_str_item py_str_items md5_hexdigest).
Local Abbreviation key_encode_dependencies :=
  (key_encode_dependencies CLASSES py_str_item py_str_items md5_hexdigest).

Lemma key_of_erase v v' : erase v' = erase v -> key_of v' = key_of v.
Proof.
  intros H. destruct v; try (by rewrite (erase_scalar_inv _ _ H)).
  - destruct v'; simpl in H; try discriminate. reflexivity.
  - destruct v'; simpl in H; try discriminate. reflexivity.
  - destruct (erase_ent_inv _ _ _ _ H) as (o1 & d1 & ->).
    unfold key_of, token_of, stripped_items. by rewrite (erase_encode _ _ H).
Qed.

Lemma key_encode_erase v : key_encode (erase v) = key_encode v.
Proof.
  induction v as [| | | | l IH | d IH | o c d IH] using value_ind'; try done.
  - simpl. rewrite map_map. f_equal.
    apply map_ext_in. intros x Hx.
    rewrite List.Forall_forall in IH. by apply IH.
  - simpl. rewrite map_map. f_equal.
    apply map_ext_in. intros x Hx. simpl.
    rewrite List.Forall_forall in IH. by rewrite IH.
  - change (key_encode (erase (VEnt o c d)))
      with (match key_of (erase (VEnt o c d)) with
            | Ok k => GufeKey_to_dict k
            | Raise _ => VNone
            end).
    rewrite (key_of_erase (VEnt o c d) (erase (VEnt o c d))); [done |].
    apply erase_idem.
Qed.

Lemma keyable_dict d :
  keyable (VDict d) = forallb (fun kv => keyable (snd kv)) d.
Proof. reflexivity. Qed.

Lemma keyable_erase v : keyable (erase v) = keyable v.
Proof.
  induction v as [| | | | l IH | d IH | o c d IH] using value_ind'; try done.
  - simpl. induction IH as [| x l Hx Hl IHl]; simpl; [done |].
    by rewrite Hx, IHl.
  - simpl. induction IH as [| x l Hx Hl IHl]; simpl; [done |].
    by rewrite Hx, IHl.
  - change (keyable (erase (VEnt o c d)))
      with (match key_of (erase (VEnt o c d)) with
            | Ok _ => true
            | Raise _ => false
            end).
    rewrite (key_of_erase (VEnt o c d) (erase (VEnt o c d))); [done |].
    apply erase_idem.
Qed.

Lemma erase_key_encode v v' : erase v' = erase v -> key_encode v' = key_encode v.
Proof. intros H. by rewrite <- (key_encode_erase v'), H, key_encode_erase. Qed.

Lemma erase_keyable v v' : erase v' = erase v -> keyable v' = keyable v.
Proof. intros H. by rewrite <- (keyable_erase v'), H, keyable_erase. Qed.

(** The walk of [key_encode_dependencies] below the root. *)
Lemma key_encode_walk fuel0 fuel :
  fuel <= fuel0 ->
  forall v s, depth v <= fuel -> keyable v = true ->
    exists s',
      modify_dependencies fuel
        (fun l => let* o := load l in
                  let* k := key fuel0 o in
                  ret (GufeKey_to_dict k))
        is_gufe_obj false v s = (Ok (key_encode v), s') /\ calm s s'.
Proof.
  induction fuel as [| fuel IH]; intros Hf v s Hd Hk.
  - pose proof (depth_pos v). lia.
  - rewrite modify_dependencies_S.
    destruct (deepcopy_run v s) as (v1 & s1 & E1 & Her & Hq1).
    rewrite (bind_ok _ _ _ _ _ E1). apply quiet_calm in Hq1.
    rewrite <- (erase_key_encode _ _ Her).
    rewrite <- (erase_depth _ _ Her) in Hd.
    rewrite <- (erase_keyable _ _ Her) in Hk.
    clear E1 Her v.
    destruct v1 as [| b | z | str | l | d | o c d];
      cbn [is_gufe_obj andb negb]; try (by exists s1).
    + rewrite bind_ret.
      destruct (walk_list_run calm
                  (modify_dependencies fuel
                     (fun l => let* o := load l in
                               let* k := key fuel0 o in
                               ret (GufeKey_to_dict k))
                     is_gufe_obj false)
                  key_encode l s1) as (s2 & E2 & Hq2); [apply calm_refl | |].
      { intros x Hx s' Hs'. destruct (IH ltac:(lia) x s') as (s'' & E & Hq).
        - pose proof (depth_list_in x l Hx). lia.
        - simpl in Hk. rewrite forallb_forall in Hk. by apply Hk.
        - exists s''. split; [done |]. eapply calm_trans; eauto. }
      rewrite (bind_ok _ _ _ _ _ E2). exists s2.
      split; [done |]. eapply calm_trans; eauto.
    + rewrite bind_ret.
      destruct (walk_items_run calm
                  (modify_dependencies fuel
                     (fun l => let* o := load l in
                               let* k := key fuel0 o in
                               ret (GufeKey_to_dict k))
                     is_gufe_obj false)
                  key_encode d s1) as (s2 & E2 & Hq2); [apply calm_refl | |].
      { intros x Hx s' Hs'. destruct (IH ltac:(lia) (snd x) s') as (s'' & E & Hq).
        - pose proof (depth_dict_in x d Hx). lia.
        - simpl in Hk. rewrite forallb_forall in Hk. by apply Hk.
        - exists s''. split; [done |]. eapply calm_trans; eauto. }
      rewrite (bind_ok _ _ _ _ _ E2). exists s2.
      split; [done |]. eapply calm_trans; eauto.
    + rewrite alloc_load_run_bind. cbn beta.
      match goal with
      | |- exists _, bind _ _ ?s0 = _ /\ _ =>
          destruct (key_run CLASSES py_str_item py_str_items md5_hexdigest
                      fuel0 o c d s0) as (s2 & Hq2 & E2);
            [pose proof (depth_encode_le (VEnt o c d)); lia |]
      end.
      change (keyable (VEnt o c d))
        with (match key_of (VEnt o c d) with
              | Ok _ => true
              | Raise _ => false
              end) in Hk.
      change (key_encode (VEnt o c d))
        with (match key_of (VEnt o c d) with
              | Ok k => GufeKey_to_dict k
              | Raise _ => VNone
              end).
      destruct (key_of (VEnt o c d)) as [k | e]; [| discriminate].
      rewrite (bind_ok _ _ _ _ _ (bind_ok _ _ _ _ _ E2)).
      cbn beta iota. unfold GufeKey_to_dict.
      pose proof (depth_ent_ge o c d).
      destruct fuel as [| fuel]; [lia |].
      destruct (walk_str fuel
                  (fun l => let* o := load l in
                            let* k := key fuel0 o in
                            ret (VDict [(":gufe-key:", VStr k)]))
                  k (registered k (VEnt o c d) s2)) as (s3 & E3 & Hq3).
      erewrite bind_ok; cycle 1.
      { cbn [mapM]. erewrite bind_ok; [reflexivity |].
        erewrite bind_ok; [reflexivity | exact E3]. }
      exists s3. split; [reflexivity |].
      eapply calm_trans; [exact Hq1 |].
      eapply calm_trans; [apply quiet_calm, quiet_alloc |].
      eapply calm_trans; [apply quiet_calm, Hq2 |].
      eapply calm_trans; [apply calm_registered |].
      by apply quiet_calm.
Qed.

End Keyed.

(** ** Stripping the defaults *)

Lemma distinct_NoDup l : distinct l = true -> List.NoDup l.
Proof.
  induction l as [| x l IH]; simpl; [constructor |].
  intros H. apply andb_prop in H as [H1 H2].
  constructor; [| by apply IH].
  intros Hin. apply negb_true_iff in H1.
  assert (existsb (String.eqb x) l = true); [| congruence].
  apply existsb_exists. exists x. split; [done | apply String.eqb_refl].
Qed.

Lemma dict_get_Some_in {A} (k : string) (v : A) d :
  dict_get k d = Some v -> In (k, v) d.
Proof.
  induction d as [| [k0 v0] d IH]; simpl; [done |].
  destruct (String.eqb_spec k k0) as [-> | Hk].
  - intros [= ->]. by left.
  - intros H. right. by apply IH.
Qed.

Lemma dict_get_in {A} (k : string) (v : A) d :
  List.NoDup (map fst d) -> In (k, v) d -> dict_get k d = Some v.
Proof.
  induction d as [| [k0 v0] d IH]; simpl; [done |].
  intros Hnd. apply List.NoDup_cons_iff in Hnd as [Hn Hnd].
  intros [[= -> ->] | Hin].
  - by rewrite String.eqb_refl.
  - destruct (String.eqb_spec k k0) as [-> | Hk]; [| by apply IH].
    exfalso. apply Hn. apply in_map_iff. by exists (k0, v).
Qed.

Lemma dict_get_is_Some_in {A} (k : string) (d : list (string * A)) :
  In k (map fst d) -> exists v, dict_get k d = Some v.
Proof.
  intros H. destruct (dict_get k d) as [v |] eqn:E; [eauto |].
  by apply dict_get_None_notin in E.
Qed.

Lemma in_dict_remove_ne {A} (k k' : string) (d : list (string * A)) :
  k <> k' -> In k (map fst d) -> In k (map fst (dict_remove k' d)).
Proof.
  intros Hne H. apply dict_get_is_Some_in in H as [v Hv].
  rewrite <- (dict_get_remove_ne k k' d Hne) in Hv.
  apply dict_get_Some_in in Hv. apply in_map_iff. by exists (k, v).
Qed.

Lemma filter_dict_remove (P P' : string * value -> bool) k v (d : pydict) :
  List.NoDup (map fst d) ->
  dict_get k d = Some v ->
  P (k, v) = false ->
  (forall kv, In kv d -> fst kv <> k -> P' kv = P kv) ->
  List.filter P' (dict_remove k d) = List.filter P d.
Proof.
  induction d as [| [k0 v0] d IH]; simpl; [done |].
  intros Hnd Hg HP Hext. apply List.NoDup_cons_iff in Hnd as [Hn Hnd].
  destruct (String.eqb_spec k k0) as [-> | Hk].
  - injection Hg as ->. rewrite HP.
    apply filter_ext_in. intros kv Hin. apply Hext; [by right |].
    intros <-. apply Hn. apply in_map_iff. by exists kv.
  - simpl. rewrite (Hext (k0, v0)); [| by left | simpl; congruence].
    rewrite IH; try done. intros kv Hin. apply Hext. by right.
Qed.

Lemma is_default_cons k dv rest kv :
  is_default ((k, dv) :: rest) kv =
    if String.eqb (fst kv) k then py_eq (snd kv) dv else is_default rest kv.
Proof. unfold is_default. simpl. by destruct (String.eqb (fst kv) k). Qed.

(** When every field that has a default is present, the loop raises
    nothing and removes exactly the items that hold their default. *)
Lemma strip_defaults_filter defs :
  forall dct,
    List.NoDup (map fst defs) ->
    List.NoDup (map fst dct) ->
    (forall k, In k (map fst defs) -> In k (map fst dct)) ->
    strip_defaults defs dct =
      Ok (List.filter (fun kv => negb (is_default defs kv)) dct).
Proof.
  induction defs as [| [k dv] rest IH]; intros dct Hnd Hnd' Hin.
  - simpl. f_equal. symmetry. clear. induction dct as [| kv d IH]; simpl; [done |].
    by rewrite IH at 1.
  - simpl in Hnd. apply List.NoDup_cons_iff in Hnd as [Hn Hnd].
    destruct (dict_get_is_Some_in k dct) as [v Hv]; [apply Hin; by left |].
    cbn [strip_defaults]. rewrite Hv.
    assert (Hrest : dict_get k rest = None) by by apply dict_get_None_notin.
    destruct (py_eq v dv) eqn:Heq.
    + rewrite IH; [| done | by apply NoDup_dict_remove |].
      * f_equal. apply (filter_dict_remove _ _ k v); try done.
        -- rewrite is_default_cons. simpl. by rewrite String.eqb_refl, Heq.
        -- intros kv Hkv Hne. rewrite is_default_cons.
           by destruct (String.eqb_spec (fst kv) k).
      * intros k' Hk'. apply in_dict_remove_ne; [congruence |].
        apply Hin. by right.
    + rewrite IH; [| done | done | intros k' Hk'; apply Hin; by right].
      f_equal. apply filter_ext_in. intros [k' v'] Hkv.
      rewrite is_default_cons. simpl.
      destruct (String.eqb_spec k' k) as [-> | Hne]; [| done].
      rewrite (dict_get_in _ _ _ Hnd' Hkv) in Hv. injection Hv as ->.
      unfold is_default. simpl. by rewrite Hrest, Heq.
Qed.

(** ** Literals and Python equality *)

Lemma NoDup_distinct l : List.NoDup l -> distinct l = true.
Proof.
  induction 1 as [| x l Hn Hnd IH]; simpl; [done |].
  rewrite IH, andb_true_r. apply negb_true_iff.
  destruct (existsb (String.eqb x) l) eqn:E; [| done].
  apply existsb_exists in E as (y & Hy & Heq).
  apply String.eqb_eq in Heq as ->. done.
Qed.

Lemma py_eq_list_refl l :
  Forall (fun v => py_eq v v = true) l -> py_eq (VList l) (VList l) = true.
Proof.
  simpl. induction 1 as [| x l Hx Hl IH]; [done |]. by rewrite Hx, IH.
Qed.

Lemma py_eq_dict_refl d :
  List.NoDup (map fst d) ->
  Forall (fun kv => py_eq (snd kv) (snd kv) = true) d ->
  py_eq (VDict d) (VDict d) = true.
Proof.
  intros Hnd Hall. simpl. rewrite Nat.eqb_refl. simpl.
  match goal with
  | |- ?f d = true =>
      enough (H : forall d', (forall kv, In kv d' -> In kv d) -> f d' = true)
        by (by apply H)
  end.
  rewrite List.Forall_forall in Hall.
  induction d' as [| [k v] d' IH]; intros Hsub; [done |].
  rewrite (dict_get_in k v d Hnd); [| apply Hsub; by left].
  pose proof (Hall (k, v) (Hsub _ (or_introl eq_refl))) as Hv.
  simpl in Hv. rewrite Hv. simpl.
  apply IH. intros kv Hkv. apply Hsub. by right.
Qed.

Lemma py_eq_refl v : plain v = true -> py_eq v v = true.
Proof.
  induction v as [| b | z | s | l IH | d IH | o c d IH] using value_ind';
    intros Hp; try done.
  - by destruct b.
  - simpl. apply Z.eqb_refl.
  - simpl. apply String.eqb_refl.
  - apply py_eq_list_refl. simpl in Hp. rewrite forallb_forall in Hp.
    rewrite List.Forall_forall in *. intros x Hx. apply IH; [done | by apply Hp].
  - simpl in Hp. apply andb_prop in Hp as [Hd Hp].
    rewrite forallb_forall in Hp.
    apply py_eq_dict_refl; [by apply distinct_NoDup |].
    rewrite List.Forall_forall in *. intros x Hx. apply IH; [done | by apply Hp].
Qed.

Lemma encode_plain v : plain v = true -> encode v = v.
Proof.
  induction v as [| b | z | s | l IH | d IH | o c d IH] using value_ind';
    intros Hp; try done.
  - simpl in *. f_equal. rewrite forallb_forall in Hp.
    rewrite List.Forall_forall in IH.
    rewrite <- (map_id l) at 2. apply map_ext_in. intros x Hx.
    apply IH; [done | by apply Hp].
  - simpl in *. f_equal. apply andb_prop in Hp as [_ Hp].
    rewrite forallb_forall in Hp. rewrite List.Forall_forall in IH.
    rewrite <- (map_id d) at 2. apply map_ext_in. intros [k x] Hx. simpl.
    f_equal. apply (IH (k, x)); [done | by apply (Hp (k, x))].
Qed.

Lemma map_fst_dict_set_in {A} k (v : A) d :
  In k (map fst d) -> map fst (dict_set k v d) = map fst d.
Proof.
  induction d as [| [k0 v0] d IH]; simpl; [done |].
  destruct (String.eqb_spec k k0) as [-> | Hk]; simpl; [done |].
  intros [? | H]; [congruence |]. by rewrite IH.
Qed.

Lemma map_fst_dict_set_notin {A} k (v : A) d :
  ~ In k (map fst d) -> map fst (dict_set k v d) = (map fst d ++ [k])%list.
Proof.
  induction d as [| [k0 v0] d IH]; simpl; [done |].
  destruct (String.eqb_spec k k0) as [-> | Hk]; simpl.
  - intros H. exfalso. apply H. by left.
  - intros H. rewrite IH; [done | tauto].
Qed.

Lemma NoDup_dict_set {A} k (v : A) d :
  List.NoDup (map fst d) -> List.NoDup (map fst (dict_set k v d)).
Proof.
  intros Hnd.
  destruct (dict_get k d) as [v0 |] eqn:E.
  - rewrite map_fst_dict_set_in; [done |].
    apply dict_get_Some_in in E. apply in_map_iff. by exists (k, v0).
  - apply dict_get_None_notin in E as Hn.
    rewrite map_fst_dict_set_notin by done.
    apply List.NoDup_app; [done | repeat constructor; by intros [] |].
    intros a Ha [<- | []]. done.
Qed.

(** ** Constructors and defaults *)

Lemma bind_params_keys sg : forall kw attrs,
  bind_params sg kw = Some attrs -> map fst attrs = map fst sg.
Proof.
  induction sg as [| [p dflt] sg IH]; intros kw attrs; simpl.
  - by intros [= <-].
  - destruct (match dict_get p kw with Some v => Some v | None => dflt end);
      [| done].
    destruct (bind_params sg kw) as [rest |] eqn:E; [| done].
    intros [= <-]. simpl. f_equal. by eapply IH.
Qed.

Lemma bind_params_get sg : forall kw attrs p dflt,
  bind_params sg kw = Some attrs ->
  List.NoDup (map fst sg) ->
  In (p, dflt) sg ->
  dict_get p attrs =
    match dict_get p kw with Some v => Some v | None => dflt end.
Proof.
  induction sg as [| [p0 d0] sg IH]; intros kw attrs p dflt; simpl; [done |].
  destruct (match dict_get p0 kw with Some v => Some v | None => d0 end)
    as [v0 |] eqn:E0; [| done].
  destruct (bind_params sg kw) as [rest |] eqn:E; [| done].
  intros [= <-] Hnd Hin. apply List.NoDup_cons_iff in Hnd as [Hn Hnd]. simpl.
  destruct Hin as [[= -> ->] | Hin].
  - by rewrite String.eqb_refl.
  - destruct (String.eqb_spec p p0) as [-> | Hne].
    + exfalso. apply Hn. apply in_map_iff. by exists (p0, dflt).
    + by eapply IH.
Qed.

(** Passing a default explicitly builds what leaving it out builds. *)
Lemma bind_params_explicit_default sg f dv kw :
  List.NoDup (map fst sg) ->
  In (f, Some dv) sg ->
  dict_get f kw = None ->
  bind_params sg (dict_set f dv kw) = bind_params sg kw.
Proof.
  intros Hnd Hin Hf.
  assert (Hsg : forall p dflt, In (p, dflt) sg -> p = f -> dflt = Some dv).
  { intros p dflt Hp ->.
    assert (H1 := dict_get_in f dflt sg Hnd Hp).
    assert (H2 := dict_get_in f (Some dv) sg Hnd Hin). congruence. }
  clear Hnd Hin. induction sg as [| [p dflt] sg IH]; simpl; [done |].
  rewrite IH; [| intros p' d' Hp'; apply Hsg; by right].
  destruct (String.eqb_spec p f) as [-> | Hne].
  - rewrite dict_get_set_eq, Hf.
    by rewrite (Hsg f dflt (or_introl eq_refl) eq_refl).
  - by rewrite dict_get_set_ne.
Qed.

Lemma forallb_dict_set {A} (P : string * A -> bool) k v d :
  P (k, v) = true -> forallb P d = true -> forallb P (dict_set k v d) = true.
Proof.
  intros Hk. induction d as [| [k0 v0] d IH]; simpl.
  - by rewrite Hk.
  - destruct (String.eqb_spec k k0) as [-> | Hne]; simpl.
    + intros H. apply andb_prop in H as [_ H]. by rewrite Hk, H.
    + intros H. apply andb_prop in H as [H0 H]. by rewrite H0, IH.
Qed.

Lemma in_map_fst_dict_set {A} k k' (v : A) d :
  In k (map fst d) -> In k (map fst (dict_set k' v d)).
Proof.
  intros H. destruct (dict_get k' d) as [v0 |] eqn:E.
  - rewrite map_fst_dict_set_in; [done |].
    apply dict_get_Some_in in E. apply in_map_iff. by exists (k', v0).
  - apply dict_get_None_notin in E.
    rewrite map_fst_dict_set_notin by done. apply in_or_app. by left.
Qed.

Lemma dict_get_filter_out (P : string * value -> bool) k v (d : pydict) :
  List.NoDup (map fst d) ->
  dict_get k d = Some v ->
  P (k, v) = false ->
  dict_get k (List.filter P d) = None.
Proof.
  intros Hnd Hg HP. apply dict_get_None_notin. intros Hin.
  apply in_map_iff in Hin as ([k' v'] & Hk & Hin). simpl in Hk. subst k'.
  apply filter_In in Hin as [Hin HPv].
  rewrite (dict_get_in _ _ _ Hnd Hin) in Hg. injection Hg as ->. congruence.
Qed.

Lemma map_fst_map_values (f : value -> value) (d : pydict) :
  map fst (map (fun kv => (fst kv, f (snd kv))) d) = map fst d.
Proof. rewrite map_map. by apply map_ext. Qed.

Section Classes.

Variable CLASSES : gmap cname (list (string * option value)).

Lemma defaults_get cls sg f dv :
  CLASSES !! cls = Some sg ->
  List.NoDup (map fst sg) ->
  In (f, Some dv) sg ->
  dict_get f (_defaults CLASSES cls) = Some dv.
Proof.
  intros Hc Hnd Hin. unfold _defaults, signature. rewrite Hc.
  clear Hc. induction sg as [| [p dflt] sg IH]; simpl in *; [done |].
  apply List.NoDup_cons_iff in Hnd as [Hn Hnd].
  destruct Hin as [[= -> ->] | Hin].
  - simpl. by rewrite String.eqb_refl.
  - assert (f <> p).
    { intros ->. apply Hn. apply in_map_iff. by exists (p, Some dv). }
    destruct dflt as [d0 |]; simpl.
    + destruct (String.eqb_spec f p); [done | by apply IH].
    + by apply IH.
Qed.

Lemma defaults_keys cls sg :
  CLASSES !! cls = Some sg ->
  List.NoDup (map fst sg) ->
  List.NoDup (map fst (_defaults CLASSES cls)) /\
  forall k, In k (map fst (_defaults CLASSES cls)) -> In k (map fst sg).
Proof.
  intros Hc. unfold _defaults, signature. rewrite Hc. clear Hc.
  induction sg as [| [p dflt] sg IH]; simpl; [done |].
  intros Hnd. apply List.NoDup_cons_iff in Hnd as [Hn Hnd].
  destruct (IH Hnd) as [IH1 IH2].
  destruct dflt as [d0 |]; simpl.
  - split.
    + constructor; [| done]. intros H. apply Hn. by apply IH2.
    + intros k [<- | H]; [by left | right; by apply IH2].
  - split; [done |]. intros k H. right. by apply IH2.
Qed.

(** The dictionary form without defaults of an instance that has all
    the fields of its class. *)
Lemma stripped_items_shaped o cls sg attrs :
  CLASSES !! cls = Some sg ->
  List.NoDup (map fst sg) ->
  map fst attrs = map fst sg ->
  stripped_items CLASSES (VEnt o cls attrs) =
    Ok (List.filter
          (fun kv => negb (is_default (_defaults CLASSES cls) kv))
          (dict_update (map (fun kv => (fst kv, encode (snd kv))) attrs)
                       (module_qualname cls))).
Proof.
  intros Hc Hnd Hk. unfold stripped_items. cbn [encode defaults].
  destruct (defaults_keys cls sg Hc Hnd) as [Hd1 Hd2].
  apply strip_defaults_filter; [done | |].
  - unfold dict_update. simpl. do 2 apply NoDup_dict_set.
    by rewrite map_fst_map_values, Hk.
  - intros k Hin. unfold dict_update. simpl.
    do 2 apply in_map_fst_dict_set.
    rewrite map_fst_map_values, Hk. by apply Hd2.
Qed.

End Classes.

(** ** Decoding one dictionary *)

Section Decode.

Variable CLASSES : gmap cname (list (string * option value)).
Variable REMAPPED_CLASSES : gmap cname cname.
Variable py_str_item : string * value -> string.
Variable py_str_items : list (string * value) -> string.
Variable md5_hexdigest : string -> string.

Local Abbreviation key := (key CLASSES py_str_item py_str_items md5_hexdigest).
Local Abbreviation key_of :=
  (key_of CLASSES py_str_item py_str_items md5_hexdigest).
Local Abbreviation from_dict :=
  (from_dict CLASSES REMAPPED_CLASSES py_str_item py_str_items md5_hexdigest).
Local Abbreviation _from_dict := (_from_dict CLASSES REMAPPED_CLASSES).
Local Abbreviation get_class := (get_class CLASSES REMAPPED_CLASSES).

Lemma get_class_hit m q c s :
  TOKENIZABLE_CLASS_REGISTRY s !! (m, q) = Some c ->
  get_class m q s = (Ok c, s).
Proof.
  intros H. unfold get_class, except_KeyError, class_registry_get.
  cbv zeta. by rewrite H.
Qed.

(** A tag that is not registered goes through the remap table and the
    import, and the class found is cached under the tag. *)
Lemma get_class_miss m q s :
  TOKENIZABLE_CLASS_REGISTRY s !! (m, q) = None ->
  let target :=
    match REMAPPED_CLASSES !! (m, q) with
    | Some new => new
    | None => (m, q)
    end in
  get_class m q s =
    match CLASSES !! target with
    | Some _ =>
        (Ok target,
         State (<[(m, q) := target]> (TOKENIZABLE_CLASS_REGISTRY s))
               (TOKENIZABLE_REGISTRY s) (collected s) (store s)
               (next_loc s) (next_oid s))
    | None => (Raise (ImportError (fst target) (snd target)), s)
    end.
Proof.
  intros H target.
  unfold get_class, except_KeyError, class_registry_get. cbv zeta.
  rewrite H. simpl.
  unfold import_qualname. fold target.
  unfold bind. by destruct (CLASSES !! target).
Qed.

Lemma cls_from_dict_ok c sg items attrs s :
  CLASSES !! c = Some sg ->
  forallb (fun kv => dict_mem (fst kv) sg) items = true ->
  bind_params sg items = Some attrs ->
  cls_from_dict CLASSES c (VDict items) s =
    (Ok (VEnt (next_oid s) c attrs),
     State (TOKENIZABLE_CLASS_REGISTRY s) (TOKENIZABLE_REGISTRY s)
           (collected s) (store s) (next_loc s) (S (next_oid s))).
Proof.
  intros Hc Hf Hb. unfold cls_from_dict, signature. by rewrite Hc, Hf, Hb.
Qed.

(** [_from_dict] on a dictionary whose tags name a registered class. *)
Lemma _from_dict_ok s l items m q c sg attrs :
  store s !! l = Some (VDict items) ->
  dict_get "__module__" items = Some (VStr m) ->
  dict_get "__qualname__" items = Some (VStr q) ->
  TOKENIZABLE_CLASS_REGISTRY s !! (m, q) = Some c ->
  CLASSES !! c = Some sg ->
  let rest := dict_remove "__qualname__" (dict_remove "__module__" items) in
  forallb (fun kv => dict_mem (fst kv) sg) rest = true ->
  bind_params sg rest = Some attrs ->
  _from_dict l s =
    (Ok (VEnt (next_oid s) c attrs),
     State (TOKENIZABLE_CLASS_REGISTRY s) (TOKENIZABLE_REGISTRY s)
           (collected s) (<[l := VDict rest]> (store s))
           (next_loc s) (S (next_oid s))).
Proof.
  intros Hst Hm Hq Hreg Hc rest Hf Hb. unfold _from_dict.
  rewrite (bind_ok _ _ _ _ _ (pop_ok _ _ _ _ _ Hst Hm)).
  erewrite bind_ok; cycle 1.
  { eapply pop_ok; [apply lookup_insert_eq |].
    by rewrite dict_get_remove_ne. }
  cbn [is_None orb]. simpl store. rewrite insert_insert_eq.
  erewrite bind_ok; [| by apply get_class_hit].
  erewrite bind_ok; [| apply load_ok; apply lookup_insert_eq].
  by erewrite cls_from_dict_ok.
Qed.

(** [from_dict] once [_from_dict] has built [obj]: [obj] registers
    itself if its key is free, and the registry hands back the live
    instance it holds under that key, or else [obj]. *)
Lemma from_dict_ok fuel l s o c d s1 k :
  _from_dict l s = (Ok (VEnt o c d), s1) ->
  depth (encode (VEnt o c d)) <= fuel ->
  key_of (VEnt o c d) = Ok k ->
  exists s2, quiet s1 s2 /\
    from_dict fuel l s =
      (Ok (lookup_live s2 k (VEnt o c d)), registered k (VEnt o c d) s2).
Proof.
  intros Hfd Hd Hk. unfold from_dict.
  rewrite (bind_ok _ _ _ _ _ Hfd).
  destruct (key_run CLASSES py_str_item py_str_items md5_hexdigest
              fuel o c d s1 Hd) as (s2 & Hq & E).
  rewrite Hk in E. exists s2. split; [done |].
  unfold except_KeyError. rewrite (bind_ok _ _ _ _ _ E).
  unfold bind, registry_deref, lookup_live, registered, registry_setdefault.
  simpl.
  destruct (TOKENIZABLE_REGISTRY s2 !! k) as [v |] eqn:Hv; simpl.
  - rewrite Hv. unfold alive. simpl.
    destruct v; simpl; try done. by destruct (bool_decide _).
  - rewrite lookup_insert_eq. simpl. by destruct (bool_decide _).
Qed.

End Decode.

(** ** Dictionary forms *)

Lemma entity_free_encode v : entity_free (encode v) = true.
Proof.
  induction v as [| | | | l IH | d IH | o c d IH] using value_ind'; try done.
  - cbn [encode entity_free]. apply forallb_forall. intros x Hx.
    apply in_map_iff in Hx as (y & <- & Hy).
    rewrite List.Forall_forall in IH. by apply IH.
  - cbn [encode entity_free]. apply forallb_forall. intros x Hx.
    apply in_map_iff in Hx as (y & <- & Hy).
    rewrite List.Forall_forall in IH. by apply (IH y).
  - cbn [encode entity_free]. apply forallb_forall. intros x Hx.
    apply in_dict_update in Hx as [Hx | Hx].
    + apply in_map_iff in Hx as (y & <- & Hy).
      rewrite List.Forall_forall in IH. by apply (IH y).
    + by destruct Hx as [<- | [<- | []]].
Qed.

Lemma deepcopy_items_entity_free d :
  Forall (fun kv => forall n, deepcopy_from n (snd kv) = (snd kv, n)) d ->
  forall n, deepcopy_items n d = (d, n).
Proof.
  induction 1 as [| [k x] d Hx Hd IH]; intros n; simpl; [done |].
  simpl in Hx. by rewrite Hx, IH.
Qed.

Lemma deepcopy_from_entity_free v :
  entity_free v = true -> forall n, deepcopy_from n v = (v, n).
Proof.
  induction v as [| | | | l IH | d IH | o c d IH] using value_ind';
    intros Hf n; try done.
  - rewrite deepcopy_from_list. simpl in Hf. rewrite forallb_forall in Hf.
    assert (H : deepcopy_list n l = (l, n)); [| by rewrite H].
    revert n. induction IH as [| x l Hx Hl IHl]; intros n; simpl; [done |].
    rewrite Hx by (apply Hf; by left).
    rewrite IHl; [done |]. intros y Hy. apply Hf. by right.
  - rewrite deepcopy_from_dict. simpl in Hf. rewrite forallb_forall in Hf.
    rewrite deepcopy_items_entity_free; [done |].
    rewrite List.Forall_forall in *. intros x Hx. apply IH; [done | by apply Hf].
Qed.

Lemma deepcopy_entity_free v s :
  entity_free v = true -> deepcopy v s = (Ok v, s).
Proof.
  intros H. unfold deepcopy. rewrite (deepcopy_from_entity_free v H).
  by destruct s.
Qed.

Lemma encode_entity_free v : entity_free v = true -> encode v = v.
Proof.
  induction v as [| b | z | s | l IH | d IH | o c d IH] using value_ind';
    intros Hp; try done.
  - simpl in *. f_equal. rewrite forallb_forall in Hp.
    rewrite List.Forall_forall in IH.
    rewrite <- (map_id l) at 2. apply map_ext_in. intros x Hx.
    apply IH; [done | by apply Hp].
  - simpl in *. f_equal.
    rewrite forallb_forall in Hp. rewrite List.Forall_forall in IH.
    rewrite <- (map_id d) at 2. apply map_ext_in. intros [k x] Hx. simpl.
    f_equal. apply (IH (k, x)); [done | by apply (Hp (k, x))].
Qed.

Lemma encode_idem v : encode (encode v) = encode v.
Proof. apply encode_entity_free, entity_free_encode. Qed.

Lemma encode_idem_list (l : list value) :
  map encode (map encode l) = map encode l.
Proof. rewrite map_map. apply map_ext. intros. apply encode_idem. Qed.

Lemma encode_idem_items (d : pydict) :
  map (fun kv => (fst kv, encode (snd kv)))
      (map (fun kv => (fst kv, encode (snd kv))) d) =
  map (fun kv => (fst kv, encode (snd kv))) d.
Proof.
  rewrite map_map. apply map_ext. intros. simpl. by rewrite encode_idem.
Qed.

(** ** Dictionaries that end with the two tags *)

Lemma dict_set_notin {A} k (v : A) d :
  ~ In k (map fst d) -> dict_set k v d = (d ++ [(k, v)])%list.
Proof.
  induction d as [| [k0 v0] d IH]; simpl; [done |].
  destruct (String.eqb_spec k k0) as [-> | Hk]; simpl.
  - intros H. exfalso. apply H. by left.
  - intros H. rewrite IH; [done | tauto].
Qed.

Lemma dict_update_tags (d : pydict) (q m : value) :
  ~ In "__module__" (map fst d) -> ~ In "__qualname__" (map fst d) ->
  dict_update d [("__qualname__", q); ("__module__", m)] =
    (d ++ [("__qualname__", q); ("__module__", m)])%list.
Proof.
  intros Hm Hq. unfold dict_update. simpl.
  rewrite (dict_set_notin "__qualname__") by done.
  rewrite dict_set_notin.
  - by rewrite <- app_assoc.
  - rewrite map_app. simpl. intros H. apply in_app_or in H as [H | [H | []]];
      [done | discriminate].
Qed.

Lemma dict_get_app_notin {A} k (d1 d2 : list (string * A)) :
  ~ In k (map fst d1) -> dict_get k (d1 ++ d2) = dict_get k d2.
Proof.
  induction d1 as [| [k0 v0] d1 IH]; simpl; [done |].
  intros H. destruct (String.eqb_spec k k0) as [-> | Hk]; [tauto |].
  apply IH. tauto.
Qed.

Lemma dict_remove_app_notin {A} k (d1 d2 : list (string * A)) :
  ~ In k (map fst d1) ->
  dict_remove k (d1 ++ d2) = (d1 ++ dict_remove k d2)%list.
Proof.
  induction d1 as [| [k0 v0] d1 IH]; simpl; [done |].
  intros H. destruct (String.eqb_spec k k0) as [-> | Hk]; [tauto |].
  rewrite IH; [done | tauto].
Qed.

(** A dictionary that ends with its two tags: the tags are found, and
    what is left once they are popped is the dictionary before them. *)
Lemma tagged_dict_pops (d : pydict) (q m : value) :
  ~ In "__module__" (map fst d) -> ~ In "__qualname__" (map fst d) ->
  let items := (d ++ [("__qualname__", q); ("__module__", m)])%list in
  dict_get "__module__" items = Some m /\
  dict_get "__qualname__" items = Some q /\
  dict_remove "__qualname__" (dict_remove "__module__" items) = d.
Proof.
  intros Hm Hq items. unfold items.
  rewrite !dict_get_app_notin by done.
  rewrite (dict_remove_app_notin "__module__") by done. simpl.
  rewrite (dict_remove_app_notin "__qualname__") by done. simpl.
  by rewrite app_nil_r.
Qed.

(** ** The constructor on the fields of its class *)

Lemma bind_params_sub (d : pydict) :
  List.NoDup (map fst d) ->
  forall sg d', map fst d' = map fst sg ->
    (forall kv, In kv d' -> In kv d) -> bind_params sg d = Some d'.
Proof.
  intros Hnd. induction sg as [| [p dflt] sg IH]; intros [| [k v] d'] Hk Hsub;
    try discriminate; [done |].
  simpl in Hk. injection Hk as -> Hk. simpl.
  rewrite (dict_get_in p v d Hnd); [| apply Hsub; by left].
  rewrite (IH d' Hk); [done |]. intros kv Hkv. apply Hsub. by right.
Qed.

Lemma bind_params_exact sg (d : pydict) :
  List.NoDup (map fst sg) -> map fst d = map fst sg ->
  bind_params sg d = Some d /\
  forallb (fun kv => dict_mem (fst kv) sg) d = true.
Proof.
  intros Hnd Hk. split.
  - apply bind_params_sub; [by rewrite Hk | done | done].
  - apply forallb_forall. intros [k v] Hin. simpl. apply dict_mem_true.
    destruct (dict_get_is_Some_in k sg) as [x Hx]; [| eauto].
    rewrite <- Hk. apply in_map_iff. by exists (k, v).
Qed.

Lemma encode_ent_tags o c d :
  exists items,
    encode (VEnt o c d) = VDict items /\
    dict_get "__qualname__" items = Some (VStr (snd c)) /\
    dict_get "__module__" items = Some (VStr (fst c)).
Proof.
  eexists. split; [reflexivity |]. apply dict_get_update_tags.
Qed.

Lemma encode_ent_class o c d o' c' d' :
  encode (VEnt o c d) = encode (VEnt o' c' d') -> c = c'.
Proof.
  intros H.
  destruct (encode_ent_tags o c d) as (i1 & E1 & Q1 & M1).
  destruct (encode_ent_tags o' c' d') as (i2 & E2 & Q2 & M2).
  rewrite H, E2 in E1. injection E1 as ->.
  destruct c, c'. simpl in *. congruence.
Qed.

Lemma plain_encode v : wf_keys v = true -> plain (encode v) = true.
Proof.
  induction v as [| | | | l IH | d IH | o c d IH] using value_ind';
    intros Hw; try done.
  - cbn [encode plain]. simpl in Hw. rewrite forallb_forall in Hw.
    apply forallb_forall. intros x Hx.
    apply in_map_iff in Hx as (y & <- & Hy).
    rewrite List.Forall_forall in IH. apply IH; [done | by apply Hw].
  - cbn [encode plain]. simpl in Hw. apply andb_prop in Hw as [Hk Hw].
    rewrite forallb_forall in Hw. apply andb_true_intro. split.
    + unfold distinct_keys in *. by rewrite map_fst_map_values.
    + apply forallb_forall. intros x Hx.
      apply in_map_iff in Hx as (y & <- & Hy).
      rewrite List.Forall_forall in IH. apply (IH y); [done | by apply Hw].
  - cbn [encode plain]. simpl in Hw. apply andb_prop in Hw as [Hk Hw].
    rewrite forallb_forall in Hw. apply andb_true_intro. split.
    + unfold distinct_keys in *. apply NoDup_distinct.
      unfold dict_update. simpl. do 2 apply NoDup_dict_set.
      rewrite map_fst_map_values. by apply distinct_NoDup.
    + apply forallb_forall. intros x Hx.
      apply in_dict_update in Hx as [Hx | Hx].
      * apply in_map_iff in Hx as (y & <- & Hy).
        rewrite List.Forall_forall in IH. apply (IH y); [done | by apply Hw].
      * by destruct Hx as [<- | [<- | []]].
Qed.

Lemma dict_mem_map (f : value -> value) k (d : pydict) :
  dict_mem k (map (fun kv => (fst kv, f (snd kv))) d) = dict_mem k d.
Proof. unfold dict_mem. rewrite dict_get_map. by destruct (dict_get k d). Qed.

Lemma is_gufe_dict_encode_ent o c d : is_gufe_dict (encode (VEnt o c d)) = true.
Proof.
  destruct (encode_ent_tags o c d) as (items & -> & Hq & Hm).
  unfold is_gufe_dict, dict_mem. by rewrite Hq, Hm.
Qed.

Lemma alloc_bind {A} v (k : nat -> M A) s :
  bind (alloc v) k s =
    k (next_loc s)
      (State (TOKENIZABLE_CLASS_REGISTRY s) (TOKENIZABLE_REGISTRY s)
             (collected s) (<[next_loc s := v]> (store s))
             (S (next_loc s)) (next_oid s)).
Proof. reflexivity. Qed.

Lemma Forall2_encode_list (xs ys : list value) :
  Forall2 (fun x y => encode y = x) xs ys -> map encode ys = xs.
Proof. induction 1; simpl; congruence. Qed.

Lemma Forall2_encode_items (xs ys : pydict) :
  Forall2 (fun x y => fst y = fst x /\ encode (snd y) = snd x) xs ys ->
  map (fun kv => (fst kv, encode (snd kv))) ys = xs /\ map fst ys = map fst xs.
Proof.
  induction 1 as [| [k x] [k' y] xs ys [H1 H2] H IH]; simpl in *; [done |].
  destruct IH as [IH1 IH2]. by rewrite H1, H2, IH1, IH2.
Qed.

Lemma encode_eq_str y t : encode y = VStr t -> y = VStr t.
Proof. by destruct y. Qed.

Lemma deps_depth a :
  forall b, In b (deps a) -> depth (encode b) <= depth (encode a).
Proof.
  induction a as [| | | | l IH | d IH | o c d IH] using value_ind';
    intros b0 Hb; try done.
  - simpl in Hb. apply in_flat_map in Hb as (x & Hx & Hbx).
    rewrite List.Forall_forall in IH. specialize (IH x Hx b0 Hbx).
    pose proof (depth_list_in (encode x) (map encode l) (in_map encode l x Hx)).
    cbn [encode]. lia.
  - simpl in Hb. apply in_flat_map in Hb as (x & Hx & Hbx).
    rewrite List.Forall_forall in IH. specialize (IH x Hx b0 Hbx).
    pose proof (depth_dict_in _ _
                  (in_map (fun kv => (fst kv, encode (snd kv))) d x Hx)).
    cbn [encode]. simpl in *. lia.
  - destruct Hb as [<- | []]. done.
Qed.

Lemma depth_dict_app_l (d1 d2 : pydict) :
  depth (VDict d1) <= depth (VDict (d1 ++ d2)).
Proof.
  cbn [depth]. apply le_n_S. apply foldr_max_bound; [lia |].
  intros kv Hkv.
  pose proof (depth_dict_in kv (d1 ++ d2) (in_or_app _ _ _ (or_introl Hkv)))
    as H. cbn [depth] in H. lia.
Qed.

Section RoundTrip.

Variable CLASSES : gmap cname (list (string * option value)).
Variable REMAPPED_CLASSES : gmap cname cname.
Variable py_str_item : string * value -> string.
Variable py_str_items : list (string * value) -> string.
Variable md5_hexdigest : string -> string.

Local Abbreviation key := (key CLASSES py_str_item py_str_items md5_hexdigest).
Local Abbreviation key_of :=
  (key_of CLASSES py_str_item py_str_items md5_hexdigest).
Local Abbreviation from_dict :=
  (from_dict CLASSES REMAPPED_CLASSES py_str_item py_str_items md5_hexdigest).
Local Abbreviation _from_dict := (_from_dict CLASSES REMAPPED_CLASSES).
Local Abbreviation exact_registry :=
  (exact_registry CLASSES py_str_item py_str_items md5_hexdigest).
Local Abbreviation exact_among :=
  (exact_among CLASSES py_str_item py_str_items md5_hexdigest).
Local Abbreviation decode_inv :=
  (decode_inv CLASSES py_str_item py_str_items md5_hexdigest).
Local Abbreviation shaped := (shaped CLASSES).

Lemma key_of_same_encode o c d o' d' :
  encode (VEnt o c d) = encode (VEnt o' c d') ->
  key_of (VEnt o c d) = key_of (VEnt o' c d').
Proof.
  intros H. unfold key_of, token_of, stripped_items. by rewrite H.
Qed.

Lemma key_of_shaped o c d :
  shaped (VEnt o c d) -> exists k, key_of (VEnt o c d) = Ok k.
Proof.
  intros (sg & Hc & Hk & Hnd & _).
  unfold key_of, token_of.
  rewrite (stripped_items_shaped CLASSES o c sg d Hc Hnd Hk). eauto.
Qed.

Lemma exact_registry_ext S s s' :
  TOKENIZABLE_REGISTRY s' = TOKENIZABLE_REGISTRY s ->
  collected s' = collected s ->
  exact_registry S s -> exact_registry S s'.
Proof.
  intros Hr Hc H b k v Hb Hk Hv Ha. rewrite Hr in Hv.
  apply (H b k v Hb Hk Hv). destruct v; try done. simpl in *. by rewrite <- Hc.
Qed.

Lemma decode_inv_ext S s0 s s' :
  TOKENIZABLE_CLASS_REGISTRY s' = TOKENIZABLE_CLASS_REGISTRY s ->
  TOKENIZABLE_REGISTRY s' = TOKENIZABLE_REGISTRY s ->
  collected s' = collected s ->
  decode_inv S s0 s -> decode_inv S s0 s'.
Proof.
  intros H1 H2 H3 (A1 & A2 & A3). split; [congruence |].
  split; [congruence |]. by eapply exact_registry_ext.
Qed.

Lemma decode_inv_quiet S s0 s s' :
  quiet s s' -> decode_inv S s0 s -> decode_inv S s0 s'.
Proof. intros (H1 & H2 & H3 & _). by apply decode_inv_ext. Qed.

Lemma lookup_live_exact S s b k obj :
  exact_registry S s -> In b S -> key_of b = Ok k ->
  is_gufe_obj obj = true -> encode obj = encode b ->
  is_gufe_obj (lookup_live s k obj) = true /\
  encode (lookup_live s k obj) = encode b.
Proof.
  intros Hex Hb Hk Ho He. unfold lookup_live.
  destruct (TOKENIZABLE_REGISTRY s !! k) as [v |] eqn:Hv; [| done].
  destruct (alive s v) eqn:Ha; [| done].
  destruct (Hex b k v Hb Hk Hv Ha) as [H1 H2].
  destruct v; try done.
Qed.

Lemma decode_inv_registered S s0 s b k obj :
  decode_inv S s0 s -> exact_among S -> In b S -> key_of b = Ok k ->
  is_gufe_obj obj = true -> encode obj = encode b ->
  decode_inv S s0 (registered k obj s).
Proof.
  intros (A1 & A2 & A3) Ham Hb Hk Ho He.
  unfold registered, registry_setdefault. simpl.
  destruct (TOKENIZABLE_REGISTRY s !! k) as [v |] eqn:Hv; [done |].
  split; [done |]. split; [done |].
  intros b' k' v' Hb' Hk' Hv' Ha'. simpl in Hv'.
  destruct (decide (k = k')) as [<- | Hne].
  - rewrite lookup_insert_eq in Hv'. injection Hv' as <-.
    split; [done |]. rewrite He. apply Ham; try done. congruence.
  - rewrite lookup_insert_ne in Hv' by done.
    apply (A3 b' k' v' Hb' Hk' Hv'). by destruct v'.
Qed.

(** Decoding a dictionary that holds the fields of [b] (possibly with
    instances already decoded inside) followed by the tags of [b]'s
    class: the result is an instance with the dictionary form of [b]. *)
Lemma from_dict_tagged fuel S s0 s l o c d attrs' :
  shaped (VEnt o c d) ->
  TOKENIZABLE_CLASS_REGISTRY s0 !! c = Some c ->
  depth (encode (VEnt o c d)) <= fuel ->
  In (VEnt o c d) S -> exact_among S -> decode_inv S s0 s ->
  store s !! l =
    Some (VDict (attrs' ++ [("__qualname__", VStr (snd c));
                            ("__module__", VStr (fst c))])%list) ->
  map fst attrs' = map fst d ->
  map (fun kv => (fst kv, encode (snd kv))) attrs' =
    map (fun kv => (fst kv, encode (snd kv))) d ->
  exists r s',
    from_dict fuel l s = (Ok r, s') /\
    is_gufe_obj r = true /\
    encode r = encode (VEnt o c d) /\
    decode_inv S s0 s'.
Proof.
  intros (sg & Hc & Hk & Hnd & Hnm & Hnq) Hreg Hd Hin Ham Hinv Hst Hk' He.
  assert (Hk'' : map fst attrs' = map fst sg) by congruence.
  destruct (tagged_dict_pops attrs' (VStr (snd c)) (VStr (fst c)))
    as (Gm & Gq & Grest); [by rewrite Hk'' | by rewrite Hk'' |].
  destruct (bind_params_exact sg attrs' Hnd Hk'') as [Hb Hf].
  destruct Hinv as (I1 & I2 & I3).
  assert (Hfd := _from_dict_ok CLASSES REMAPPED_CLASSES s l _ (fst c) (snd c)
                   c sg attrs' Hst Gm Gq).
  rewrite Grest in Hfd.
  destruct c as [m q]. simpl in *.
  specialize (Hfd ltac:(by rewrite I1) Hc Hf Hb).
  set (obj := VEnt (next_oid s) (m, q) attrs') in *.
  assert (Hobj : encode obj = encode (VEnt o (m, q) d)).
  { unfold obj. cbn [encode]. by rewrite He. }
  destruct (key_of_shaped o (m, q) d) as [k Hkey].
  { exists sg. done. }
  assert (Hkey' : key_of obj = Ok k).
  { rewrite <- Hkey. by apply key_of_same_encode. }
  destruct (from_dict_ok CLASSES REMAPPED_CLASSES py_str_item py_str_items
              md5_hexdigest fuel l s _ _ _ _ k Hfd)
    as (s2 & Hq2 & Hrun);
    [change (depth (encode obj) <= fuel); by rewrite Hobj | done |].
  assert (Hinv2 : decode_inv S s0 s2).
  { apply (decode_inv_quiet S s0 _ s2 Hq2).
    apply (decode_inv_ext S s0 s); try done. }
  eexists _, _. split; [exact Hrun |].
  destruct (lookup_live_exact S s2 (VEnt o (m, q) d) k obj) as [L1 L2];
    try done; [by destruct Hinv2 as (_ & _ & ?) |].
  split; [done |]. split; [done |].
  by apply (decode_inv_registered S s0 s2 (VEnt o (m, q) d)).
Qed.

(** The walk of [dict_decode_dependencies] below the root, on the
    dictionary form of [a]: every encoded instance met becomes an
    instance with the same dictionary form. *)
Lemma decode_walk fuel S s0 :
  exact_among S ->
  (forall b, In b S -> shaped b) ->
  (forall o c d, In (VEnt o c d) S ->
                 TOKENIZABLE_CLASS_REGISTRY s0 !! c = Some c) ->
  (forall b, In b S -> depth (encode b) <= fuel) ->
  forall fuel' a s,
    untagged a = true ->
    (forall b, In b (deps a) -> In b S) ->
    depth (encode a) <= fuel' ->
    decode_inv S s0 s ->
    exists a' s',
      modify_dependencies fuel' (from_dict fuel) is_gufe_dict false
        (encode a) s = (Ok a', s') /\
      encode a' = encode a /\ decode_inv S s0 s'.
Proof.
  intros Ham Hsh Hreg Hdep.
  induction fuel' as [| fuel' IH]; intros a s Hu Hdeps Hd Hinv.
  - pose proof (depth_pos (encode a)). lia.
  - rewrite modify_dependencies_S.
    rewrite (bind_ok _ _ _ _ _
               (deepcopy_entity_free _ s (entity_free_encode a))).
    destruct a as [| b | z | str | l | d | o c d].
    + exists VNone, s. done.
    + exists (VBool b), s. done.
    + exists (VInt z), s. done.
    + exists (VStr str), s. done.
    + cbn [encode is_gufe_dict andb]. rewrite bind_ret.
      destruct (mapM_inv
                  (modify_dependencies fuel' (from_dict fuel) is_gufe_dict false)
                  (decode_inv S s0) (fun x y => encode y = x)
                  (map encode l)) with (s := s) as (ys & s' & E & HQ & HI);
        [| done |].
      { intros x Hx s1 Hs1. apply in_map_iff in Hx as (ai & <- & Hai).
        destruct (IH ai s1) as (a' & s2 & E2 & He2 & Hi2); try done.
        - simpl in Hu. rewrite forallb_forall in Hu. by apply Hu.
        - intros b Hb. apply Hdeps. simpl. apply in_flat_map. eauto.
        - pose proof (depth_list_in (encode ai) (map encode l)
                        (in_map encode l ai Hai)).
          cbn [encode] in Hd. lia.
        - by exists a', s2. }
      rewrite (bind_ok _ _ _ _ _ E). exists (VList ys), s'.
      split; [done |]. split; [| done].
      cbn [encode]. by rewrite (Forall2_encode_list _ _ HQ).
    + assert (Hnot : is_gufe_dict (encode (VDict d)) = false).
      { cbn [encode is_gufe_dict]. rewrite !dict_mem_map.
        simpl in Hu. apply andb_prop in Hu as [Hu _].
        by apply negb_true_iff in Hu. }
      rewrite Hnot. cbn [andb]. rewrite bind_ret. cbn [encode].
      destruct (mapM_inv
                  (fun kv =>
                     let* v := modify_dependencies fuel' (from_dict fuel)
                                 is_gufe_dict false (snd kv) in
                     ret (fst kv, v))
                  (decode_inv S s0)
                  (fun x y => fst y = fst x /\ encode (snd y) = snd x)
                  (map (fun kv => (fst kv, encode (snd kv))) d))
        with (s := s) as (ys & s' & E & HQ & HI); [| done |].
      { intros x Hx s1 Hs1. apply in_map_iff in Hx as (ai & <- & Hai).
        destruct (IH (snd ai) s1) as (a' & s2 & E2 & He2 & Hi2); try done.
        - simpl in Hu. apply andb_prop in Hu as [_ Hu].
          rewrite forallb_forall in Hu. by apply Hu.
        - intros b Hb. apply Hdeps. simpl. apply in_flat_map. eauto.
        - pose proof (depth_dict_in _ _
                        (in_map (fun kv => (fst kv, encode (snd kv))) d ai Hai)).
          cbn [encode] in Hd. simpl in *. lia.
        - exists (fst ai, a'), s2. simpl.
          by rewrite (bind_ok _ _ _ _ _ E2). }
      rewrite (bind_ok _ _ _ _ _ E). exists (VDict ys), s'.
      split; [done |]. split; [| done].
      cbn [encode]. by destruct (Forall2_encode_items _ _ HQ) as [-> _].
    + rewrite is_gufe_dict_encode_ent. cbn [andb negb].
      assert (Hb : In (VEnt o c d) S) by (apply Hdeps; by left).
      destruct (Hsh _ Hb) as (sg & Hc & Hk & Hnd & Hnm & Hnq).
      unfold bind at 1. rewrite alloc_bind.
      match goal with
      | |- context [from_dict fuel ?l ?s1] =>
          assert (H5 : store s1 !! l =
                       Some (VDict
                               (map (fun kv => (fst kv, encode (snd kv))) d ++
                                [("__qualname__", VStr (snd c));
                                 ("__module__", VStr (fst c))])%list));
          [| destruct (from_dict_tagged fuel S s0 s1 l o c d
                         (map (fun kv => (fst kv, encode (snd kv))) d)
                         (Hsh _ Hb) (Hreg _ _ _ Hb) (Hdep _ Hb) Hb Ham
                         (decode_inv_ext S s0 s s1 eq_refl eq_refl eq_refl Hinv)
                         H5 (map_fst_map_values _ _) (encode_idem_items _))
              as (r & s2 & E2 & Hr & He & Hi)]
      end.
      * cbn [store]. rewrite lookup_insert_eq. cbn [encode].
        rewrite dict_update_tags; [done | |];
          by rewrite map_fst_map_values, Hk.
      * rewrite E2. exists r, s2. destruct r; try discriminate. done.
Qed.

End RoundTrip.

(** * The claims *)

Section Claims.

Variable CLASSES : gmap cname (list (string * option value)).
Variable REMAPPED_CLASSES : gmap cname cname.
Variable py_str : value -> string.
Variable py_str_item : string * value -> string.
Variable py_str_items : list (string * value) -> string.
Variable md5_hexdigest : string -> string.

Local Abbreviation key := (key CLASSES py_str_item py_str_items md5_hexdigest).
Local Abbreviation from_dict :=
  (from_dict CLASSES REMAPPED_CLASSES py_str_item py_str_items md5_hexdigest).
Local Abbreviation _from_dict := (_from_dict CLASSES REMAPPED_CLASSES).
Local Abbreviation from_shallow_dict :=
  (from_shallow_dict CLASSES REMAPPED_CLASSES py_str_item py_str_items
     md5_hexdigest).
Local Abbreviation dict_decode_dependencies :=
  (dict_decode_dependencies CLASSES REMAPPED_CLASSES py_str_item
     py_str_items md5_hexdigest).
Local Abbreviation key_decode_dependencies :=
  (key_decode_dependencies CLASSES REMAPPED_CLASSES py_str py_str_item
     py_str_items md5_hexdigest).
Local Abbreviation key_encode_dependencies :=
  (key_encode_dependencies CLASSES py_str_item py_str_items md5_hexdigest).
Local Abbreviation __eq__ := (__eq__ CLASSES).
Local Abbreviation to_keyed_dict :=
  (to_keyed_dict CLASSES py_str_item py_str_items md5_hexdigest).
Local Abbreviation key_of :=
  (key_of CLASSES py_str_item py_str_items md5_hexdigest).
Local Abbreviation key_encode :=
  (key_encode CLASSES py_str_item py_str_items md5_hexdigest).
Local Abbreviation tokenize :=
  (tokenize CLASSES py_str_item py_str_items md5_hexdigest).
Local Abbreviation token_of :=
  (token_of CLASSES py_str_item py_str_items md5_hexdigest).
Local Abbreviation keyable :=
  (keyable CLASSES py_str_item py_str_items md5_hexdigest).

(** C2.  Comparing an instance with a value that is not an instance of
    its class does not return a "not equal" result: the comparison calls
    [NotImplemented] and the call raises [TypeError], leaving the state
    as it was. *)
Theorem eq_other_type_raises fuel o cls attrs other s :
  isinstance other cls = false ->
  __eq__ fuel (VEnt o cls attrs) other s =
    (Raise (TypeError "'NotImplementedType' object is not callable"), s).
Proof. intros H. unfold __eq__. rewrite H. reflexivity. Qed.

(** What [_from_dict] has done to the caller's dictionary once both tags
    have been looked for. *)
Lemma _from_dict_store s dct items :
  store s !! dct = Some (VDict items) ->
  dct < next_loc s ->
  dict_mem "__module__" items = true ->
  store (snd (_from_dict dct s)) !! dct =
    Some (VDict (dict_remove "__qualname__" (dict_remove "__module__" items)))
  /\ next_loc s <= next_loc (snd (_from_dict dct s)).
Proof.
  intros Hst Hlt Hm. apply dict_mem_true in Hm as [m Hm].
  unfold _from_dict.
  rewrite (bind_ok _ _ _ _ _ (pop_ok _ _ _ _ _ Hst Hm)).
  destruct (dict_get "__qualname__" (dict_remove "__module__" items))
    as [q |] eqn:Hq.
  - erewrite bind_ok; [| eapply pop_ok; [apply lookup_insert_eq | exact Hq]].
    simpl. rewrite insert_insert_eq.
    match goal with
    | |- context [snd (_ ?s1)] =>
        destruct (keeps_resolve CLASSES REMAPPED_CLASSES (S dct) dct m q s1)
          as [Hk1 Hk2]; [simpl; lia |]
    end.
    simpl in *. split; [| lia].
    rewrite Hk2 by lia. apply lookup_insert_eq.
  - erewrite bind_raise; [| eapply pop_missing; [apply lookup_insert_eq | exact Hq]].
    simpl. rewrite lookup_insert_eq.
    split; [| lia]. by rewrite (dict_remove_absent "__qualname__").
Qed.




(** C6.  Keyed encoding of an instance returns the instance's own shallow
    dictionary, type tags included, in which every nested instance (and
    nothing else) has become the reference record of its key; the result
    is never itself a reference record.  It does so whenever the
    recursion depth suffices and the keys of the nested instances can be
    computed. *)
Theorem to_keyed_dict_keeps_root fuel o cls attrs s :
  depth (VEnt o cls attrs) <= fuel ->
  keyable (VDict attrs) = true ->
  let items :=
    map (fun kv => (fst kv, key_encode (snd kv)))
        (dict_update attrs (module_qualname cls)) in
  (exists s', to_keyed_dict fuel (VEnt o cls attrs) s = (Ok (VDict items), s')) /\
  map fst items = map fst (dict_update attrs (module_qualname cls)) /\
  dict_get "__qualname__" items = Some (VStr (snd cls)) /\
  dict_get "__module__" items = Some (VStr (fst cls)) /\
  (forall k, VDict items <> GufeKey_to_dict k).
Proof.
  intros Hd Hk items.
  assert (Hq : dict_get "__qualname__" items = Some (VStr (snd cls)) /\
               dict_get "__module__" items = Some (VStr (fst cls))).
  { unfold items, module_qualname. rewrite !dict_get_map.
    destruct (dict_get_update_tags attrs (VStr (snd cls)) (VStr (fst cls)))
      as [-> ->]. done. }
  split; [| split; [| split; [| split]]]; try tauto.
  - unfold to_keyed_dict, key_encode_dependencies, to_shallow_dict.
    cbn [to_dict]. rewrite bind_ret.
    destruct fuel as [| fuel]; [pose proof (depth_pos (VEnt o cls attrs)); lia |].
    rewrite modify_dependencies_S.
    destruct (deepcopy_run (VDict (dict_update attrs (module_qualname cls))) s)
      as (v1 & s1 & E1 & Her & Hq1).
    rewrite (bind_ok _ _ _ _ _ E1).
    destruct (erase_dict_inv _ _ Her) as [d1 ->].
    cbn [is_gufe_obj andb]. rewrite bind_ret.
    pose proof (depth_shallow o cls attrs) as Hsh.
    rewrite <- (erase_depth _ _ Her) in Hsh.
    assert (Hk1 : keyable (VDict d1) = true).
    { rewrite (erase_keyable _ _ _ _ _ _ Her).
      rewrite keyable_dict.
      apply forallb_forall. intros kv Hin.
      apply in_dict_update in Hin as [Hin | Hin].
      - simpl in Hk. rewrite forallb_forall in Hk. by apply Hk.
      - destruct Hin as [<- | [<- | []]]; done. }
    destruct (walk_items_run calm
                (modify_dependencies fuel
                   (fun l => let* o := load l in
                             let* k := key (S fuel) o in
                             ret (GufeKey_to_dict k))
                   is_gufe_obj false)
                key_encode d1 s1) as (s2 & E2 & Hq2); [apply calm_refl | |].
    { intros x Hx s' Hs'.
      destruct (key_encode_walk CLASSES py_str_item py_str_items md5_hexdigest
                  (S fuel) fuel ltac:(lia) (snd x) s') as (s'' & E & Hq').
      - pose proof (depth_dict_in x d1 Hx). lia.
      - simpl in Hk1. rewrite forallb_forall in Hk1. by apply Hk1.
      - exists s''. split; [done |]. eapply calm_trans; eauto. }
    rewrite (bind_ok _ _ _ _ _ E2). exists s2.
    unfold ret. do 2 f_equal.
    pose proof (erase_key_encode CLASSES py_str_item py_str_items
                  md5_hexdigest _ _ Her) as Hke.
    simpl in Hke. by injection Hke.
  - unfold items. rewrite map_map. reflexivity.
  - intros k Hc. injection Hc as Hc. rewrite Hc in Hq. by destruct Hq.
Qed.

(** The stripped dictionary form, the token and the key of an instance
    that has all the fields of its class, whatever its identity and the
    state it is asked in. *)
Lemma tokenization_of_shaped fuel o cls sg attrs t :
  CLASSES !! cls = Some sg ->
  List.NoDup (map fst sg) ->
  map fst attrs = map fst sg ->
  depth (encode (VEnt o cls attrs)) <= fuel ->
  let items :=
    List.filter (fun kv => negb (is_default (_defaults CLASSES cls) kv))
      (dict_update (map (fun kv => (fst kv, encode (snd kv))) attrs)
                   (module_qualname cls)) in
  let token := md5_hexdigest (py_str_items (sorted py_str_item items)) in
  fst (GufeTokenizable_to_dict CLASSES fuel (VEnt o cls attrs) false t)
    = Ok (VDict items) /\
  fst (tokenize fuel (VEnt o cls attrs) t) = Ok token /\
  fst (key fuel (VEnt o cls attrs) t) = Ok (snd cls ++ "-" ++ token).
Proof.
  intros Hc Hnd Hk Hd items token.
  pose proof (stripped_items_shaped CLASSES o cls sg attrs Hc Hnd Hk) as Hs.
  fold items in Hs. split; [| split].
  - destruct (to_dict_stripped_run CLASSES fuel o cls attrs t Hd)
      as (s1 & E & _). by rewrite E, Hs.
  - destruct (tokenize_run CLASSES py_str_item py_str_items md5_hexdigest
                fuel o cls attrs t Hd) as (s1 & _ & E).
    rewrite E. unfold token_of. by rewrite Hs.
  - destruct (key_run CLASSES py_str_item py_str_items md5_hexdigest
                fuel o cls attrs t Hd) as (s1 & _ & E).
    rewrite E. unfold key_of, token_of. by rewrite Hs.
Qed.


Local Abbreviation GufeTokenizable_from_dict :=
  (GufeTokenizable_from_dict CLASSES REMAPPED_CLASSES py_str_item
     py_str_items md5_hexdigest).
Local Abbreviation exact_registry :=
  (exact_registry CLASSES py_str_item py_str_items md5_hexdigest).
Local Abbreviation exact_among :=
  (exact_among CLASSES py_str_item py_str_items md5_hexdigest).
Local Abbreviation decode_inv :=
  (decode_inv CLASSES py_str_item py_str_items md5_hexdigest).
Local Abbreviation shaped := (shaped CLASSES).

(** Two instances with the same dictionary form are equal for [==] and
    have the same key. *)
Lemma same_form_equal fuel r o c attrs :
  is_gufe_obj r = true ->
  encode r = encode (VEnt o c attrs) ->
  shaped (VEnt o c attrs) ->
  wf_keys (VEnt o c attrs) = true ->
  depth (encode (VEnt o c attrs)) <= fuel ->
  (forall t, fst (__eq__ fuel r (VEnt o c attrs) t) = Ok true) /\
  exists k, (forall t, fst (key fuel r t) = Ok k) /\
            (forall t, fst (key fuel (VEnt o c attrs) t) = Ok k).
Proof.
  intros Hr He Hsh Hw Hd.
  destruct r as [| | | | | | o' c' d']; try discriminate.
  pose proof (encode_ent_class _ _ _ _ _ _ He) as ->.
  assert (Hd' : depth (encode (VEnt o' c d')) <= fuel) by by rewrite He.
  split.
  - intros t. unfold __eq__, isinstance.
    rewrite bool_decide_eq_true_2 by done. cbn [negb].
    destruct (to_dict_full_run CLASSES fuel o' c d' t Hd') as (t1 & E1 & _).
    rewrite (bind_ok _ _ _ _ _ E1).
    destruct (to_dict_full_run CLASSES fuel o c attrs t1 Hd) as (t2 & E2 & _).
    rewrite (bind_ok _ _ _ _ _ E2). unfold ret. cbn [fst]. rewrite He.
    f_equal. apply py_eq_refl. by apply plain_encode.
  - destruct (key_of_shaped CLASSES py_str_item py_str_items md5_hexdigest
                o c attrs Hsh) as [k Hk].
    exists k. split; intros t.
    + destruct (key_run CLASSES py_str_item py_str_items md5_hexdigest
                  fuel o' c d' t Hd') as (t1 & _ & E).
      rewrite E.
      rewrite (key_of_same_encode CLASSES py_str_item py_str_items
                 md5_hexdigest o' c d' o attrs He).
      by rewrite Hk.
    + destruct (key_run CLASSES py_str_item py_str_items md5_hexdigest
                  fuel o c attrs t Hd) as (t1 & _ & E).
      rewrite E. by rewrite Hk.
Qed.


(** [_from_dict] on a dictionary whose tags name a class that is not in
    the class registry and that the remap table sends elsewhere. *)
Lemma _from_dict_remapped s l items m q new sg attrs :
  store s !! l = Some (VDict items) ->
  dict_get "__module__" items = Some (VStr m) ->
  dict_get "__qualname__" items = Some (VStr q) ->
  TOKENIZABLE_CLASS_REGISTRY s !! (m, q) = None ->
  REMAPPED_CLASSES !! (m, q) = Some new ->
  CLASSES !! new = Some sg ->
  let rest := dict_remove "__qualname__" (dict_remove "__module__" items) in
  forallb (fun kv => dict_mem (fst kv) sg) rest = true ->
  bind_params sg rest = Some attrs ->
  _from_dict l s =
    (Ok (VEnt (next_oid s) new attrs),
     State (<[(m, q) := new]> (TOKENIZABLE_CLASS_REGISTRY s))
           (TOKENIZABLE_REGISTRY s)
           (collected s) (<[l := VDict rest]> (store s))
           (next_loc s) (S (next_oid s))).
Proof.
  intros Hst Hm Hq Hreg Hre Hc rest Hf Hb. unfold _from_dict.
  rewrite (bind_ok _ _ _ _ _ (pop_ok _ _ _ _ _ Hst Hm)).
  erewrite bind_ok; cycle 1.
  { eapply pop_ok; [apply lookup_insert_eq |].
    by rewrite dict_get_remove_ne. }
  cbn [is_None orb]. simpl store. rewrite insert_insert_eq.
  erewrite bind_ok; cycle 1.
  { rewrite get_class_miss by done. rewrite Hre, Hc. reflexivity. }
  erewrite bind_ok; [| apply load_ok; apply lookup_insert_eq].
  by erewrite cls_from_dict_ok.
Qed.

(** C3, as the code has it.  The class registry is looked up first; a
    tag that it does not hold goes through the remap table, the class
    found under the new name is cached under the old tag, and the
    shallow decode of a dictionary tagged with the old name builds an
    instance of that class. *)
Theorem remap_used_when_unregistered fuel s dct items modA old new sg attrs k :
  REMAPPED_CLASSES !! (modA, old) = Some new ->
  TOKENIZABLE_CLASS_REGISTRY s !! (modA, old) = None ->
  CLASSES !! new = Some sg ->
  store s !! dct = Some (VDict items) ->
  dict_get "__module__" items = Some (VStr modA) ->
  dict_get "__qualname__" items = Some (VStr old) ->
  let rest := dict_remove "__qualname__" (dict_remove "__module__" items) in
  forallb (fun kv => dict_mem (fst kv) sg) rest = true ->
  bind_params sg rest = Some attrs ->
  let obj := VEnt (next_oid s) new attrs in
  depth (encode obj) <= fuel ->
  key_of obj = Ok k ->
  TOKENIZABLE_REGISTRY s !! k = None ->
  fst (get_class CLASSES REMAPPED_CLASSES modA old s) = Ok new /\
  TOKENIZABLE_CLASS_REGISTRY
    (snd (get_class CLASSES REMAPPED_CLASSES modA old s)) !! (modA, old)
    = Some new /\
  fst (_from_dict dct s) = Ok obj /\
  fst (from_shallow_dict fuel dct s) = Ok obj.
Proof.
  intros Hre Hreg Hc Hst Hm Hq rest Hf Hb obj Hd Hk Hnone.
  pose proof (_from_dict_remapped s dct items modA old new sg attrs
                Hst Hm Hq Hreg Hre Hc Hf Hb) as Hfd.
  repeat split.
  - rewrite get_class_miss by done. by rewrite Hre, Hc.
  - rewrite get_class_miss by done. rewrite Hre, Hc. simpl.
    apply lookup_insert_eq.
  - by rewrite Hfd.
  - destruct (from_dict_ok CLASSES REMAPPED_CLASSES py_str_item py_str_items
                md5_hexdigest fuel dct s _ _ _ _ k Hfd Hd Hk)
      as (s2 & (_ & Hq2 & _) & Hrun).
    unfold from_shallow_dict. rewrite Hrun. simpl.
    unfold lookup_live. rewrite Hq2. simpl. by rewrite Hnone.
Qed.

(** Class resolution and construction never raise [KeyError]. *)
Lemma resolve_no_KeyError dct (m q : value) s :
  is_None q || is_None m = false ->
  is_KeyError
    (fst (match m, q with
          | VStr m, VStr q =>
              let* cls := get_class CLASSES REMAPPED_CLASSES m q in
              let* d := load dct in
              cls_from_dict CLASSES cls d
          | _, _ => raise (TypeError "import_module")
          end s)) = false.
Proof.
  intros _. destruct m; try done. destruct q; try done.
  unfold bind at 1.
  destruct (TOKENIZABLE_CLASS_REGISTRY s !! (s0, s1)) as [c |] eqn:Hreg.
  - rewrite (get_class_hit CLASSES REMAPPED_CLASSES _ _ _ _ Hreg).
    unfold bind, load. destruct (store s !! dct) as [d |]; [| done].
    unfold cls_from_dict. destruct d; try done.
    destruct (forallb _ _); [| done].
    by destruct (bind_params _ _).
  - rewrite get_class_miss by done.
    destruct (CLASSES !! _); [| done].
    unfold bind, load. simpl. destruct (store s !! dct) as [d |]; [| done].
    unfold cls_from_dict. destruct d; try done.
    destruct (forallb _ _); [| done].
    by destruct (bind_params _ _).
Qed.

Lemma _from_dict_KeyError s dct items :
  store s !! dct = Some (VDict items) ->
  is_KeyError (fst (_from_dict dct s)) = tags_missing items.
Proof.
  intros Hst. unfold tags_missing, _from_dict.
  destruct (dict_get "__module__" items) as [m |] eqn:Hm.
  - rewrite (bind_ok _ _ _ _ _ (pop_ok _ _ _ _ _ Hst Hm)).
    destruct (dict_get "__qualname__" items) as [q |] eqn:Hq.
    + erewrite bind_ok; cycle 1.
      { eapply pop_ok; [apply lookup_insert_eq |].
        by rewrite dict_get_remove_ne. }
      destruct (is_None q || is_None m) eqn:Hn; [done |].
      by apply resolve_no_KeyError.
    + erewrite bind_raise; cycle 1.
      { eapply pop_missing; [apply lookup_insert_eq |].
        by rewrite dict_get_remove_ne. }
      done.
  - by rewrite (bind_raise _ _ _ _ _ (pop_missing _ _ _ _ Hst Hm)).
Qed.


End Claims.

(** ** Symmetry of [==] on plain data *)

Lemma py_eq_dict_spec (d d' : pydict) :
  py_eq (VDict d) (VDict d') = true <->
  length d = length d' /\
  forall k v, In (k, v) d ->
    exists v', dict_get k d' = Some v' /\ py_eq v v' = true.
Proof.
  cbn [py_eq]. rewrite andb_true_iff, Nat.eqb_eq.
  apply and_iff_compat_l.
  induction d as [| [k v] d IH].
  - split; [intros _ k v [] | done].
  - rewrite andb_true_iff, IH. split.
    + intros [H1 H2] k0 v0 [[= <- <-] | Hin]; [| by apply H2].
      destruct (dict_get k d') as [v' |]; [eauto | discriminate].
    + intros H. split.
      * destruct (H k v (or_introl eq_refl)) as (v' & -> & Hv). exact Hv.
      * intros k0 v0 Hin. apply H. by right.
Qed.

Lemma py_eq_list_spec (l l' : list value) :
  py_eq (VList l) (VList l') = true <->
  Forall2 (fun x y => py_eq x y = true) l l'.
Proof.
  cbn [py_eq]. revert l'.
  induction l as [| x l IH]; intros [| y l'].
  - split; [constructor | done].
  - split; [discriminate | inversion 1].
  - split; [discriminate | inversion 1].
  - rewrite andb_true_iff, IH. split.
    + intros [H1 H2]. by constructor.
    + inversion 1; subst. by split.
Qed.

Lemma plain_dict_inv d :
  plain (VDict d) = true ->
  List.NoDup (map fst d) /\ forall k v, In (k, v) d -> plain v = true.
Proof.
  intros H. simpl in H. apply andb_prop in H as [H1 H2]. split.
  - by apply distinct_NoDup.
  - intros k v Hin. rewrite forallb_forall in H2. by apply (H2 (k, v)).
Qed.

Lemma py_eq_dict_half (d d' : pydict) :
  List.NoDup (map fst d) -> List.NoDup (map fst d') ->
  (forall k v v', In (k, v) d -> In (k, v') d' ->
                  py_eq v v' = true -> py_eq v' v = true) ->
  py_eq (VDict d) (VDict d') = true -> py_eq (VDict d') (VDict d) = true.
Proof.
  intros Hnd Hnd' Hsym H.
  apply py_eq_dict_spec in H as [Hlen H].
  apply py_eq_dict_spec. split; [done |].
  assert (Hincl : incl (map fst d') (map fst d)).
  { apply List.NoDup_length_incl; [done | by rewrite !length_map, Hlen |].
    intros k Hk. apply in_map_iff in Hk as ([k0 v0] & <- & Hin).
    destruct (H k0 v0 Hin) as (v' & Hg & _).
    apply dict_get_Some_in in Hg. apply in_map_iff. by exists (k0, v'). }
  intros k v' Hin'.
  assert (Hk : In k (map fst d)).
  { apply Hincl. apply in_map_iff. by exists (k, v'). }
  destruct (dict_get_is_Some_in k d Hk) as [v Hg].
  exists v. split; [done |].
  pose proof (dict_get_Some_in _ _ _ Hg) as Hin.
  destruct (H k v Hin) as (v'' & Hg' & Hv).
  rewrite (dict_get_in k v' d' Hnd' Hin') in Hg'. injection Hg' as <-.
  by apply (Hsym k v v').
Qed.

Lemma py_eq_sym a : forall b,
  plain a = true -> plain b = true -> py_eq a b = py_eq b a.
Proof.
  induction a as [| x | x | x | l IH | d IH | o c d IH] using value_ind';
    intros b Ha Hb.
  - by destruct b.
  - destruct b as [| y | y | | | |]; try done.
    + by destruct x, y.
    + simpl. apply Z.eqb_sym.
  - destruct b as [| y | y | | | |]; try done; simpl; apply Z.eqb_sym.
  - destruct b; try done. simpl. apply String.eqb_sym.
  - destruct b as [| | | | l' | |]; try done.
    apply eq_true_iff_eq. rewrite !py_eq_list_spec.
    simpl in Ha, Hb. rewrite forallb_forall in Ha, Hb.
    rewrite List.Forall_forall in IH.
    revert l' Hb. induction l as [| x l IHl]; intros [| y l'] Hb.
    + done.
    + split; inversion 1.
    + split; inversion 1.
    + assert (Hxy : py_eq x y = py_eq y x).
      { apply IH; [by left | apply Ha; by left | apply Hb; by left]. }
      assert (Hrec : Forall2 (fun x y => py_eq x y = true) l l' <->
                     Forall2 (fun x y => py_eq x y = true) l' l).
      { apply IHl; intros;
          first [ apply IH; [by right | done | done]
                | apply Ha; by right
                | apply Hb; by right ]. }
      split; inversion 1; subst; constructor; try tauto; congruence.
  - destruct b as [| | | | | d' |]; try done.
    destruct (plain_dict_inv d Ha) as [Hnd Hp].
    destruct (plain_dict_inv d' Hb) as [Hnd' Hp'].
    rewrite List.Forall_forall in IH.
    apply eq_true_iff_eq. split; apply py_eq_dict_half; try done.
    + intros k v v' Hin Hin' H.
      pose proof (IH (k, v) Hin v' (Hp k v Hin) (Hp' k v' Hin')) as E.
      simpl in E. by rewrite <- E.
    + intros k v' v Hin' Hin H.
      pose proof (IH (k, v) Hin v' (Hp k v Hin) (Hp' k v' Hin')) as E.
      simpl in E. by rewrite E.
  - discriminate.
Qed.


(** * Further properties of [gufe.base] *)

Section More.

Variable CLASSES : gmap cname (list (string * option value)).
Variable REMAPPED_CLASSES : gmap cname cname.
Variable py_str : value -> string.
Variable py_str_item : string * value -> string.
Variable py_str_items : list (string * value) -> string.
Variable md5_hexdigest : string -> string.

Local Abbreviation key := (key CLASSES py_str_item py_str_items md5_hexdigest).
Local Abbreviation tokenize :=
  (tokenize CLASSES py_str_item py_str_items md5_hexdigest).
Local Abbreviation key_of :=
  (key_of CLASSES py_str_item py_str_items md5_hexdigest).
Local Abbreviation token_of :=
  (token_of CLASSES py_str_item py_str_items md5_hexdigest).
Local Abbreviation get_class := (get_class CLASSES REMAPPED_CLASSES).
Local Abbreviation from_dict :=
  (from_dict CLASSES REMAPPED_CLASSES py_str_item py_str_items md5_hexdigest).
Local Abbreviation _from_dict := (_from_dict CLASSES REMAPPED_CLASSES).
Local Abbreviation from_shallow_dict :=
  (from_shallow_dict CLASSES REMAPPED_CLASSES py_str_item py_str_items
     md5_hexdigest).
Local Abbreviation __eq__ := (__eq__ CLASSES).
Local Abbreviation GufeTokenizable_to_dict :=
  (GufeTokenizable_to_dict CLASSES).
Local Abbreviation shaped := (shaped CLASSES).

(** ** The class registry *)


(** A class that has been registered (as the metaclass does for every
    class at its definition) is what [get_class] returns for its own
    module and qualified name, whatever the remap table says about that
    name; the call changes nothing. *)
Theorem registered_class_resolves cls s :
  let s1 := snd (register_tokenizable_class cls s) in
  get_class (fst cls) (snd cls) s1 = (Ok cls, s1).
Proof.
  intros s1. apply get_class_hit. subst s1. simpl.
  destruct cls as [m q]. apply lookup_insert_eq.
Qed.

(** ** Keys *)

(** Reading the key of an instance registers the instance under its key
    when the key is free, and leaves an entry that is already there as
    it is, a dead one too; no other entry, no class and no liveness
    changes. *)
Theorem key_registers_once fuel o c d s k s' :
  depth (VEnt o c d) <= fuel ->
  key fuel (VEnt o c d) s = (Ok k, s') ->
  TOKENIZABLE_REGISTRY s' !! k =
    Some (match TOKENIZABLE_REGISTRY s !! k with
          | Some v => v
          | None => VEnt o c d
          end) /\
  (forall k', k' <> k ->
     TOKENIZABLE_REGISTRY s' !! k' = TOKENIZABLE_REGISTRY s !! k') /\
  TOKENIZABLE_CLASS_REGISTRY s' = TOKENIZABLE_CLASS_REGISTRY s /\
  collected s' = collected s.
Proof.
  intros Hd H.
  pose proof (depth_encode_le (VEnt o c d)) as Hle.
  destruct (key_run CLASSES py_str_item py_str_items md5_hexdigest
              fuel o c d s) as (s1 & (Q1 & Q2 & Q3 & _) & E); [lia |].
  rewrite E in H. destruct (key_of (VEnt o c d)) as [k0 | e]; [| discriminate].
  injection H as <- <-.
  unfold registered, registry_setdefault. cbn [snd].
  rewrite <- Q2.
  destruct (TOKENIZABLE_REGISTRY s1 !! k0) as [v |] eqn:Hv.
  - by rewrite Hv.
  - simpl. rewrite lookup_insert_eq.
    split; [done |]. split; [| done].
    intros k' Hk'. by apply lookup_insert_ne.
Qed.

Lemma key_same_form fuel o c d o' d' s t :
  encode (VEnt o c d) = encode (VEnt o' c d') ->
  depth (VEnt o c d) <= fuel -> depth (VEnt o' c d') <= fuel ->
  fst (key fuel (VEnt o c d) s) = fst (key fuel (VEnt o' c d') t).
Proof.
  intros He Hda Hdb.
  pose proof (depth_encode_le (VEnt o c d)).
  pose proof (depth_encode_le (VEnt o' c d')).
  destruct (key_run CLASSES py_str_item py_str_items md5_hexdigest
              fuel o c d s) as (s1 & _ & ->); [lia |].
  destruct (key_run CLASSES py_str_item py_str_items md5_hexdigest
              fuel o' c d' t) as (t1 & _ & ->); [lia |].
  rewrite (key_of_same_encode CLASSES py_str_item py_str_items
             md5_hexdigest o c d o' d' He).
  by destruct (key_of (VEnt o' c d')).
Qed.

(** The token and the key of an instance depend on nothing but its full
    dictionary form: two instances with the same form have the same
    token and the same key, in whatever states they are computed. *)
Theorem key_depends_on_form_only fuel a b s t :
  is_gufe_obj a = true -> is_gufe_obj b = true ->
  encode a = encode b ->
  depth a <= fuel -> depth b <= fuel ->
  fst (tokenize fuel a s) = fst (tokenize fuel b t) /\
  fst (key fuel a s) = fst (key fuel b t).
Proof.
  intros Ha Hb He Hda Hdb.
  destruct a as [| | | | | | o c d]; try discriminate.
  destruct b as [| | | | | | o' c' d']; try discriminate.
  pose proof (encode_ent_class _ _ _ _ _ _ He) as <-.
  pose proof (depth_encode_le (VEnt o c d)).
  pose proof (depth_encode_le (VEnt o' c d')).
  split.
  - destruct (tokenize_run CLASSES py_str_item py_str_items md5_hexdigest
                fuel o c d s) as (s1 & _ & ->); [lia |].
    destruct (tokenize_run CLASSES py_str_item py_str_items md5_hexdigest
                fuel o' c d' t) as (t1 & _ & ->); [lia |].
    cbn [fst]. unfold token_of, stripped_items. by rewrite He.
  - by apply key_same_form.
Qed.

(** ** Dictionary forms *)

(** The full dictionary form of an instance is plain data: no instance
    is left in it at any depth.  It has the keys of the shallow form in
    the same order, carries the two type tags of the instance's class,
    so that the decoder recognises it, and computing it changes neither
    registry. *)
Theorem to_dict_is_plain_data fuel o c d s :
  depth (VEnt o c d) <= fuel ->
  exists items s',
    GufeTokenizable_to_dict fuel (VEnt o c d) true s = (Ok (VDict items), s') /\
    entity_free (VDict items) = true /\
    map fst items = map fst (dict_update d (module_qualname c)) /\
    dict_get "__qualname__" items = Some (VStr (snd c)) /\
    dict_get "__module__" items = Some (VStr (fst c)) /\
    is_gufe_dict (VDict items) = true /\
    TOKENIZABLE_REGISTRY s' = TOKENIZABLE_REGISTRY s /\
    TOKENIZABLE_CLASS_REGISTRY s' = TOKENIZABLE_CLASS_REGISTRY s.
Proof.
  intros Hd. pose proof (depth_encode_le (VEnt o c d)) as Hle.
  destruct (to_dict_full_run CLASSES fuel o c d s) as (s' & E & Q1 & Q2 & _);
    [lia |].
  destruct (encode_ent_tags o c d) as (items & Hi & Hq & Hm).
  exists items, s'. rewrite <- Hi.
  split; [exact E |]. split; [apply entity_free_encode |].
  split.
  { assert (H : VDict items =
                VDict (dict_update
                         (map (fun kv => (fst kv, encode (snd kv))) d)
                         (module_qualname c))) by (rewrite <- Hi; reflexivity).
    injection H as ->.
    pose proof (f_equal (map fst)
                  (dict_update_map encode d (module_qualname c))) as Hu.
    rewrite map_fst_map_values in Hu. exact (eq_sym Hu). }
  split; [done |]. split; [done |].
  split; [apply is_gufe_dict_encode_ent |]. by split.
Qed.


(** ** Decoding one dictionary *)

Lemma cls_from_dict_ent c dct s v s1 :
  cls_from_dict CLASSES c dct s = (Ok v, s1) -> is_gufe_obj v = true.
Proof.
  unfold cls_from_dict. destruct dct; try discriminate.
  destruct (forallb _ _); [| discriminate].
  destruct (bind_params _ _); [| discriminate].
  unfold bind, fresh_oid, ret. simpl. by intros [= <- <-].
Qed.

Lemma _from_dict_ent l s v s1 :
  _from_dict l s = (Ok v, s1) -> is_gufe_obj v = true.
Proof.
  unfold _from_dict, bind.
  destruct (pop l "__module__" s) as [[m | e] t2]; [| discriminate].
  destruct (pop l "__qualname__" t2) as [[q | e] t3]; [| discriminate].
  destruct (is_None q || is_None m); [discriminate |].
  destruct m as [| | | mo | | |]; try discriminate.
  destruct q as [| | | qu | | |]; try discriminate.
  destruct (get_class mo qu t3) as [[c | e] t4]; [| discriminate].
  destruct (load l t4) as [[dd | e] t5]; [| discriminate].
  apply cls_from_dict_ent.
Qed.

Lemma strip_defaults_KeyError defs : forall dct e,
  strip_defaults defs dct = Raise e -> exists k, e = KeyError k.
Proof.
  induction defs as [| [k v] defs IH]; intros dct e; simpl; [discriminate |].
  destruct (py_eq _ v); [| apply IH].
  destruct (dict_get k dct); [apply IH |].
  intros [= <-]. eauto.
Qed.

Lemma key_of_KeyError o c d e :
  key_of (VEnt o c d) = Raise e -> exists k, e = KeyError k.
Proof.
  unfold key_of, token_of, stripped_items. cbn [encode].
  destruct (strip_defaults _ _) as [items | e'] eqn:Hs; [discriminate |].
  intros [= <-]. by apply strip_defaults_KeyError in Hs.
Qed.


(** ** Equality *)

(** An instance is equal to itself and to every deep copy of itself:
    [==] compares full dictionary forms and these do not record which
    object is which. *)
Theorem eq_deep_copy fuel a b s :
  is_gufe_obj a = true ->
  erase b = erase a ->
  wf_keys a = true ->
  depth a <= fuel ->
  fst (__eq__ fuel a b s) = Ok true.
Proof.
  intros Ha He Hw Hd.
  destruct a as [| | | | | | o c d]; try discriminate.
  destruct (erase_ent_inv _ _ _ _ He) as (o' & d' & ->).
  pose proof (depth_encode_le (VEnt o c d)) as Hle.
  pose proof (erase_encode _ _ He) as Hen.
  unfold __eq__, isinstance. rewrite bool_decide_eq_true_2 by done.
  cbn [negb].
  destruct (to_dict_full_run CLASSES fuel o c d s) as (s1 & E1 & _); [lia |].
  rewrite (bind_ok _ _ _ _ _ E1).
  destruct (to_dict_full_run CLASSES fuel o' c d' s1) as (s2 & E2 & _);
    [rewrite Hen; lia |].
  rewrite (bind_ok _ _ _ _ _ E2). unfold ret. cbn [fst]. rewrite Hen.
  f_equal. apply py_eq_refl. by apply plain_encode.
Qed.

(** ** The shallow round trip *)

(** What [from_shallow_dict(e.to_shallow_dict())] runs through: the
    instance built by [_from_dict] has the class and the fields of [e],
    and the registry is then asked for the key of [e]. *)
Lemma shallow_round_trip_run fuel o c d s k :
  shaped (VEnt o c d) ->
  TOKENIZABLE_CLASS_REGISTRY s !! c = Some c ->
  depth (VEnt o c d) <= fuel ->
  fst (key fuel (VEnt o c d) s) = Ok k ->
  exists s3,
    (let* dct := to_shallow_dict (VEnt o c d) in
     let* l := alloc dct in
     from_shallow_dict fuel l) s =
      (Ok (lookup_live s3 k (VEnt (next_oid s) c d)),
       registered k (VEnt (next_oid s) c d) s3) /\
    TOKENIZABLE_REGISTRY s3 = TOKENIZABLE_REGISTRY s /\
    collected s3 = collected s.
Proof.
  intros (sg & Hc & Hk & Hnd & Hnm & Hnq) Hreg Hd Hkey.
  pose proof (depth_encode_le (VEnt o c d)) as Hle.
  assert (Hko : key_of (VEnt o c d) = Ok k).
  { destruct (key_run CLASSES py_str_item py_str_items md5_hexdigest
                fuel o c d s) as (s1 & _ & E); [lia |].
    rewrite E in Hkey. by destruct (key_of (VEnt o c d)). }
  cbn [to_shallow_dict to_dict]. rewrite bind_ret, alloc_bind.
  unfold module_qualname.
  rewrite dict_update_tags by (by rewrite Hk).
  set (s1 := State _ _ _ _ _ _).
  destruct (tagged_dict_pops d (VStr (snd c)) (VStr (fst c)))
    as (Hm & Hq & Hrest); [by rewrite Hk .. |].
  destruct (bind_params_exact sg d Hnd Hk) as [Hb Hf].
  assert (Hcr : TOKENIZABLE_CLASS_REGISTRY s1 !! (fst c, snd c) = Some c)
    by (simpl; by destruct c).
  pose proof (_from_dict_ok CLASSES REMAPPED_CLASSES s1 (next_loc s) _
                (fst c) (snd c) c sg d (lookup_insert_eq _ _ _) Hm Hq Hcr Hc)
    as Hfd.
  cbv zeta in Hfd. rewrite Hrest in Hfd. specialize (Hfd Hf Hb).
  destruct (from_dict_ok CLASSES REMAPPED_CLASSES py_str_item py_str_items
              md5_hexdigest fuel (next_loc s) s1 (next_oid s) c d _ k Hfd)
    as (s3 & (Q1 & Q2 & Q3 & _) & E).
  - change (depth (encode (VEnt o c d)) <= fuel). lia.
  - rewrite <- Hko. by apply key_of_same_encode.
  - exists s3. split; [exact E |]. by split.
Qed.

(** The shallow round trip of an instance that is alive and registered
    under its key returns that very instance, not a copy. *)
Theorem shallow_round_trip_same_object fuel o c d s k :
  shaped (VEnt o c d) ->
  TOKENIZABLE_CLASS_REGISTRY s !! c = Some c ->
  depth (VEnt o c d) <= fuel ->
  fst (key fuel (VEnt o c d) s) = Ok k ->
  TOKENIZABLE_REGISTRY s !! k = Some (VEnt o c d) ->
  alive s (VEnt o c d) = true ->
  fst ((let* dct := to_shallow_dict (VEnt o c d) in
        let* l := alloc dct in
        from_shallow_dict fuel l) s) = Ok (VEnt o c d).
Proof.
  intros Hsh Hreg Hd Hkey Hr Hal.
  destruct (shallow_round_trip_run fuel o c d s k Hsh Hreg Hd Hkey)
    as (s3 & -> & R & C).
  cbn [fst]. unfold lookup_live. rewrite R, Hr.
  unfold alive in *. rewrite C, Hal. reflexivity.
Qed.

(** The shallow round trip of an instance under whose key nothing is
    registered returns a new instance with the same class and the same
    fields, and registers it under that key. *)
Theorem shallow_round_trip_fresh fuel o c d s k :
  shaped (VEnt o c d) ->
  TOKENIZABLE_CLASS_REGISTRY s !! c = Some c ->
  depth (VEnt o c d) <= fuel ->
  fst (key fuel (VEnt o c d) s) = Ok k ->
  TOKENIZABLE_REGISTRY s !! k = None ->
  let run := (let* dct := to_shallow_dict (VEnt o c d) in
              let* l := alloc dct in
              from_shallow_dict fuel l) s in
  fst run = Ok (VEnt (next_oid s) c d) /\
  TOKENIZABLE_REGISTRY (snd run) !! k = Some (VEnt (next_oid s) c d).
Proof.
  intros Hsh Hreg Hd Hkey Hr run. subst run.
  destruct (shallow_round_trip_run fuel o c d s k Hsh Hreg Hd Hkey)
    as (s3 & -> & R & C).
  cbn [fst snd]. unfold lookup_live, registered, registry_setdefault.
  rewrite R, Hr. cbn [snd]. split; [reflexivity |].
  simpl. apply lookup_insert_eq.
Qed.

(** ** The walker *)

Lemma Forall2_erase_list (xs ys : list value) :
  Forall2 (fun x y => erase y = erase x) xs ys -> map erase ys = map erase xs.
Proof. induction 1; simpl; congruence. Qed.

Lemma Forall2_erase_items (xs ys : pydict) :
  Forall2 (fun x y => fst y = fst x /\ erase (snd y) = erase (snd x)) xs ys ->
  map (fun kv => (fst kv, erase (snd kv))) ys =
  map (fun kv => (fst kv, erase (snd kv))) xs.
Proof.
  induction 1 as [| x y xs ys [H1 H2] _ IH]; simpl; [done |].
  by rewrite H1, H2, IH.
Qed.


(** ** Hashing and ordering *)

Section Order.

Variable py_hash_str : string -> Z.
Variable py_hash : value -> option Z.

Local Abbreviation __hash__ :=
  (__hash__ CLASSES py_str_item py_str_items md5_hexdigest py_hash_str).
Local Abbreviation __lt__ :=
  (__lt__ CLASSES py_str_item py_str_items md5_hexdigest py_hash_str py_hash).

Lemma hash_same_form fuel o c d o' d' s t :
  encode (VEnt o c d) = encode (VEnt o' c d') ->
  depth (VEnt o c d) <= fuel -> depth (VEnt o' c d') <= fuel ->
  fst (__hash__ fuel (VEnt o c d) s) = fst (__hash__ fuel (VEnt o' c d') t).
Proof.
  intros He Ha Hb.
  pose proof (key_same_form fuel o c d o' d' s t He Ha Hb) as H.
  unfold __hash__, bind.
  destruct (key fuel (VEnt o c d) s) as [[k | e] s1];
    destruct (key fuel (VEnt o' c d') t) as [[k' | e'] t1];
    simpl in *; congruence.
Qed.

(** Instances with the same full dictionary form, which are equal for
    [==], have the same hash; and taking the hash of an instance reads
    its key, so that afterwards the registry holds an entry under it. *)
Theorem hash_agrees_with_form fuel a b s t :
  is_gufe_obj a = true -> is_gufe_obj b = true ->
  encode a = encode b ->
  depth a <= fuel -> depth b <= fuel ->
  fst (__hash__ fuel a s) = fst (__hash__ fuel b t) /\
  forall h, fst (__hash__ fuel a s) = Ok h ->
    exists k, h = py_hash_str k /\
      is_Some (TOKENIZABLE_REGISTRY (snd (__hash__ fuel a s)) !! k).
Proof.
  intros Ha Hb He Hda Hdb.
  destruct a as [| | | | | | o c d]; try discriminate.
  destruct b as [| | | | | | o' c' d']; try discriminate.
  pose proof (encode_ent_class _ _ _ _ _ _ He) as <-.
  split; [by apply hash_same_form |].
  intros h. unfold __hash__, bind.
  pose proof (depth_encode_le (VEnt o c d)) as Hle.
  destruct (key_run CLASSES py_str_item py_str_items md5_hexdigest
              fuel o c d s) as (s1 & _ & ->); [lia |].
  destruct (key_of (VEnt o c d)) as [k | e]; [| discriminate].
  unfold ret. cbn [fst snd]. intros [= <-]. exists k. split; [done |].
  unfold registered, registry_setdefault. cbn [snd].
  destruct (TOKENIZABLE_REGISTRY s1 !! k) as [v |] eqn:Hv.
  - by rewrite Hv.
  - simpl. by rewrite lookup_insert_eq.
Qed.

(** [<] on instances is a strict order on their hashes: no instance is
    below itself or below an instance with the same dictionary form,
    and of two instances at most one is below the other. *)
Theorem lt_is_strict fuel a b s t :
  is_gufe_obj a = true -> is_gufe_obj b = true ->
  depth a <= fuel -> depth b <= fuel ->
  (encode a = encode b ->
   forall h, fst (__hash__ fuel a s) = Ok h ->
             fst (__lt__ fuel a b s) = Ok false) /\
  (fst (__lt__ fuel a b s) = Ok true -> fst (__lt__ fuel b a t) = Ok false).
Proof.
  intros Ha Hb Hda Hdb.
  destruct a as [| | | | | | o c d]; try discriminate.
  destruct b as [| | | | | | o' c' d']; try discriminate.
  pose proof (depth_encode_le (VEnt o c d)) as Hla.
  pose proof (depth_encode_le (VEnt o' c' d')) as Hlb.
  assert (Hrun : forall o c d u, depth (encode (VEnt o c d)) <= fuel ->
            exists u',
              __hash__ fuel (VEnt o c d) u =
                (match key_of (VEnt o c d) with
                 | Ok k => Ok (py_hash_str k)
                 | Raise e => Raise e
                 end, u')).
  { intros o0 c0 d0 u Hu. unfold __hash__, bind.
    destruct (key_run CLASSES py_str_item py_str_items md5_hexdigest
                fuel o0 c0 d0 u Hu) as (u1 & _ & ->).
    destruct (key_of (VEnt o0 c0 d0)); eauto. }
  split.
  - intros He h Hh.
    pose proof (encode_ent_class _ _ _ _ _ _ He) as <-.
    unfold __lt__, hash, bind.
    destruct (Hrun o c d s ltac:(lia)) as (s1 & E1).
    rewrite E1 in Hh |- *.
    destruct (Hrun o' c d' s1 ltac:(lia)) as (s2 & E2). rewrite E2.
    rewrite <- (key_of_same_encode CLASSES py_str_item py_str_items
                  md5_hexdigest o c d o' d' He).
    destruct (key_of (VEnt o c d)) as [k | e]; [| discriminate].
    unfold ret. cbn [fst]. by rewrite Z.ltb_irrefl.
  - unfold __lt__, hash, bind.
    destruct (Hrun o c d s ltac:(lia)) as (s1 & E1).
    destruct (Hrun o' c' d' s1 ltac:(lia)) as (s2 & E2).
    destruct (Hrun o' c' d' t ltac:(lia)) as (t1 & E3).
    destruct (Hrun o c d t1 ltac:(lia)) as (t2 & E4).
    rewrite E1, E3.
    destruct (key_of (VEnt o c d)) as [k | e]; [| discriminate].
    rewrite E2.
    destruct (key_of (VEnt o' c' d')) as [k' | e']; [| discriminate].
    rewrite E4.
    unfold ret. cbn [fst]. intros [= H]. f_equal.
    apply Z.ltb_lt in H. apply Z.ltb_ge. lia.
Qed.

End Order.

(** ** The keyed round trip *)

Local Abbreviation held :=
  (held CLASSES py_str_item py_str_items md5_hexdigest).
Local Abbreviation key_encode :=
  (key_encode CLASSES py_str_item py_str_items md5_hexdigest).
Local Abbreviation to_keyed_dict :=
  (to_keyed_dict CLASSES py_str_item py_str_items md5_hexdigest).
Local Abbreviation from_keyed_dict :=
  (from_keyed_dict CLASSES REMAPPED_CLASSES py_str py_str_item py_str_items
     md5_hexdigest).
Local Abbreviation exact_registry :=
  (exact_registry CLASSES py_str_item py_str_items md5_hexdigest).

Lemma held_quiet s s' b : quiet s s' -> held s b -> held s' b.
Proof.
  intros (_ & Q2 & Q3 & _) (k & v & Hk & Hr & Ha & Hg & He).
  exists k, v. rewrite Q2. repeat split; try done.
  destruct v; try done. unfold alive in *. by rewrite Q3.
Qed.

Lemma held_erase s b b' : erase b' = erase b -> held s b -> held s b'.
Proof.
  intros H (k & v & Hk & Hr & Ha & Hg & He).
  exists k, v. repeat split; try done.
  - rewrite <- Hk.
    apply (key_of_erase CLASSES py_str_item py_str_items md5_hexdigest b b' H).
  - by rewrite (erase_encode _ _ H).
Qed.

Lemma deps_erase v : deps (erase v) = map erase (deps v).
Proof.
  induction v as [| | | | l IH | d IH | o c d IH] using value_ind'; try done.
  - simpl. induction IH as [| x l Hx Hl IHl]; simpl; [done |].
    by rewrite map_app, Hx, IHl.
  - simpl. induction IH as [| x l Hx Hl IHl]; simpl; [done |].
    by rewrite map_app, Hx, IHl.
Qed.

Lemma held_deps_erase s v v' :
  erase v' = erase v ->
  (forall b, In b (deps v) -> held s b) ->
  forall b, In b (deps v') -> held s b.
Proof.
  intros H Hv b Hb.
  assert (Hin : In (erase b) (map erase (deps v))).
  { rewrite <- deps_erase, <- H, deps_erase. by apply in_map. }
  apply in_map_iff in Hin as (b0 & He & Hb0).
  apply (held_erase s b0 b); [done |]. by apply Hv.
Qed.

Lemma registered_present k v w s :
  TOKENIZABLE_REGISTRY s !! k = Some w -> registered k v s = s.
Proof.
  intros H. unfold registered, registry_setdefault. simpl. by rewrite H.
Qed.

(** The walk of [key_encode_dependencies] below the root, when the
    registry already holds every key it asks for: nothing is added. *)
Lemma key_encode_walk_held fuel0 fuel :
  fuel <= fuel0 ->
  forall v s, depth v <= fuel ->
    (forall b, In b (deps v) -> held s b) ->
    exists s',
      modify_dependencies fuel
        (fun l => let* o := load l in
                  let* k := key fuel0 o in
                  ret (GufeKey_to_dict k))
        is_gufe_obj false v s = (Ok (key_encode v), s') /\ quiet s s'.
Proof.
  induction fuel as [| fuel IH]; intros Hf v s Hd Hh.
  - pose proof (depth_pos v). lia.
  - rewrite modify_dependencies_S.
    destruct (deepcopy_run v s) as (v1 & s1 & E1 & Her & Hq1).
    rewrite (bind_ok _ _ _ _ _ E1).
    rewrite <- (erase_key_encode CLASSES py_str_item py_str_items
                  md5_hexdigest _ _ Her).
    rewrite <- (erase_depth _ _ Her) in Hd.
    assert (Hh1 : forall b, In b (deps v1) -> held s1 b).
    { intros b Hb. apply (held_quiet s s1 b Hq1).
      by apply (held_deps_erase s v v1 Her Hh). }
    clear E1 Her Hh v.
    destruct v1 as [| b | z | str | l | d | o c d];
      cbn [is_gufe_obj andb negb]; try (by exists s1).
    + rewrite bind_ret.
      destruct (walk_list_run quiet
                  (modify_dependencies fuel
                     (fun l => let* o := load l in
                               let* k := key fuel0 o in
                               ret (GufeKey_to_dict k))
                     is_gufe_obj false)
                  key_encode l s1) as (s2 & E2 & Hq2); [apply quiet_refl | |].
      { intros x Hx s' Hs'. destruct (IH ltac:(lia) x s') as (s'' & E & Hq).
        - pose proof (depth_list_in x l Hx). lia.
        - intros b Hb. apply (held_quiet s1 s' b Hs'). apply Hh1.
          simpl. apply in_flat_map. eauto.
        - exists s''. split; [done |]. eapply quiet_trans; eauto. }
      rewrite (bind_ok _ _ _ _ _ E2). exists s2.
      split; [done |]. eapply quiet_trans; eauto.
    + rewrite bind_ret.
      destruct (walk_items_run quiet
                  (modify_dependencies fuel
                     (fun l => let* o := load l in
                               let* k := key fuel0 o in
                               ret (GufeKey_to_dict k))
                     is_gufe_obj false)
                  key_encode d s1) as (s2 & E2 & Hq2); [apply quiet_refl | |].
      { intros x Hx s' Hs'. destruct (IH ltac:(lia) (snd x) s') as (s'' & E & Hq).
        - pose proof (depth_dict_in x d Hx). lia.
        - intros b Hb. apply (held_quiet s1 s' b Hs'). apply Hh1.
          simpl. apply in_flat_map. eauto.
        - exists s''. split; [done |]. eapply quiet_trans; eauto. }
      rewrite (bind_ok _ _ _ _ _ E2). exists s2.
      split; [done |]. eapply quiet_trans; eauto.
    + rewrite alloc_load_run_bind. cbn beta.
      destruct (Hh1 (VEnt o c d) (or_introl eq_refl))
        as (k & w & Hk & Hr & _).
      match goal with
      | |- exists _, bind _ _ ?s0 = _ /\ _ =>
          destruct (key_run CLASSES py_str_item py_str_items md5_hexdigest
                      fuel0 o c d s0) as (s2 & Hq2 & E2);
            [pose proof (depth_encode_le (VEnt o c d)); lia |]
      end.
      change (key_encode (VEnt o c d))
        with (match key_of (VEnt o c d) with
              | Ok k => GufeKey_to_dict k
              | Raise _ => VNone
              end).
      rewrite Hk in E2 |- *.
      rewrite (registered_present k (VEnt o c d) w s2) in E2;
        [| destruct Hq2 as (_ & -> & _); exact Hr].
      rewrite (bind_ok _ _ _ _ _ (bind_ok _ _ _ _ _ E2)).
      cbn beta iota. unfold GufeKey_to_dict.
      pose proof (depth_ent_ge o c d).
      destruct fuel as [| fuel]; [lia |].
      destruct (walk_str fuel
                  (fun l => let* o := load l in
                            let* k := key fuel0 o in
                            ret (VDict [(":gufe-key:", VStr k)]))
                  k s2) as (s3 & E3 & Hq3).
      erewrite bind_ok; cycle 1.
      { cbn [mapM]. erewrite bind_ok; [reflexivity |].
        erewrite bind_ok; [reflexivity | exact E3]. }
      exists s3. split; [reflexivity |].
      eapply quiet_trans; [exact Hq1 |].
      eapply quiet_trans; [apply quiet_alloc |].
      eapply quiet_trans; [exact Hq2 | exact Hq3].
Qed.

(** [to_keyed_dict] on an instance whose dependencies are all held. *)
Lemma to_keyed_dict_held fuel o c d s :
  depth (VEnt o c d) <= fuel ->
  (forall b, In b (deps (VDict d)) -> held s b) ->
  exists s',
    to_keyed_dict fuel (VEnt o c d) s =
      (Ok (VDict (map (fun kv => (fst kv, key_encode (snd kv)))
                      (dict_update d (module_qualname c)))), s') /\
    quiet s s'.
Proof.
  intros Hd Hh.
  unfold to_keyed_dict, key_encode_dependencies, to_shallow_dict.
  cbn [to_dict]. rewrite bind_ret.
  destruct fuel as [| fuel]; [pose proof (depth_pos (VEnt o c d)); lia |].
  rewrite modify_dependencies_S.
  destruct (deepcopy_run (VDict (dict_update d (module_qualname c))) s)
    as (v1 & s1 & E1 & Her & Hq1).
  rewrite (bind_ok _ _ _ _ _ E1).
  destruct (erase_dict_inv _ _ Her) as [d1 ->].
  cbn [is_gufe_obj andb]. rewrite bind_ret.
  pose proof (depth_shallow o c d) as Hsh.
  rewrite <- (erase_depth _ _ Her) in Hsh.
  assert (Hh0 : forall b, In b (deps (VDict (dict_update d (module_qualname c))))
                          -> held s b).
  { intros b Hb. apply Hh. cbn [deps] in *.
    apply in_flat_map in Hb as (kv & Hkv & Hb).
    apply in_dict_update in Hkv as [Hkv | Hkv].
    - apply in_flat_map. eauto.
    - by destruct Hkv as [<- | [<- | []]]. }
  assert (Hh1 : forall b, In b (deps (VDict d1)) -> held s1 b).
  { intros b Hb. apply (held_quiet s s1 b Hq1).
    by apply (held_deps_erase s _ (VDict d1) Her Hh0). }
  destruct (walk_items_run quiet
              (modify_dependencies fuel
                 (fun l => let* o := load l in
                           let* k := key (S fuel) o in
                           ret (GufeKey_to_dict k))
                 is_gufe_obj false)
              key_encode d1 s1) as (s2 & E2 & Hq2); [apply quiet_refl | |].
  { intros x Hx s' Hs'.
    destruct (key_encode_walk_held (S fuel) fuel ltac:(lia) (snd x) s')
      as (s'' & E & Hq').
    - pose proof (depth_dict_in x d1 Hx). lia.
    - intros b Hb. apply (held_quiet s1 s' b Hs'). apply Hh1.
      simpl. apply in_flat_map. eauto.
    - exists s''. split; [done |]. eapply quiet_trans; eauto. }
  rewrite (bind_ok _ _ _ _ _ E2). exists s2.
  split; [| eapply quiet_trans; eauto].
  unfold ret. do 2 f_equal.
  pose proof (erase_key_encode CLASSES py_str_item py_str_items
                md5_hexdigest _ _ Her) as Hke.
  simpl in Hke. by injection Hke.
Qed.

Lemma entity_free_key_encode v : entity_free (key_encode v) = true.
Proof.
  induction v as [| | | | l IH | d IH | o c d IH] using value_ind'; try done.
  - simpl. apply forallb_forall. intros x Hx.
    apply in_map_iff in Hx as (x0 & <- & Hx0).
    rewrite List.Forall_forall in IH. by apply IH.
  - simpl. apply forallb_forall. intros x Hx.
    apply in_map_iff in Hx as (x0 & <- & Hx0).
    rewrite List.Forall_forall in IH. by apply IH.
  - change (key_encode (VEnt o c d))
      with (match key_of (VEnt o c d) with
            | Ok k => GufeKey_to_dict k
            | Raise _ => VNone
            end).
    by destruct (key_of (VEnt o c d)).
Qed.

Lemma mapM_map {A B C} (f : B -> M C) (g : A -> B) (l : list A) s :
  mapM f (map g l) s = mapM (fun x => f (g x)) l s.
Proof.
  revert s. induction l as [| x l IH]; intros s; simpl; [done |].
  unfold bind. destruct (f (g x) s) as [[y | e] s1]; [| done].
  rewrite IH. reflexivity.
Qed.

Lemma Forall2_same_encode_list (xs ys : list value) :
  Forall2 (fun x y => encode y = encode x) xs ys ->
  map encode ys = map encode xs.
Proof. induction 1; simpl; congruence. Qed.

Lemma Forall2_same_encode_items (xs ys : pydict) :
  Forall2 (fun x y => fst y = fst x /\ encode (snd y) = encode (snd x)) xs ys ->
  map (fun kv => (fst kv, encode (snd kv))) ys =
    map (fun kv => (fst kv, encode (snd kv))) xs /\
  map fst ys = map fst xs.
Proof.
  induction 1 as [| x y xs ys [H1 H2] _ [IH1 IH2]]; simpl; [done |].
  by rewrite H1, H2, IH1, IH2.
Qed.

Lemma registry_deref_held s k v :
  TOKENIZABLE_REGISTRY s !! k = Some v -> alive s v = true ->
  registry_deref k s = (Ok v, s).
Proof. intros Hr Ha. unfold registry_deref. by rewrite Hr, Ha. Qed.

(** The walk of [key_decode_dependencies] below the root, on the keyed
    form of [a]: every reference record is replaced by the instance
    that the registry holds under its key. *)
Lemma key_decode_walk fuel :
  forall a s,
    unkeyed a = true ->
    (forall b, In b (deps a) -> held s b) ->
    depth a <= fuel ->
    exists a' s',
      modify_dependencies fuel
        (fun l =>
           let* d := load l in
           match d with
           | VDict items =>
               match dict_get ":gufe-key:" items with
               | Some (VStr k) => registry_deref k
               | Some v => registry_deref (py_str v)
               | None => raise (KeyError ":gufe-key:")
               end
           | _ => raise (TypeError "subscript")
           end)
        is_gufe_key_dict false (key_encode a) s = (Ok a', s') /\
      encode a' = encode a /\ quiet s s'.
Proof.
  induction fuel as [| fuel IH]; intros a s Hu Hh Hd.
  - pose proof (depth_pos a). lia.
  - rewrite modify_dependencies_S.
    rewrite (bind_ok _ _ _ _ _
               (deepcopy_entity_free _ s (entity_free_key_encode a))).
    destruct a as [| b | z | str | l | d | o c d].
    + exists VNone, s. split; [done |]. split; [done | apply quiet_refl].
    + exists (VBool b), s. split; [done |]. split; [done | apply quiet_refl].
    + exists (VInt z), s. split; [done |]. split; [done | apply quiet_refl].
    + exists (VStr str), s. split; [done |]. split; [done | apply quiet_refl].
    + cbn [key_encode is_gufe_key_dict andb]. rewrite bind_ret. cbn iota.
      unfold bind at 1. rewrite mapM_map.
      match goal with
      | |- context [mapM ?f l s] =>
          destruct (mapM_inv f (quiet s) (fun x y => encode y = encode x) l)
            with (s := s) as (ys & s' & E & HQ & HI);
            [| apply quiet_refl |]
      end.
      { intros x Hx s1 Hs1.
        destruct (IH x s1) as (a' & s2 & E2 & He2 & Hq2).
        - simpl in Hu. rewrite forallb_forall in Hu. by apply Hu.
        - intros b Hb. apply (held_quiet s s1 b Hs1). apply Hh.
          simpl. apply in_flat_map. eauto.
        - pose proof (depth_list_in x l Hx). lia.
        - exists a', s2. split; [done |]. split; [done |].
          eapply quiet_trans; eauto. }
      rewrite E. exists (VList ys), s'.
      split; [done |]. split; [| done].
      cbn [encode]. by rewrite (Forall2_same_encode_list _ _ HQ).
    + assert (Hnot : is_gufe_key_dict (key_encode (VDict d)) = false).
      { cbn [key_encode is_gufe_key_dict]. rewrite dict_mem_map.
        simpl in Hu. apply andb_prop in Hu as [Hu _].
        by apply negb_true_iff in Hu. }
      rewrite Hnot. cbn [andb]. rewrite bind_ret. cbn [key_encode].
      unfold bind at 1. rewrite mapM_map.
      match goal with
      | |- context [mapM ?f d s] =>
          destruct (mapM_inv f (quiet s)
                      (fun x y => fst y = fst x /\
                                  encode (snd y) = encode (snd x)) d)
            with (s := s) as (ys & s' & E & HQ & HI);
            [| apply quiet_refl |]
      end.
      { intros x Hx s1 Hs1.
        destruct (IH (snd x) s1) as (a' & s2 & E2 & He2 & Hq2).
        - simpl in Hu. apply andb_prop in Hu as [_ Hu].
          rewrite forallb_forall in Hu. by apply Hu.
        - intros b Hb. apply (held_quiet s s1 b Hs1). apply Hh.
          simpl. apply in_flat_map. eauto.
        - pose proof (depth_dict_in x d Hx). lia.
        - exists (fst x, a'), s2. cbn [fst snd].
          rewrite (bind_ok _ _ _ _ _ E2).
          split; [done |]. split; [done |].
          eapply quiet_trans; eauto. }
      rewrite E. exists (VDict ys), s'.
      split; [done |]. split; [| done].
      cbn [encode]. by destruct (Forall2_same_encode_items _ _ HQ) as [-> _].
    + destruct (Hh (VEnt o c d) (or_introl eq_refl))
        as (k & v & Hk & Hr & Ha & Hg & He).
      change (key_encode (VEnt o c d))
        with (match key_of (VEnt o c d) with
              | Ok k => GufeKey_to_dict k
              | Raise _ => VNone
              end).
      rewrite Hk.
      change (is_gufe_key_dict (GufeKey_to_dict k) && negb false) with true.
      cbn iota. rewrite alloc_load_run_bind.
      unfold GufeKey_to_dict. cbn [dict_get String.eqb Ascii.eqb Bool.eqb].
      set (s0 := State _ _ _ _ _ _).
      assert (Ed : registry_deref k s0 = (Ok v, s0)).
      { apply registry_deref_held; [exact Hr |].
        destruct v; try done. }
      rewrite (bind_ok _ _ _ _ _ Ed).
      destruct v as [| | | | | | o' c' d']; try discriminate.
      exists (VEnt o' c' d'), s0. split; [done |]. split; [done |].
      apply quiet_alloc.
Qed.


(** ** A field that [_to_dict] does not export *)

Lemma dict_get_remove_None {A} (k k' : string) (d : list (string * A)) :
  dict_get k d = None -> dict_get k (dict_remove k' d) = None.
Proof.
  intros H. apply dict_get_None_notin. intros Hin.
  apply in_dict_remove in Hin. by apply dict_get_None_notin in H.
Qed.

Lemma strip_defaults_missing_None f defs : forall dct,
  In (f, VNone) defs ->
  dict_get f dct = None ->
  exists k, strip_defaults defs dct = Raise (KeyError k).
Proof.
  induction defs as [| [k v] defs IH]; intros dct Hin Hf; [destruct Hin |].
  cbn [strip_defaults].
  destruct (dict_get k dct) as [x |] eqn:Hk.
  - assert (Hin' : In (f, VNone) defs).
    { destruct Hin as [[= -> ->] | Hin]; [congruence | done]. }
    destruct (py_eq x v).
    + apply IH; [done |]. by apply dict_get_remove_None.
    + by apply IH.
  - destruct (py_eq VNone v) eqn:He; [eauto |].
    destruct Hin as [[= -> ->] | Hin]; [discriminate |]. by apply IH.
Qed.


(** ** [==] is symmetric *)


(** ** A reference record that the registry cannot resolve *)

Local Abbreviation key_decode_dependencies :=
  (key_decode_dependencies CLASSES REMAPPED_CLASSES py_str py_str_item
     py_str_items md5_hexdigest).

Lemma key_encode_entity_free v : entity_free v = true -> key_encode v = v.
Proof.
  induction v as [| | | | l IH | d IH | o c d IH] using value_ind';
    intros H; try done.
  - simpl in *. f_equal. rewrite forallb_forall in H.
    rewrite List.Forall_forall in IH.
    rewrite <- (map_id l) at 2. apply map_ext_in. intros x Hx.
    apply IH; [done | by apply H].
  - simpl in *. f_equal. rewrite forallb_forall in H.
    rewrite List.Forall_forall in IH.
    rewrite <- (map_id d) at 2. apply map_ext_in. intros [k x] Hx.
    simpl. f_equal. apply (IH (k, x) Hx). by apply (H (k, x)).
Qed.

Lemma deps_entity_free v : entity_free v = true -> deps v = [].
Proof.
  induction v as [| | | | l IH | d IH | o c d IH] using value_ind';
    intros H; try done.
  - simpl in *. rewrite forallb_forall in H.
    induction IH as [| x l Hx Hl IHl]; simpl; [done |].
    rewrite Hx, IHl; [done | | ]; intros; apply H; simpl; auto.
  - simpl in *. rewrite forallb_forall in H.
    induction IH as [| x l Hx Hl IHl]; simpl; [done |].
    rewrite Hx, IHl; [done | | ]; intros; apply H; simpl; auto.
Qed.

Lemma mapM_prefix_raise {A B} (f : A -> M B) (I : state -> Prop) pre x post e :
  (forall y, In y pre -> forall t, I t -> exists z t', f y t = (Ok z, t') /\ I t') ->
  (forall t, I t -> exists t', f x t = (Raise e, t') /\ I t') ->
  forall s, I s ->
    exists s', mapM f (pre ++ x :: post) s = (Raise e, s') /\ I s'.
Proof.
  intros Hpre Hx. induction pre as [| y pre IH]; intros s Hs; simpl.
  - destruct (Hx s Hs) as (t' & E & Ht'). exists t'.
    by rewrite (bind_raise _ _ _ _ _ E).
  - destruct (Hpre y (or_introl eq_refl) s Hs) as (z & t' & E & Ht').
    rewrite (bind_ok _ _ _ _ _ E).
    destruct (IH (fun y' Hy' => Hpre y' (or_intror Hy')) t' Ht')
      as (s' & E' & Hs').
    exists s'. by rewrite (bind_raise _ _ _ _ _ E').
Qed.

(** Keyed decoding of a dictionary in which a field holds the reference
    record of a key that the registry does not have raises
    [KeyError] with that key, when the fields before it hold plain data
    without reference records; the registry is left as it was. *)
Theorem keyed_decode_missing_key fuel s dct pre f k post :
  store s !! dct =
    Some (VDict (pre ++ (f, GufeKey_to_dict k) :: post)%list) ->
  entity_free (VDict (pre ++ (f, GufeKey_to_dict k) :: post)%list) = true ->
  forallb (fun kv => unkeyed (snd kv)) pre = true ->
  depth (VDict pre) < fuel ->
  TOKENIZABLE_REGISTRY s !! k = None ->
  fst (key_decode_dependencies fuel dct s) = Raise (KeyError k) /\
  TOKENIZABLE_REGISTRY (snd (key_decode_dependencies fuel dct s)) =
    TOKENIZABLE_REGISTRY s.
Proof.
  intros Hst Hef Hun Hd Hnone.
  unfold key_decode_dependencies.
  rewrite (bind_ok _ _ _ _ _ (load_ok _ _ _ Hst)).
  destruct fuel as [| fuel]; [lia |].
  match goal with
  | |- context [modify_dependencies _ ?kd is_gufe_key_dict true ?v] =>
      assert (Hwalk : exists s',
                modify_dependencies (S fuel) kd is_gufe_key_dict true v s =
                  (Raise (KeyError k), s') /\ quiet s s')
  end.
  { rewrite modify_dependencies_S.
    rewrite (bind_ok _ _ _ _ _ (deepcopy_entity_free _ s Hef)).
    rewrite andb_false_r, bind_ret. cbn iota.
    match goal with
    | |- context [mapM ?g _] =>
        destruct (mapM_prefix_raise g
                    (fun t => quiet s t)
                    pre (f, GufeKey_to_dict k) post (KeyError k))
          with (s := s) as (s' & E & Hq')
    end.
    - intros y Hy t Ht.
      assert (Hey : entity_free (snd y) = true).
      { simpl in Hef. rewrite forallb_forall in Hef. apply Hef.
        apply in_or_app. by left. }
      destruct (key_decode_walk fuel (snd y) t) as (a' & t' & Ew & _ & Hq).
      + rewrite forallb_forall in Hun. by apply Hun.
      + rewrite (deps_entity_free _ Hey). intros b [].
      + pose proof (depth_dict_in y pre Hy). lia.
      + rewrite (key_encode_entity_free _ Hey) in Ew.
        exists (fst y, a'), t'. rewrite (bind_ok _ _ _ _ _ Ew).
        split; [done |]. eapply quiet_trans; eauto.
    - intros t Ht. cbn [fst snd].
      destruct fuel as [| fuel'];
        [pose proof (depth_pos (VDict pre)); lia |].
      match goal with
      | |- context [bind ?m _] =>
          assert (Ew : exists t', m t = (Raise (KeyError k), t') /\ quiet s t')
      end.
      { rewrite modify_dependencies_S.
        erewrite bind_ok; [| by apply deepcopy_entity_free].
        change (is_gufe_key_dict (GufeKey_to_dict k) && negb false) with true.
        cbn iota. rewrite alloc_load_run_bind.
        unfold GufeKey_to_dict. cbn [dict_get String.eqb Ascii.eqb Bool.eqb].
        set (t0 := State _ _ _ _ _ _).
        assert (Hq0 : quiet s t0).
        { eapply quiet_trans; [exact Ht | apply quiet_alloc]. }
        assert (Ed : registry_deref k t0 = (Raise (KeyError k), t0)).
        { unfold registry_deref. destruct Hq0 as (_ & -> & _).
          by rewrite Hnone. }
        exists t0. by rewrite (bind_raise _ _ _ _ _ Ed). }
      destruct Ew as (t' & Ew & Hq). exists t'.
      by rewrite (bind_raise _ _ _ _ _ Ew).
    - apply quiet_refl.
    - exists s'. by rewrite (bind_raise _ _ _ _ _ E). }
  destruct Hwalk as (s' & E & (_ & Q & _)).
  rewrite (bind_raise _ _ _ _ _ E). cbn [fst snd]. by split.
Qed.

(** ** Registry entries are permanent *)

Local Abbreviation dict_decode_dependencies :=
  (dict_decode_dependencies CLASSES REMAPPED_CLASSES py_str_item
     py_str_items md5_hexdigest).
Local Abbreviation key_encode_dependencies :=
  (key_encode_dependencies CLASSES py_str_item py_str_items md5_hexdigest).

Lemma extends_refl s : extends s s.
Proof. by repeat split. Qed.

Lemma extends_trans s1 s2 s3 : extends s1 s2 -> extends s2 s3 -> extends s1 s3.
Proof.
  intros (A1 & A2 & A3) (B1 & B2 & B3). repeat split.
  - intros k c H. by apply B1, A1.
  - intros k v H. by apply B2, A2.
  - congruence.
Qed.

Lemma lasting_ret {A} (a : A) : lasting (ret a).
Proof. intros s. apply extends_refl. Qed.

Lemma lasting_raise {A} e : lasting (@raise A e).
Proof. intros s. apply extends_refl. Qed.

Lemma lasting_bind {A B} (m : M A) (k : A -> M B) :
  lasting m -> (forall a, lasting (k a)) -> lasting (bind m k).
Proof.
  intros Hm Hk s. unfold bind. specialize (Hm s).
  destruct (m s) as [[a | e] s1]; simpl in *; [| done].
  eapply extends_trans; [exact Hm | apply Hk].
Qed.

Lemma lasting_except {A} (m h : M A) :
  lasting m -> lasting h -> lasting (except_KeyError m h).
Proof.
  intros Hm Hh s. unfold except_KeyError. specialize (Hm s).
  destruct (m s) as [[a | []] s1]; simpl in *; try done.
  eapply extends_trans; [exact Hm | apply Hh].
Qed.

Lemma lasting_mapM {A B} (f : A -> M B) (l : list A) :
  (forall x, lasting (f x)) -> lasting (mapM f l).
Proof.
  intros Hf. induction l as [| x l IH]; simpl.
  - apply lasting_ret.
  - apply lasting_bind; [apply Hf |]. intros y.
    apply lasting_bind; [apply IH |]. intros ys. apply lasting_ret.
Qed.

Lemma lasting_load l : lasting (load l).
Proof. intros s. unfold load. destruct (store s !! l); apply extends_refl. Qed.

Lemma lasting_write l v : lasting (write l v).
Proof. intros s. by repeat split. Qed.

Lemma lasting_alloc v : lasting (alloc v).
Proof. intros s. by repeat split. Qed.

Lemma lasting_pop l k : lasting (pop l k).
Proof.
  unfold pop. apply lasting_bind; [apply lasting_load |].
  intros [| | | | | items |]; try apply lasting_raise.
  destruct (dict_get k items); [| apply lasting_raise].
  apply lasting_bind; [apply lasting_write |]. intros _. apply lasting_ret.
Qed.

Lemma lasting_fresh_oid : lasting fresh_oid.
Proof. intros s. by repeat split. Qed.

Lemma lasting_deepcopy v : lasting (deepcopy v).
Proof.
  intros s. unfold deepcopy. destruct (deepcopy_from (next_oid s) v).
  by repeat split.
Qed.

Lemma lasting_registry_deref k : lasting (registry_deref k).
Proof.
  intros s. unfold registry_deref.
  destruct (TOKENIZABLE_REGISTRY s !! k); apply extends_refl.
Qed.

Lemma lasting_registry_setdefault k v : lasting (registry_setdefault k v).
Proof.
  intros s. unfold registry_setdefault. simpl.
  destruct (TOKENIZABLE_REGISTRY s !! k) as [w |] eqn:Hk;
    [apply extends_refl |].
  repeat split; try done. simpl. intros k' v' H.
  rewrite lookup_insert_ne; [done |]. congruence.
Qed.

Create HintDb lasting.
#[local] Hint Resolve lasting_ret lasting_raise lasting_load lasting_write
  lasting_alloc lasting_pop lasting_fresh_oid lasting_deepcopy
  lasting_registry_deref lasting_registry_setdefault : lasting.

Lemma lasting_get_class m q : lasting (get_class m q).
Proof.
  intros s. unfold get_class, except_KeyError, class_registry_get.
  cbv zeta.
  destruct (TOKENIZABLE_CLASS_REGISTRY s !! (m, q)) as [c |] eqn:Hreg;
    [apply extends_refl |].
  cbn [snd]. unfold bind, import_qualname.
  destruct (CLASSES !! _); [| apply extends_refl].
  simpl. repeat split; try done. simpl. intros k c H.
  rewrite lookup_insert_ne; [done |]. congruence.
Qed.

Lemma lasting_cls_from_dict c d : lasting (cls_from_dict CLASSES c d).
Proof.
  unfold cls_from_dict. destruct d; auto with lasting.
  destruct (forallb _ _); auto with lasting.
  destruct (bind_params _ _); auto with lasting.
  all: apply lasting_bind; auto with lasting.
Qed.

Lemma lasting_to_dict o : lasting (to_dict o).
Proof. unfold to_dict. destruct o; auto with lasting. Qed.

Lemma lasting_modify_dependencies fuel modifier is_mine :
  (forall l, lasting (modifier l)) ->
  forall top obj, lasting (modify_dependencies fuel modifier is_mine top obj).
Proof.
  intros Hmod. induction fuel as [| fuel IH]; intros top obj; simpl.
  - apply lasting_raise.
  - apply lasting_bind; [apply lasting_deepcopy |]. intros obj1.
    apply lasting_bind.
    + destruct (is_mine obj1 && negb top); [| apply lasting_ret].
      apply lasting_bind; [apply lasting_alloc | exact Hmod].
    + intros obj2. destruct obj2; auto with lasting.
      * apply lasting_bind; [| auto with lasting]. apply lasting_mapM. apply IH.
      * apply lasting_bind; [| auto with lasting]. apply lasting_mapM.
        intros kv. apply lasting_bind; [apply IH | auto with lasting].
Qed.

Lemma lasting_GufeTokenizable_to_dict fuel self b :
  lasting (GufeTokenizable_to_dict fuel self b).
Proof.
  unfold GufeTokenizable_to_dict, dict_encode_dependencies, to_shallow_dict.
  apply lasting_bind.
  - apply lasting_bind; [apply lasting_to_dict |]. intros sh.
    apply lasting_modify_dependencies. intros l.
    apply lasting_bind; [apply lasting_load | apply lasting_to_dict].
  - intros d. destruct b; auto with lasting. destruct d; auto with lasting.
    destruct (strip_defaults _ _); auto with lasting.
Qed.

Lemma lasting_key fuel self : lasting (key fuel self).
Proof.
  unfold key. destruct self; auto with lasting.
  apply lasting_bind.
  - unfold tokenize. apply lasting_bind; [| auto with lasting].
    unfold normalize_object, _gufe_tokenize.
    apply lasting_bind; [apply lasting_GufeTokenizable_to_dict |].
    intros d. destruct d; auto with lasting.
  - intros tok. apply lasting_bind; auto with lasting.
Qed.

Lemma lasting__from_dict dct : lasting (_from_dict dct).
Proof.
  unfold _from_dict.
  apply lasting_bind; [apply lasting_pop |]. intros m.
  apply lasting_bind; [apply lasting_pop |]. intros q.
  destruct (is_None q || is_None m); [apply lasting_raise |].
  destruct m; auto with lasting. destruct q; auto with lasting.
  apply lasting_bind; [apply lasting_get_class |]. intros c.
  apply lasting_bind; [apply lasting_load | intros d; apply lasting_cls_from_dict].
Qed.

Lemma lasting_from_dict fuel dct : lasting (from_dict fuel dct).
Proof.
  unfold from_dict.
  apply lasting_bind; [apply lasting__from_dict |]. intros obj.
  apply lasting_except; [| apply lasting_ret].
  apply lasting_bind; [apply lasting_key |]. intros k.
  apply lasting_bind; [apply lasting_registry_deref |]. intros t.
  destruct (is_None t); apply lasting_ret.
Qed.


(** ** What keyed encoding registers *)

Local Abbreviation keyable :=
  (keyable CLASSES py_str_item py_str_items md5_hexdigest).

Lemma adds_copies_refl s : adds_copies s s.
Proof. split; [apply calm_refl | by left]. Qed.

Lemma adds_copies_trans s1 s2 s3 :
  adds_copies s1 s2 -> adds_copies s2 s3 -> adds_copies s1 s3.
Proof.
  intros [C1 H1] [C2 H2]. split; [by eapply calm_trans |].
  intros k v H3. destruct (H2 k v H3) as [H | (o & c & d & -> & Ho)].
  - by apply H1.
  - right. exists o, c, d. split; [done |].
    destruct C1 as (_ & _ & _ & L). lia.
Qed.

Lemma quiet_adds_copies s s' : quiet s s' -> adds_copies s s'.
Proof.
  intros Hq. split; [by apply quiet_calm |].
  intros k v H. left. destruct Hq as (_ & Q & _). by rewrite <- Q.
Qed.

Lemma registered_adds_copy s s2 k o c d :
  quiet s s2 -> next_oid s <= o ->
  adds_copies s (registered k (VEnt o c d) s2).
Proof.
  intros Hq Ho. split.
  - eapply calm_trans; [by apply quiet_calm | apply calm_registered].
  - destruct Hq as (_ & Q & _).
    unfold registered, registry_setdefault. cbn [snd].
    destruct (TOKENIZABLE_REGISTRY s2 !! k) as [w |] eqn:Hk.
    + intros k' v H. left. by rewrite <- Q.
    + simpl. intros k' v H.
      destruct (decide (k' = k)) as [-> | Hne].
      * rewrite lookup_insert_eq in H. injection H as <-. right. eauto.
      * rewrite lookup_insert_ne in H by congruence. left. by rewrite <- Q.
Qed.

Lemma deepcopy_run_fresh v s :
  exists v1 s1,
    deepcopy v s = (Ok v1, s1) /\ erase v1 = erase v /\ quiet s s1 /\
    forall o c d, v1 = VEnt o c d -> o = next_oid s.
Proof.
  destruct (deepcopy_run v s) as (v1 & s1 & E & He & Hq).
  exists v1, s1. split; [done |]. split; [done |]. split; [done |].
  intros o c d ->. unfold deepcopy in E.
  destruct (erase_ent_inv _ _ _ _ (eq_sym He)) as (o0 & d0 & ->).
  rewrite deepcopy_from_ent in E. by injection E as <- _ _.
Qed.

(** The walk of [key_encode_dependencies] below the root: what it
    registers are the copies it has made. *)
Lemma key_encode_walk_copies fuel0 fuel :
  fuel <= fuel0 ->
  forall v s, depth v <= fuel -> keyable v = true ->
    exists s',
      modify_dependencies fuel
        (fun l => let* o := load l in
                  let* k := key fuel0 o in
                  ret (GufeKey_to_dict k))
        is_gufe_obj false v s = (Ok (key_encode v), s') /\
      adds_copies s s'.
Proof.
  induction fuel as [| fuel IH]; intros Hf v s Hd Hk.
  - pose proof (depth_pos v). lia.
  - rewrite modify_dependencies_S.
    destruct (deepcopy_run_fresh v s) as (v1 & s1 & E1 & Her & Hq1 & Hfresh).
    rewrite (bind_ok _ _ _ _ _ E1).
    pose proof (quiet_adds_copies _ _ Hq1) as Ha1.
    rewrite <- (erase_key_encode CLASSES py_str_item py_str_items
                  md5_hexdigest _ _ Her).
    rewrite <- (erase_depth _ _ Her) in Hd.
    rewrite <- (erase_keyable CLASSES py_str_item py_str_items
                  md5_hexdigest _ _ Her) in Hk.
    clear E1 Her v.
    destruct v1 as [| b | z | str | l | d | o c d];
      cbn [is_gufe_obj andb negb]; try (by exists s1).
    + rewrite bind_ret.
      destruct (walk_list_run adds_copies
                  (modify_dependencies fuel
                     (fun l => let* o := load l in
                               let* k := key fuel0 o in
                               ret (GufeKey_to_dict k))
                     is_gufe_obj false)
                  key_encode l s1) as (s2 & E2 & Hq2);
        [apply adds_copies_refl | |].
      { intros x Hx s' Hs'. destruct (IH ltac:(lia) x s') as (s'' & E & Hq).
        - pose proof (depth_list_in x l Hx). lia.
        - simpl in Hk. rewrite forallb_forall in Hk. by apply Hk.
        - exists s''. split; [done |]. eapply adds_copies_trans; eauto. }
      rewrite (bind_ok _ _ _ _ _ E2). exists s2.
      split; [done |]. eapply adds_copies_trans; eauto.
    + rewrite bind_ret.
      destruct (walk_items_run adds_copies
                  (modify_dependencies fuel
                     (fun l => let* o := load l in
                               let* k := key fuel0 o in
                               ret (GufeKey_to_dict k))
                     is_gufe_obj false)
                  key_encode d s1) as (s2 & E2 & Hq2);
        [apply adds_copies_refl | |].
      { intros x Hx s' Hs'. destruct (IH ltac:(lia) (snd x) s') as (s'' & E & Hq).
        - pose proof (depth_dict_in x d Hx). lia.
        - rewrite keyable_dict in Hk. rewrite forallb_forall in Hk. by apply Hk.
        - exists s''. split; [done |]. eapply adds_copies_trans; eauto. }
      rewrite (bind_ok _ _ _ _ _ E2). exists s2.
      split; [done |]. eapply adds_copies_trans; eauto.
    + rewrite alloc_load_run_bind. cbn beta.
      pose proof (Hfresh o c d eq_refl) as ->.
      match goal with
      | |- exists _, bind _ _ ?s0 = _ /\ _ =>
          destruct (key_run CLASSES py_str_item py_str_items md5_hexdigest
                      fuel0 (next_oid s) c d s0) as (s2 & Hq2 & E2);
            [pose proof (depth_encode_le (VEnt (next_oid s) c d)); lia |]
      end.
      change (keyable (VEnt (next_oid s) c d))
        with (match key_of (VEnt (next_oid s) c d) with
              | Ok _ => true
              | Raise _ => false
              end) in Hk.
      change (key_encode (VEnt (next_oid s) c d))
        with (match key_of (VEnt (next_oid s) c d) with
              | Ok k => GufeKey_to_dict k
              | Raise _ => VNone
              end).
      destruct (key_of (VEnt (next_oid s) c d)) as [k | e]; [| discriminate].
      rewrite (bind_ok _ _ _ _ _ (bind_ok _ _ _ _ _ E2)).
      cbn beta iota. unfold GufeKey_to_dict.
      pose proof (depth_ent_ge (next_oid s) c d).
      destruct fuel as [| fuel]; [lia |].
      destruct (walk_str fuel
                  (fun l => let* o := load l in
                            let* k := key fuel0 o in
                            ret (VDict [(":gufe-key:", VStr k)]))
                  k (registered k (VEnt (next_oid s) c d) s2))
        as (s3 & E3 & Hq3).
      erewrite bind_ok; cycle 1.
      { cbn [mapM]. erewrite bind_ok; [reflexivity |].
        erewrite bind_ok; [reflexivity | exact E3]. }
      exists s3. split; [reflexivity |].
      assert (Hq02 : quiet s s2).
      { eapply quiet_trans; [exact Hq1 |].
        eapply quiet_trans; [apply quiet_alloc | exact Hq2]. }
      eapply adds_copies_trans; [| apply (quiet_adds_copies _ _ Hq3)].
      by apply registered_adds_copy.
Qed.

(** What [to_keyed_dict] adds to the instance registry are instances
    created during the call, the deep copies that the walk makes of the
    dependencies: every entry of the registry afterwards was there
    before, or is an object that did not exist before. *)
Theorem to_keyed_dict_registers_copies fuel o c d s :
  depth (VEnt o c d) <= fuel ->
  keyable (VDict d) = true ->
  exists r s',
    to_keyed_dict fuel (VEnt o c d) s = (Ok r, s') /\
    forall k v, TOKENIZABLE_REGISTRY s' !! k = Some v ->
      TOKENIZABLE_REGISTRY s !! k = Some v \/
      exists o' c' d', v = VEnt o' c' d' /\ next_oid s <= o'.
Proof.
  intros Hd Hk.
  unfold to_keyed_dict, key_encode_dependencies, to_shallow_dict.
  cbn [to_dict]. rewrite bind_ret.
  destruct fuel as [| fuel]; [pose proof (depth_pos (VEnt o c d)); lia |].
  rewrite modify_dependencies_S.
  destruct (deepcopy_run (VDict (dict_update d (module_qualname c))) s)
    as (v1 & s1 & E1 & Her & Hq1).
  rewrite (bind_ok _ _ _ _ _ E1).
  destruct (erase_dict_inv _ _ Her) as [d1 ->].
  cbn [is_gufe_obj andb]. rewrite bind_ret.
  pose proof (depth_shallow o c d) as Hsh.
  rewrite <- (erase_depth _ _ Her) in Hsh.
  assert (Hk1 : keyable (VDict d1) = true).
  { rewrite (erase_keyable CLASSES py_str_item py_str_items md5_hexdigest
               _ _ Her).
    rewrite keyable_dict.
    apply forallb_forall. intros kv Hin.
    apply in_dict_update in Hin as [Hin | Hin].
    - rewrite keyable_dict in Hk. rewrite forallb_forall in Hk. by apply Hk.
    - destruct Hin as [<- | [<- | []]]; done. }
  destruct (walk_items_run adds_copies
              (modify_dependencies fuel
                 (fun l => let* o := load l in
                           let* k := key (S fuel) o in
                           ret (GufeKey_to_dict k))
                 is_gufe_obj false)
              key_encode d1 s1) as (s2 & E2 & Hq2);
    [apply adds_copies_refl | |].
  { intros x Hx s' Hs'.
    destruct (key_encode_walk_copies (S fuel) fuel ltac:(lia) (snd x) s')
      as (s'' & E & Hq').
    - pose proof (depth_dict_in x d1 Hx). lia.
    - rewrite keyable_dict in Hk1. rewrite forallb_forall in Hk1.
      by apply Hk1.
    - exists s''. split; [done |]. eapply adds_copies_trans; eauto. }
  rewrite (bind_ok _ _ _ _ _ E2). eexists _, s2. split; [reflexivity |].
  destruct (adds_copies_trans _ _ _ (quiet_adds_copies _ _ Hq1) Hq2)
    as [_ H].
  exact H.
Qed.

End More.

(** * The claims on the demo program *)


(** C2, at a failing input: [Point(x=0, y=5) == 3] raises. *)
Lemma eq_other_type_raises_witness :
  isinstance (VInt 3) Demo.Point = false /\
  __eq__ Demo.classes 5 (VEnt 1 Demo.Point [("x", VInt 0); ("y", VInt 5)])
    (VInt 3) Demo.start =
    (Raise (TypeError "'NotImplementedType' object is not callable"),
     Demo.start).
Proof.
  split; [reflexivity |].
  apply (eq_other_type_raises Demo.classes 5 1 Demo.Point). reflexivity.
Defined.

(** C3, counterexample.  [modA.OldName] is still defined, so still in
    the class registry: the remap entry from it to [modB.NewName] is
    never looked at, and the dictionary tagged [modA.OldName] decodes to
    an instance of [modA.OldName]. *)
Lemma remap_ignored_when_registered :
  Demo.remap !! Demo.OldName = Some Demo.NewName /\
  fst (GufeTokenizable_from_dict Demo.classes_both Demo.remap
         Demo.repr_item Demo.repr_items Demo.digest 5 0
         (Demo.with_dict (VDict (("y", VInt 5) :: Demo.tags Demo.OldName))
            Demo.start_both))
  = Ok (VEnt 10 Demo.OldName [("y", VInt 5)]) /\
  isinstance (VEnt 10 Demo.OldName [("y", VInt 5)]) Demo.NewName = false.
Proof. repeat apply conj; vm_compute; reflexivity. Qed.

(** C4, at a failing input.  The registry holds, under the key of
    [Inner(x=0)], a reference to an instance that was collected.
    Decoding the dictionary form of [Inner(x=0)] twice returns two
    different instances, both alive, with the same key: the first one
    could not register itself, the dead entry being in the way. *)
Lemma dead_entry_defeats_dedup :
  let s := Demo.with_dict (Demo.inner_dict (VInt 0)) Demo.dead_inner in
  let twice := let* a := Demo.decode 5 0 in
               let* b := Demo.decode 5 0 in ret (a, b) in
  let a := VEnt 10 Demo.Inner [("x", VInt 0)] in
  let b := VEnt 11 Demo.Inner [("x", VInt 0)] in
  fst (twice s) = Ok (a, b) /\
  a <> b /\
  alive (snd (twice s)) a = true /\
  alive (snd (twice s)) b = true /\
  fst (Demo.key_of_instance 5 a (snd (twice s))) = Ok Demo.inner_key /\
  fst (Demo.key_of_instance 5 b (snd (twice s))) = Ok Demo.inner_key /\
  TOKENIZABLE_REGISTRY (snd (twice s)) !! Demo.inner_key
    = Some Demo.inner_zero /\
  alive (snd (twice s)) Demo.inner_zero = false.
Proof.
  repeat apply conj; try (vm_compute; reflexivity). intros H. discriminate H.
Qed.

(** The same two calls when the registered instance is alive: both
    return it. *)
Lemma live_entry_is_returned :
  let s := Demo.with_dict (Demo.inner_dict (VInt 0)) Demo.live_inner in
  let twice := let* a := Demo.decode 5 0 in
               let* b := Demo.decode 5 0 in ret (a, b) in
  fst (twice s) = Ok (Demo.inner_zero, Demo.inner_zero).
Proof. vm_compute. reflexivity. Qed.


(** C9, at a failing input.  The reference record names a key that the
    registry holds for a collected instance: keyed decoding raises
    nothing and builds the instance with [None] for its dependency.
    When the key is absent it raises [KeyError]. *)
Lemma dead_reference_decodes_to_None :
  let d := Demo.outer_dict (GufeKey_to_dict Demo.inner_key) in
  fst (Demo.decode_keyed 5 0 (Demo.with_dict d Demo.dead_inner))
    = Ok (VEnt 10 Demo.Outer [("child", VNone)]) /\
  fst (Demo.decode_keyed 5 0 (Demo.with_dict d Demo.start))
    = Raise (KeyError Demo.inner_key) /\
  fst (Demo.decode_keyed 5 0 (Demo.with_dict d Demo.live_inner))
    = Ok (VEnt 10 Demo.Outer [("child", Demo.inner_zero)]).
Proof. repeat apply conj; vm_compute; reflexivity. Qed.

(** ** The general statements at concrete inputs *)



(** C6 on [Outer(child=Inner(x=0))]. *)
Lemma to_keyed_dict_keeps_root_witness :
  let items :=
    [("child", GufeKey_to_dict Demo.inner_key);
     ("__qualname__", VStr "Outer"); ("__module__", VStr "m")] in
  (exists s',
      to_keyed_dict Demo.classes Demo.repr_item Demo.repr_items Demo.digest
        5 Demo.outer_zero Demo.start = (Ok (VDict items), s')) /\
  map fst items = ["child"; "__qualname__"; "__module__"] /\
  dict_get "__qualname__" items = Some (VStr "Outer") /\
  dict_get "__module__" items = Some (VStr "m") /\
  (forall k, VDict items <> GufeKey_to_dict k).
Proof.
  apply (to_keyed_dict_keeps_root Demo.classes Demo.repr_item Demo.repr_items
           Demo.digest 5 1 Demo.Outer
           [("child", VEnt 2 Demo.Inner [("x", VInt 0)])] Demo.start).
  - vm_compute. lia.
  - vm_compute. reflexivity.
Defined.


(** C3 after the rename: [modA.OldName] is gone, and the dictionary
    tagged with it decodes to an instance of [modB.NewName]. *)
Lemma remap_used_when_unregistered_witness :
  let s := Demo.with_dict (VDict (("y", VInt 5) :: Demo.tags Demo.OldName))
             Demo.start in
  let obj := VEnt 10 Demo.NewName [("y", VInt 5)] in
  fst (get_class Demo.classes Demo.remap "modA" "OldName" s)
    = Ok Demo.NewName /\
  TOKENIZABLE_CLASS_REGISTRY
    (snd (get_class Demo.classes Demo.remap "modA" "OldName" s))
    !! Demo.OldName = Some Demo.NewName /\
  fst (_from_dict Demo.classes Demo.remap 0 s) = Ok obj /\
  fst (from_shallow_dict Demo.classes Demo.remap Demo.repr_item
         Demo.repr_items Demo.digest 5 0 s) = Ok obj.
Proof.
  intros s obj.
  apply (remap_used_when_unregistered Demo.classes Demo.remap Demo.repr_item
           Demo.repr_items Demo.digest 5 s 0
           (("y", VInt 5) :: Demo.tags Demo.OldName) "modA" "OldName"
           Demo.NewName [("y", None)] [("y", VInt 5)]
           "NewName-[('__module__', 'modB'), ('__qualname__', 'NewName'), ('y', 5)]").
  - vm_compute. reflexivity.
  - vm_compute. reflexivity.
  - vm_compute. reflexivity.
  - vm_compute. reflexivity.
  - reflexivity.
  - reflexivity.
  - reflexivity.
  - reflexivity.
  - vm_compute. lia.
  - vm_compute. reflexivity.
  - vm_compute. reflexivity.
Defined.



(** ** The further properties at concrete inputs *)


(** [Inner(x=0)] reads its key in a state where nothing is registered. *)
Lemma key_registers_once_witness :
  let s' := snd (Demo.key_of_instance 5 Demo.inner_zero Demo.start) in
  TOKENIZABLE_REGISTRY s' !! Demo.inner_key =
    Some (match TOKENIZABLE_REGISTRY Demo.start !! Demo.inner_key with
          | Some v => v
          | None => Demo.inner_zero
          end) /\
  (forall k', k' <> Demo.inner_key ->
     TOKENIZABLE_REGISTRY s' !! k' = TOKENIZABLE_REGISTRY Demo.start !! k') /\
  TOKENIZABLE_CLASS_REGISTRY s' = TOKENIZABLE_CLASS_REGISTRY Demo.start /\
  collected s' = collected Demo.start.
Proof.
  intros s'.
  apply (key_registers_once Demo.classes Demo.repr_item Demo.repr_items
           Demo.digest 5 0 Demo.Inner [("x", VInt 0)] Demo.start
           Demo.inner_key s').
  - vm_compute. lia.
  - vm_compute. reflexivity.
Defined.

(** Two [Inner(x=0)], objects 1 and 2. *)
Lemma key_depends_on_form_only_witness :
  let a := VEnt 1 Demo.Inner [("x", VInt 0)] in
  let b := VEnt 2 Demo.Inner [("x", VInt 0)] in
  fst (tokenize Demo.classes Demo.repr_item Demo.repr_items Demo.digest 5 a
         Demo.start) =
  fst (tokenize Demo.classes Demo.repr_item Demo.repr_items Demo.digest 5 b
         Demo.live_inner) /\
  fst (Demo.key_of_instance 5 a Demo.start) =
  fst (Demo.key_of_instance 5 b Demo.live_inner).
Proof.
  intros a b.
  apply (key_depends_on_form_only Demo.classes Demo.repr_item Demo.repr_items
           Demo.digest 5 a b Demo.start Demo.live_inner).
  - reflexivity.
  - reflexivity.
  - reflexivity.
  - vm_compute. lia.
  - vm_compute. lia.
Defined.

(** The full dictionary form of [Outer(child=Inner(x=0))]. *)
Lemma to_dict_is_plain_data_witness :
  exists items s',
    GufeTokenizable_to_dict Demo.classes 5 Demo.outer_zero true Demo.start =
      (Ok (VDict items), s') /\
    entity_free (VDict items) = true /\
    map fst items =
      map fst (dict_update [("child", VEnt 2 Demo.Inner [("x", VInt 0)])]
                 (module_qualname Demo.Outer)) /\
    dict_get "__qualname__" items = Some (VStr (snd Demo.Outer)) /\
    dict_get "__module__" items = Some (VStr (fst Demo.Outer)) /\
    is_gufe_dict (VDict items) = true /\
    TOKENIZABLE_REGISTRY s' = TOKENIZABLE_REGISTRY Demo.start /\
    TOKENIZABLE_CLASS_REGISTRY s' = TOKENIZABLE_CLASS_REGISTRY Demo.start.
Proof.
  apply (to_dict_is_plain_data Demo.classes 5 1 Demo.Outer
           [("child", VEnt 2 Demo.Inner [("x", VInt 0)])] Demo.start).
  vm_compute. lia.
Defined.



(** [Outer(child=Inner(x=0))] and a deep copy of it. *)
Lemma eq_deep_copy_witness :
  fst (__eq__ Demo.classes 5 Demo.outer_zero
         (VEnt 7 Demo.Outer [("child", VEnt 8 Demo.Inner [("x", VInt 0)])])
         Demo.start) = Ok true.
Proof.
  apply (eq_deep_copy Demo.classes 5 Demo.outer_zero).
  - reflexivity.
  - reflexivity.
  - reflexivity.
  - vm_compute. lia.
Defined.

(** [Inner(x=0)], alive and registered: the shallow round trip returns
    object 0 itself. *)
Lemma shallow_round_trip_same_object_witness :
  fst (Demo2.shallow_there_and_back 5 Demo.inner_zero Demo.live_inner)
  = Ok Demo.inner_zero.
Proof.
  apply (shallow_round_trip_same_object Demo.classes Demo.no_remap
           Demo.repr_item Demo.repr_items Demo.digest 5 0 Demo.Inner
           [("x", VInt 0)] Demo.live_inner Demo.inner_key).
  - exists [("x", Some (VInt 0))].
    repeat apply conj; try reflexivity.
    + repeat constructor; simpl; intuition discriminate.
    + simpl; intuition discriminate.
    + simpl; intuition discriminate.
  - vm_compute. reflexivity.
  - vm_compute. lia.
  - vm_compute. reflexivity.
  - vm_compute. reflexivity.
  - vm_compute. reflexivity.
Defined.

(** [Inner(x=0)], nothing registered: the shallow round trip builds
    object 10 and registers it. *)
Lemma shallow_round_trip_fresh_witness :
  let run := Demo2.shallow_there_and_back 5 Demo.inner_zero Demo.start in
  fst run = Ok (VEnt 10 Demo.Inner [("x", VInt 0)]) /\
  TOKENIZABLE_REGISTRY (snd run) !! Demo.inner_key =
    Some (VEnt 10 Demo.Inner [("x", VInt 0)]).
Proof.
  apply (shallow_round_trip_fresh Demo.classes Demo.no_remap
           Demo.repr_item Demo.repr_items Demo.digest 5 0 Demo.Inner
           [("x", VInt 0)] Demo.start Demo.inner_key).
  - exists [("x", Some (VInt 0))].
    repeat apply conj; try reflexivity.
    + repeat constructor; simpl; intuition discriminate.
    + simpl; intuition discriminate.
    + simpl; intuition discriminate.
  - vm_compute. reflexivity.
  - vm_compute. lia.
  - vm_compute. reflexivity.
  - vm_compute. reflexivity.
Defined.


(** Two [Inner(x=0)], objects 1 and 2, have the same hash. *)
Lemma hash_agrees_with_form_witness :
  let a := VEnt 1 Demo.Inner [("x", VInt 0)] in
  let b := VEnt 2 Demo.Inner [("x", VInt 0)] in
  let hash_of := __hash__ Demo.classes Demo.repr_item Demo.repr_items
                   Demo.digest Demo2.hash_str 5 in
  fst (hash_of a Demo.start) = fst (hash_of b Demo.live_inner) /\
  forall h, fst (hash_of a Demo.start) = Ok h ->
    exists k, h = Demo2.hash_str k /\
      is_Some (TOKENIZABLE_REGISTRY (snd (hash_of a Demo.start)) !! k).
Proof.
  intros a b hash_of.
  apply (hash_agrees_with_form Demo.classes Demo.repr_item Demo.repr_items
           Demo.digest Demo2.hash_str 5 a b Demo.start Demo.live_inner).
  - reflexivity.
  - reflexivity.
  - reflexivity.
  - vm_compute. lia.
  - vm_compute. lia.
Defined.

(** [Point(x=0, y=5)] and [Point(x=10, y=5)]. *)
Lemma lt_is_strict_witness :
  let a := Demo2.point 1 0 5 in
  let b := Demo2.point 2 10 5 in
  let below := __lt__ Demo.classes Demo.repr_item Demo.repr_items Demo.digest
                 Demo2.hash_str Demo2.hash_value 5 in
  (encode a = encode b ->
   forall h, fst (__hash__ Demo.classes Demo.repr_item Demo.repr_items
                    Demo.digest Demo2.hash_str 5 a Demo.start) = Ok h ->
             fst (below a b Demo.start) = Ok false) /\
  (fst (below a b Demo.start) = Ok true ->
   fst (below b a Demo.start) = Ok false).
Proof.
  intros a b below.
  apply (lt_is_strict Demo.classes Demo.repr_item Demo.repr_items Demo.digest
           Demo2.hash_str Demo2.hash_value 5 a b Demo.start Demo.start).
  - reflexivity.
  - reflexivity.
  - vm_compute. lia.
  - vm_compute. lia.
Defined.




(** A reference to [Inner(x=0)] while nothing is registered. *)
Lemma keyed_decode_missing_key_witness :
  let s := Demo.with_dict (Demo.outer_dict (GufeKey_to_dict Demo.inner_key))
             Demo.start in
  fst (key_decode_dependencies Demo.classes Demo.no_remap Demo.repr
         Demo.repr_item Demo.repr_items Demo.digest 5 0 s)
    = Raise (KeyError Demo.inner_key) /\
  TOKENIZABLE_REGISTRY
    (snd (key_decode_dependencies Demo.classes Demo.no_remap Demo.repr
            Demo.repr_item Demo.repr_items Demo.digest 5 0 s))
    = TOKENIZABLE_REGISTRY s.
Proof.
  intros s.
  apply (keyed_decode_missing_key Demo.classes Demo.no_remap Demo.repr
           Demo.repr_item Demo.repr_items Demo.digest 5 s 0 [] "child"
           Demo.inner_key (Demo.tags Demo.Outer)).
  - vm_compute. reflexivity.
  - reflexivity.
  - reflexivity.
  - simpl. lia.
  - vm_compute. reflexivity.
Defined.


(** Keyed encoding of [Outer(child=Inner(x=0))], nothing registered. *)
Lemma to_keyed_dict_registers_copies_witness :
  exists r s',
    to_keyed_dict Demo.classes Demo.repr_item Demo.repr_items Demo.digest 5
      Demo.outer_zero Demo.start = (Ok r, s') /\
    forall k v, TOKENIZABLE_REGISTRY s' !! k = Some v ->
      TOKENIZABLE_REGISTRY Demo.start !! k = Some v \/
      exists o' c' d', v = VEnt o' c' d' /\ next_oid Demo.start <= o'.
Proof.
  apply (to_keyed_dict_registers_copies Demo.classes Demo.repr_item
           Demo.repr_items Demo.digest 5 1 Demo.Outer
           [("child", VEnt 2 Demo.Inner [("x", VInt 0)])] Demo.start).
  - vm_compute. lia.
  - vm_compute. reflexivity.
Defined.
